(** * Graph state synchronisation and highlight engine of the dashboard

    A shallow embedding of [Frontend/app.js]: the module-level state
    (renderer datasets, selection, highlight sets), the renderer-facing
    node and edge records, the highlight, reconciliation, filter and
    search functions, and the debounce timer, followed by the properties
    the specification states about them.

    Asynchronous functions are split at their [await]: the part that
    runs up to the call, and the part that runs when the response
    arrives, in the state of that moment.  The rendering library is
    outside the repository; its [DataSet] is modelled by the operations
    the dashboard calls.  Strings are byte strings holding the UTF-8 form
    of the JavaScript string.  Case folding, white space and lengths
    are those of JavaScript on ASCII text only; a property that turns
    on them says that its text is ASCII.  What is neither state nor
    decision is left out: console output, view changes ([fit],
    [focus]), and the panels that only display a result. *)

From Stdlib Require Import List String Ascii ZArith QArith Qminmax Lqa Bool Arith Lia.
From Stdlib Require Import DecimalString DecimalNat FinFun.
Import ListNotations.

Local Close Scope Q_scope.
Local Open Scope string_scope.

(* ================================================================== *)
(** ** JavaScript values used by the dashboard *)
(* ================================================================== *)

(** An optional field of a JSON object: [None] is JavaScript's
    [undefined]. *)
Definition orElse {A : Type} (o : option A) (d : A) : A :=
  match o with Some a => a | None => d end.

(** Truthiness of an optional string: [undefined] and the empty string
    are falsy. *)
Definition truthy (o : option string) : bool :=
  match o with
  | Some s => negb (s =? "")
  | None => false
  end.

(** [a || b] on optional strings. *)
Definition strOr (a b : option string) : option string :=
  if truthy a then a else b.

(** Template interpolation [${x}] of an optional string. *)
Definition interp (o : option string) : string := orElse o "undefined".

(** Decimal rendering of an array index. *)
Definition string_of_nat (n : nat) : string :=
  NilEmpty.string_of_uint (Nat.to_uint n).

(** [String.prototype.toLowerCase] on ASCII text: the letters [A] to
    [Z] are folded.  Other bytes are left as they are, which is not what
    JavaScript does to letters outside ASCII. *)
Definition lowerAscii (c : ascii) : ascii :=
  let n := nat_of_ascii c in
  if (65 <=? n)%nat && (n <=? 90)%nat then ascii_of_nat (n + 32) else c.

Fixpoint toLowerCase (s : string) : string :=
  match s with
  | EmptyString => EmptyString
  | String c r => String (lowerAscii c) (toLowerCase r)
  end.

(** White space removed by [String.prototype.trim] from ASCII text:
    tab, line feed, vertical tab, form feed, carriage return, space.
    JavaScript also removes the white space outside ASCII (U+00A0 and
    the like), which [trim] below leaves in place. *)
Definition isSpace (c : ascii) : bool :=
  let n := nat_of_ascii c in
  ((9 <=? n)%nat && (n <=? 13)%nat) || (n =? 32)%nat.

Fixpoint trimStart (s : string) : string :=
  match s with
  | EmptyString => EmptyString
  | String c r => if isSpace c then trimStart r else s
  end.

(** [trimEnd] drops a character when it is white space and everything
    after it has been dropped. *)
Fixpoint trimEnd (s : string) : string :=
  match s with
  | EmptyString => EmptyString
  | String c r =>
      match trimEnd r with
      | EmptyString => if isSpace c then EmptyString else String c EmptyString
      | r' => String c r'
      end
  end.

Definition trim (s : string) : string := trimEnd (trimStart s).

(** ASCII text: every character code is below 128.  On such text the
    number of bytes is JavaScript's [length], [String.substring] is
    [substring], and [toLowerCase] and [trim] above are the JavaScript
    functions. *)
Definition isAscii (c : ascii) : bool := (nat_of_ascii c <? 128)%nat.

Fixpoint asciiText (s : string) : bool :=
  match s with
  | EmptyString => true
  | String c r => isAscii c && asciiText r
  end.

Definition asciiOpt (o : option string) : bool :=
  match o with Some s => asciiText s | None => true end.

(** [s.includes(q)]. *)
Fixpoint includes (s q : string) : bool :=
  String.prefix q s ||
  match s with
  | EmptyString => false
  | String _ r => includes r q
  end.

(** [s.split(sep)] for a non-empty separator: matches are taken from the
    left and do not overlap.  [skip] counts the characters of a matched
    separator still to be passed over; [cur] is the piece being read. *)
Fixpoint splitFrom (sep : string) (skip : nat) (cur : string) (s : string)
  : list string :=
  match s with
  | EmptyString => [cur]
  | String c r =>
      match skip with
      | S k => splitFrom sep k cur r
      | O =>
          if String.prefix sep s
          then cur :: splitFrom sep (String.length sep - 1) "" r
          else splitFrom sep 0 (cur ++ String c "") r
      end
  end.

Definition split (s sep : string) : list string := splitFrom sep 0 "" s.

(** The separator of a literal path: a space, the rightwards arrow
    U+2192 in its three UTF-8 bytes, a space. *)
Definition ARROW_SEP : string :=
  String " " (String (ascii_of_nat 226) (String (ascii_of_nat 134)
    (String (ascii_of_nat 146) (String " " "")))).

(** A JavaScript [Set] of identifiers keeps insertion order and holds
    every member once. *)
Definition IdSet := list string.

Definition set_has (x : string) (s : IdSet) : bool :=
  existsb (String.eqb x) s.

Definition set_add (x : string) (s : IdSet) : IdSet :=
  if set_has x s then s else (s ++ [x])%list.

Definition set_delete (x : string) (s : IdSet) : IdSet :=
  filter (fun y => negb (String.eqb x y)) s.

(* ================================================================== *)
(** ** Configuration *)
(* ================================================================== *)

Definition HIGHLIGHT_COLOR : string := "#fbbf24".

Definition TIER_COLORS (tier : Z) : option string :=
  match tier with
  | 0%Z => Some "#9333ea"
  | 1%Z => Some "#22c55e"
  | 2%Z => Some "#3b82f6"
  | 3%Z => Some "#f59e0b"
  | 4%Z => Some "#ef4444"
  | 5%Z => Some "#ec4899"
  | (-1)%Z => Some "#06b6d4"
  | _ => None
  end.

Definition NODE_SHAPES (type : option string) : option string :=
  match type with
  | Some "FIELD" => Some "dot"
  | Some "CONCEPT" => Some "diamond"
  | _ => None
  end.

(* ================================================================== *)
(** ** Domain records received from the backend *)
(* ================================================================== *)

(** A node of the backend's JSON: the identifier and the optional
    fields the graph code reads. *)
Record NodeData := mkNodeData {
  n_id : string;
  n_label : option string;
  n_type : option string;
  n_tier : option Z
}.

(** An edge of the bulk export ([source]/[target], or [from]/[to]). *)
Record EdgeData := mkEdgeData {
  d_source : option string;
  d_target : option string;
  d_from : option string;
  d_to : option string;
  d_type : option string
}.

(* ================================================================== *)
(** ** Baseline visuals *)
(* ================================================================== *)

(** [getNodeColor]: the palette entry of the tier, the concept colour
    when the tier is absent or has no entry. *)
Definition getNodeColor (node : NodeData) : string :=
  let tier := orElse (n_tier node) (-1)%Z in
  orElse (TIER_COLORS tier) (orElse (TIER_COLORS (-1)%Z) "").

(** [getNodeSize]: 18 for a concept, otherwise
    [12 + max(0, 4 - tier) * 1.5] with tier 1 when absent.  The value is
    the exact rational; JavaScript computes it in doubles, which gives
    the same number for the tiers of [exactTier] below. *)
Definition getNodeSize (node : NodeData) : Q :=
  match n_type node with
  | Some "CONCEPT" => 18%Q
  | _ =>
      let tier := orElse (n_tier node) 1%Z in
      (12 + Qmax 0 (4 - inject_Z tier) * 1.5)%Q
  end.

(** [truncateLabel] with its default budget of 20 characters, counted
    in bytes: JavaScript's count on ASCII text. *)
Definition truncateLabel (label : option string) : string :=
  if negb (truthy label) then "..."
  else
    let l := orElse label "" in
    if (String.length l <=? 20)%nat then l
    else String.substring 0 20 l ++ "...".

(* ================================================================== *)
(** ** Renderer primitives *)
(* ================================================================== *)

Record Font := mkFont { f_color : string; f_size : Z }.

(** An item of the renderer's node dataset.  Every field but the
    identifier is optional: an item created by an update of an unknown
    identifier carries only the fields of that update. *)
Record VisNode := mkVisNode {
  v_id : string;
  v_label : option string;
  v_color : option string;
  v_shape : option string;
  v_size : option Q;
  v_font : option Font;
  v_tier : option Z;
  v_type : option string;
  v_originalColor : option string;
  v_data : option NodeData;
  v_hidden : option bool
}.

(** The object handed to [nodesDataset.update]: the identifier and the
    keys it carries.  For the colour, [Some None] is a key that is
    present with the value [undefined]. *)
Record NodeUpdate := mkNodeUpdate {
  u_id : string;
  u_color : option (option string);
  u_size : option Q;
  u_font : option Font;
  u_hidden : option bool
}.

Record EdgeColor := mkEdgeColor {
  ec_color : string;
  ec_highlight : option string;
  ec_opacity : Q
}.

Record VisEdge := mkVisEdge {
  e_id : string;
  e_from : option string;
  e_to : option string;
  e_arrows : option string;
  e_color : option EdgeColor;
  e_width : option Z;
  e_type : option string
}.

(** The object handed to [edgesDataset.update]. *)
Record EdgeUpdate := mkEdgeUpdate {
  eu_id : string;
  eu_color : EdgeColor;
  eu_width : Z
}.

(** [{...item, ...update}] on nodes and edges, and the item an update
    becomes when its identifier is unknown. *)
Definition mergeNode (it : VisNode) (u : NodeUpdate) : VisNode :=
  mkVisNode (v_id it) (v_label it)
    (match u_color u with Some c => c | None => v_color it end)
    (v_shape it)
    (match u_size u with Some q => Some q | None => v_size it end)
    (match u_font u with Some f => Some f | None => v_font it end)
    (v_tier it) (v_type it) (v_originalColor it) (v_data it)
    (match u_hidden u with Some h => Some h | None => v_hidden it end).

Definition createNode (u : NodeUpdate) : VisNode :=
  mkVisNode (u_id u) None
    (match u_color u with Some c => c | None => None end)
    None (u_size u) (u_font u) None None None None (u_hidden u).

Definition mergeEdge (it : VisEdge) (u : EdgeUpdate) : VisEdge :=
  mkVisEdge (e_id it) (e_from it) (e_to it) (e_arrows it)
    (Some (eu_color u)) (Some (eu_width u)) (e_type it).

Definition createEdge (u : EdgeUpdate) : VisEdge :=
  mkVisEdge (eu_id u) None None None (Some (eu_color u)) (Some (eu_width u)) None.

(* ================================================================== *)
(** ** The renderer's dataset *)
(* ================================================================== *)

(** [vis.DataSet] as the dashboard uses it: items keyed by identifier,
    kept in insertion order.  [add] throws on a known identifier,
    [update] merges into a known item and inserts an unknown one. *)
Module DataSet.
Section Generic.
Context {item upd : Type}.
Variable key : item -> string.
Variable ukey : upd -> string.
Variable merge : item -> upd -> item.
Variable create : upd -> item.

Definition t := list item.

Definition ids (ds : t) : list string := map key ds.

  (** [ds.get(id)]: the item, or [None] for [null]. *)
Definition get (ds : t) (id : string) : option item :=
    find (fun it => key it =? id) ds.

  (** [ds.get({filter})]. *)
Definition getFilter (ds : t) (f : item -> bool) : list item :=
    filter f ds.

  (** [ds.add(item)]: [None] when it throws. *)
Definition add (ds : t) (it : item) : option t :=
    match get ds (key it) with
    | Some _ => None
    | None => Some (ds ++ [it])%list
    end.

  (** [ds.update(u)]. *)
Definition update (ds : t) (u : upd) : t :=
    match get ds (ukey u) with
    | Some _ => map (fun it => if key it =? ukey u then merge it u else it) ds
    | None => (ds ++ [create u])%list
    end.

  (** [new vis.DataSet(items)]: every item is added in turn. *)
Definition make (items : list item) : option t :=
    fold_left (fun acc it => match acc with
                             | Some ds => add ds it
                             | None => None
                             end) items (Some []).
End Generic.
End DataSet.

Definition NodeSet := list VisNode.
Definition EdgeSet := list VisEdge.

Definition nodes_get : NodeSet -> string -> option VisNode := DataSet.get v_id.
Definition nodes_add : NodeSet -> VisNode -> option NodeSet := DataSet.add v_id.
Definition nodes_update : NodeSet -> NodeUpdate -> NodeSet :=
  DataSet.update v_id u_id mergeNode createNode.
Definition edges_get : EdgeSet -> string -> option VisEdge := DataSet.get e_id.
Definition edges_add : EdgeSet -> VisEdge -> option EdgeSet := DataSet.add e_id.
Definition edges_update : EdgeSet -> EdgeUpdate -> EdgeSet :=
  DataSet.update e_id eu_id mergeEdge createEdge.

(* ================================================================== *)
(** ** Page, network and module state *)
(* ================================================================== *)

Inductive ToastType := success | error | warning | info.

Record Toast := mkToast { t_message : string; t_type : ToastType }.

(** Content of the answer area. *)
Inductive Answer :=
| Placeholder
| Processing
| Rendered (markdown : string)
| ErrorText (message : string).

(** The [fetch] calls the dashboard issues. *)
Inductive Request :=
| ReqQuery (query : string) (max_depth : Z)
| ReqTraverse (node_id : string) (direction : string) (max_depth : Z)
| ReqSearch (query : string) (limit : Z)
| ReqNode (node_id : string).

(** The module-level variables of [app.js], the parts of the page the
    graph code writes, the log of requests issued and the pending
    debounce timer of the search box (its deadline in milliseconds). *)
Record State := mkState {
  network : bool;
  nodesDataset : option NodeSet;
  edgesDataset : option EdgeSet;
  allNodes : list NodeData;
  allEdges : list EdgeData;
  selectedNodeId : option string;
  highlightedNodes : IdSet;
  highlightedEdges : IdSet;
  toasts : list Toast;
  answerText : Answer;
  searchInput : string;
  searchResults : list NodeData;
  requests : list Request;
  searchTimer : option nat
}.

Definition initialState : State :=
  mkState false None None [] [] None [] [] [] Placeholder "" [] [] None.

Definition set_network (v : bool) (s : State) : State :=
  mkState v (nodesDataset s) (edgesDataset s) (allNodes s) (allEdges s)
    (selectedNodeId s) (highlightedNodes s) (highlightedEdges s) (toasts s)
    (answerText s) (searchInput s) (searchResults s) (requests s) (searchTimer s).

Definition set_nodesDataset (v : option NodeSet) (s : State) : State :=
  mkState (network s) v (edgesDataset s) (allNodes s) (allEdges s)
    (selectedNodeId s) (highlightedNodes s) (highlightedEdges s) (toasts s)
    (answerText s) (searchInput s) (searchResults s) (requests s) (searchTimer s).

Definition set_edgesDataset (v : option EdgeSet) (s : State) : State :=
  mkState (network s) (nodesDataset s) v (allNodes s) (allEdges s)
    (selectedNodeId s) (highlightedNodes s) (highlightedEdges s) (toasts s)
    (answerText s) (searchInput s) (searchResults s) (requests s) (searchTimer s).

Definition set_allNodes (v : list NodeData) (s : State) : State :=
  mkState (network s) (nodesDataset s) (edgesDataset s) v (allEdges s)
    (selectedNodeId s) (highlightedNodes s) (highlightedEdges s) (toasts s)
    (answerText s) (searchInput s) (searchResults s) (requests s) (searchTimer s).

Definition set_allEdges (v : list EdgeData) (s : State) : State :=
  mkState (network s) (nodesDataset s) (edgesDataset s) (allNodes s) v
    (selectedNodeId s) (highlightedNodes s) (highlightedEdges s) (toasts s)
    (answerText s) (searchInput s) (searchResults s) (requests s) (searchTimer s).

Definition set_selectedNodeId (v : option string) (s : State) : State :=
  mkState (network s) (nodesDataset s) (edgesDataset s) (allNodes s) (allEdges s)
    v (highlightedNodes s) (highlightedEdges s) (toasts s)
    (answerText s) (searchInput s) (searchResults s) (requests s) (searchTimer s).

Definition set_highlightedNodes (v : IdSet) (s : State) : State :=
  mkState (network s) (nodesDataset s) (edgesDataset s) (allNodes s) (allEdges s)
    (selectedNodeId s) v (highlightedEdges s) (toasts s)
    (answerText s) (searchInput s) (searchResults s) (requests s) (searchTimer s).

Definition set_highlightedEdges (v : IdSet) (s : State) : State :=
  mkState (network s) (nodesDataset s) (edgesDataset s) (allNodes s) (allEdges s)
    (selectedNodeId s) (highlightedNodes s) v (toasts s)
    (answerText s) (searchInput s) (searchResults s) (requests s) (searchTimer s).

Definition set_toasts (v : list Toast) (s : State) : State :=
  mkState (network s) (nodesDataset s) (edgesDataset s) (allNodes s) (allEdges s)
    (selectedNodeId s) (highlightedNodes s) (highlightedEdges s) v
    (answerText s) (searchInput s) (searchResults s) (requests s) (searchTimer s).

Definition set_answerText (v : Answer) (s : State) : State :=
  mkState (network s) (nodesDataset s) (edgesDataset s) (allNodes s) (allEdges s)
    (selectedNodeId s) (highlightedNodes s) (highlightedEdges s) (toasts s)
    v (searchInput s) (searchResults s) (requests s) (searchTimer s).

Definition set_searchInput (v : string) (s : State) : State :=
  mkState (network s) (nodesDataset s) (edgesDataset s) (allNodes s) (allEdges s)
    (selectedNodeId s) (highlightedNodes s) (highlightedEdges s) (toasts s)
    (answerText s) v (searchResults s) (requests s) (searchTimer s).

Definition set_searchResults (v : list NodeData) (s : State) : State :=
  mkState (network s) (nodesDataset s) (edgesDataset s) (allNodes s) (allEdges s)
    (selectedNodeId s) (highlightedNodes s) (highlightedEdges s) (toasts s)
    (answerText s) (searchInput s) v (requests s) (searchTimer s).

Definition set_requests (v : list Request) (s : State) : State :=
  mkState (network s) (nodesDataset s) (edgesDataset s) (allNodes s) (allEdges s)
    (selectedNodeId s) (highlightedNodes s) (highlightedEdges s) (toasts s)
    (answerText s) (searchInput s) (searchResults s) v (searchTimer s).

Definition set_searchTimer (v : option nat) (s : State) : State :=
  mkState (network s) (nodesDataset s) (edgesDataset s) (allNodes s) (allEdges s)
    (selectedNodeId s) (highlightedNodes s) (highlightedEdges s) (toasts s)
    (answerText s) (searchInput s) (searchResults s) (requests s) v.

(** [showToast(message, type)]. *)
Definition showToast (message : string) (type : ToastType) (s : State) : State :=
  set_toasts (toasts s ++ [mkToast message type])%list s.

(** [fetch(...)]: the call is appended to the log of requests. *)
Definition fetch (r : Request) (s : State) : State :=
  set_requests (requests s ++ [r])%list s.

(** A function of the dashboard either returns or throws; both leave a
    state behind.  The only exception the graph code can raise is the
    [TypeError] of a method call on a dataset that is [null]. *)
Inductive Outcome :=
| Done (s : State)
| Thrown (message : string) (s : State).

Definition NULL_DATASET : string := "Cannot read properties of null".

Definition andThen (o : Outcome) (f : State -> Outcome) : Outcome :=
  match o with
  | Done s => f s
  | Thrown m s => Thrown m s
  end.

Notation "o >>= f" := (andThen o f) (at level 50, left associativity).

(** [xs.forEach(x => f(x))] where [f] may throw. *)
Fixpoint forEach {A : Type} (xs : list A) (f : A -> State -> Outcome)
  (s : State) : Outcome :=
  match xs with
  | [] => Done s
  | x :: r => f x s >>= forEach r f
  end.


(* ================================================================== *)
(** ** Bulk load: [processGraphData] and [initializeNetwork] *)
(* ================================================================== *)

(** What [initializeNetwork] finds on the page: the canvas element, its
    dimensions, and the rendering library. *)
Record Env := mkEnv {
  canvas_found : bool;
  canvas_sized : bool;
  vis_loaded : bool
}.

Definition DEFAULT_FONT : Font := mkFont "#e4e6eb" 10%Z.
Definition HIGHLIGHT_FONT : Font := mkFont "#000" 14%Z.
Definition DEFAULT_EDGE_COLOR : string := "#30363d".

Fixpoint mapi_from {A B : Type} (f : A -> nat -> B) (i : nat) (l : list A)
  : list B :=
  match l with
  | [] => []
  | x :: r => f x i :: mapi_from f (S i) r
  end.

(** [xs.map((x, idx) => f(x, idx))]. *)
Definition mapi {A B : Type} (f : A -> nat -> B) (l : list A) : list B :=
  mapi_from f 0 l.

(** The renderer node [initializeNetwork] prepares for a domain node. *)
Definition initialNode (node : NodeData) : VisNode :=
  mkVisNode (n_id node)
    (Some (truncateLabel (strOr (n_label node) (Some (n_id node)))))
    (Some (getNodeColor node))
    (Some (orElse (NODE_SHAPES (n_type node)) "dot"))
    (Some (getNodeSize node))
    (Some DEFAULT_FONT)
    (n_tier node) (n_type node)
    (Some (getNodeColor node))
    (Some node)
    None.

(** The renderer edge [initializeNetwork] prepares: its identifier is
    derived from the position in the export. *)
Definition initialEdge (edge : EdgeData) (idx : nat) : VisEdge :=
  mkVisEdge ("edge-" ++ string_of_nat idx)
    (strOr (d_source edge) (d_from edge))
    (strOr (d_target edge) (d_to edge))
    (Some "to")
    (Some (mkEdgeColor DEFAULT_EDGE_COLOR (Some HIGHLIGHT_COLOR) 0.6%Q))
    (Some 1%Z)
    (d_type edge).

Definition DUPLICATE_ITEM : string := "Cannot add item: item already exists".

Definition initializeNetwork (env : Env) (s : State) : State :=
  if negb (canvas_found env) then s
  else if negb (canvas_sized env) then
    showToast "Graph canvas has no size. Check browser console." error s
  else if (List.length (allNodes s) =? 0)%nat then
    showToast "No graph nodes available" warning s
  else
    let nodes := map initialNode (allNodes s) in
    let edges := mapi initialEdge (allEdges s) in
    if negb (vis_loaded env) then
      showToast "Visualization library failed to load" error s
    else
      match DataSet.make v_id nodes with
      | None =>
          showToast ("Failed to initialize graph: " ++ DUPLICATE_ITEM) error s
      | Some nds =>
          let s1 := set_nodesDataset (Some nds) s in
          match DataSet.make e_id edges with
          | None =>
              showToast ("Failed to initialize graph: " ++ DUPLICATE_ITEM) error s1
          | Some eds =>
              set_network true (set_edgesDataset (Some eds) s1)
          end
      end.

(** The body of [GET /api/graph/export]. *)
Record GraphExport := mkGraphExport {
  x_nodes : option (list NodeData);
  x_edges : option (list EdgeData)
}.

Definition processGraphData (env : Env) (data : GraphExport) (s : State) : State :=
  let s1 := set_allNodes (orElse (x_nodes data) []) s in
  let s2 := set_allEdges (orElse (x_edges data) []) s1 in
  initializeNetwork env s2.

(* ================================================================== *)
(** ** Highlight engine *)
(* ================================================================== *)

(** The object [{}] that stands for the data of a node without any. *)
Definition emptyObject : NodeData := mkNodeData "" None None None.

(** The update [highlightNode] pushes to emphasise a node. *)
Definition highlightUpdate (nodeId : string) : NodeUpdate :=
  mkNodeUpdate nodeId (Some (Some HIGHLIGHT_COLOR)) (Some 25%Q)
    (Some HIGHLIGHT_FONT) None.

(** The update [highlightNode] pushes to return [node] to rest: the
    colour recorded when the item was built, and the size computed
    again from the data of the item. *)
Definition restoreUpdate (nodeId : string) (node : VisNode) : NodeUpdate :=
  mkNodeUpdate nodeId (Some (v_originalColor node))
    (Some (getNodeSize (orElse (v_data node) emptyObject)))
    (Some DEFAULT_FONT) None.

Definition highlightNode (nodeId : string) (isHighlighted : bool) (s : State)
  : Outcome :=
  if isHighlighted then
    let s1 := set_highlightedNodes (set_add nodeId (highlightedNodes s)) s in
    match nodesDataset s1 with
    | None => Thrown NULL_DATASET s1
    | Some ds =>
        Done (set_nodesDataset (Some (nodes_update ds (highlightUpdate nodeId))) s1)
    end
  else
    let s1 := set_highlightedNodes (set_delete nodeId (highlightedNodes s)) s in
    match nodesDataset s1 with
    | None => Thrown NULL_DATASET s1
    | Some ds =>
        match nodes_get ds nodeId with
        | Some node =>
            Done (set_nodesDataset
                    (Some (nodes_update ds (restoreUpdate nodeId node))) s1)
        | None => Done s1
        end
    end.

(** The update that returns an edge to its resting look. *)
Definition restingEdge (edgeId : string) : EdgeUpdate :=
  mkEdgeUpdate edgeId (mkEdgeColor DEFAULT_EDGE_COLOR None 0.6%Q) 1%Z.

(** The callback of the edge loop of [clearHighlights]:
    [edgesDataset?.update(...)]. *)
Definition resetEdge (edgeId : string) (s : State) : State :=
  match edgesDataset s with
  | Some ds => set_edgesDataset (Some (edges_update ds (restingEdge edgeId))) s
  | None => s
  end.

Definition clearHighlights (s : State) : Outcome :=
  forEach (highlightedNodes s) (fun nodeId => highlightNode nodeId false) s
  >>= fun s1 =>
  let s2 := set_highlightedNodes [] s1 in
  let s3 := fold_left (fun acc edgeId => resetEdge edgeId acc)
              (highlightedEdges s2) s2 in
  Done (set_highlightedEdges [] s3).

(** The renderer node [addNodeToGraph] builds. *)
Definition newNode (nodeData : NodeData) (highlight : bool) : VisNode :=
  mkVisNode (n_id nodeData)
    (Some (truncateLabel (strOr (n_label nodeData) (Some (n_id nodeData)))))
    (Some (if highlight then HIGHLIGHT_COLOR else getNodeColor nodeData))
    (Some (orElse (NODE_SHAPES (n_type nodeData)) "dot"))
    (Some (if highlight then 25%Q else getNodeSize nodeData))
    (Some (if highlight then HIGHLIGHT_FONT else DEFAULT_FONT))
    (n_tier nodeData) (n_type nodeData)
    (Some (getNodeColor nodeData))
    (Some nodeData)
    None.

Definition addNodeToGraph (nodeData : NodeData) (highlight : bool) (s : State)
  : Outcome :=
  match nodesDataset s with
  | None => Done s
  | Some ds =>
      match nodes_get ds (n_id nodeData) with
      | Some _ => Done s
      | None =>
          match nodes_add ds (newNode nodeData highlight) with
          | None => Thrown DUPLICATE_ITEM s
          | Some ds' =>
              let s1 := set_nodesDataset (Some ds') s in
              Done (if highlight
                    then set_highlightedNodes
                           (set_add (n_id nodeData) (highlightedNodes s1)) s1
                    else s1)
          end
      end
  end.

(** [nodesDataset?.get(id)]. *)
Definition lookupNode (s : State) (id : string) : option VisNode :=
  match nodesDataset s with
  | Some ds => nodes_get ds id
  | None => None
  end.

(* ================================================================== *)
(** ** Query result reconciliation: [highlightQueryPath] *)
(* ================================================================== *)

Record Debug := mkDebug {
  target_node : option NodeData;
  upstream_nodes : option (list NodeData);
  downstream_nodes : option (list NodeData)
}.

Record Source := mkSource { s_type : option string; s_value : option string }.

(** The body of [POST /api/query], as far as the graph code reads it. *)
Record QueryResult := mkQueryResult {
  answer : option string;
  context_debug : option Debug;
  sources : option (list Source)
}.

Definition nodesToHighlight (result : QueryResult) : list NodeData :=
  match context_debug result with
  | None => []
  | Some debug =>
      (match target_node debug with Some n => [n] | None => [] end)
      ++ orElse (upstream_nodes debug) []
      ++ orElse (downstream_nodes debug) []
  end%list.

(** The callback of the first loop: nodes without an identifier are
    passed over, known nodes highlighted, unknown ones added. *)
Definition highlightOrAdd (node : NodeData) (s : State) : Outcome :=
  if n_id node =? "" then Done s
  else
    match lookupNode s (n_id node) with
    | Some _ => highlightNode (n_id node) true s
    | None => addNodeToGraph node true s
    end.

(** [new Set(ids)]. *)
Definition idSetOf (l : list string) : IdSet :=
  fold_left (fun acc x => set_add x acc) l [].

Definition highlightedIdsOf (result : QueryResult) : IdSet :=
  idSetOf (filter (fun i => negb (i =? "")) (map n_id (nodesToHighlight result))).

Definition optHas (o : option string) (s : IdSet) : bool :=
  match o with Some x => set_has x s | None => false end.

Definition HIGHLIGHT_EDGE : EdgeColor := mkEdgeColor HIGHLIGHT_COLOR None 1%Q.

(** The callback of the edge loop. *)
Definition highlightEdgeBetween (highlightedIds : IdSet) (edge : VisEdge)
  (s : State) : Outcome :=
  let fromInSet := optHas (e_from edge) highlightedIds in
  let toInSet := optHas (e_to edge) highlightedIds in
  if fromInSet && toInSet then
    match edgesDataset s with
    | None => Thrown NULL_DATASET s
    | Some ds =>
        let s1 := set_edgesDataset
                    (Some (edges_update ds (mkEdgeUpdate (e_id edge) HIGHLIGHT_EDGE 3%Z))) s in
        Done (set_highlightedEdges (set_add (e_id edge) (highlightedEdges s1)) s1)
    end
  else Done s.

Definition labelMatches (label : string) (node : VisNode) : bool :=
  match v_label node with
  | Some l => toLowerCase l =? toLowerCase label
  | None => false
  end.

(** The callback of the path loop: every loaded node whose label is the
    path label, compared without case, is highlighted. *)
Definition highlightLabel (label : string) (s : State) : Outcome :=
  let nodes := match nodesDataset s with
               | Some ds => DataSet.getFilter ds (labelMatches label)
               | None => []
               end in
  forEach nodes (fun node => highlightNode (v_id node) true) s.

(** The labels of the literal path of a result, if it has one. *)
Definition pathLabels (result : QueryResult) : list string :=
  match sources result with
  | None => []
  | Some l =>
      match find (fun src => match s_type src with
                             | Some t => t =? "path"
                             | None => false
                             end) l with
      | Some pathSource =>
          if truthy (s_value pathSource)
          then split (orElse (s_value pathSource) "") ARROW_SEP
          else []
      | None => []
      end
  end.

Definition highlightQueryPath (result : QueryResult) (s : State) : Outcome :=
  clearHighlights s >>= fun s1 =>
  forEach (nodesToHighlight result) highlightOrAdd s1 >>= fun s2 =>
  (match edgesDataset s2 with
   | Some eds => forEach eds (highlightEdgeBetween (highlightedIdsOf result)) s2
   | None => Done s2
   end) >>= fun s3 =>
  forEach (pathLabels result) highlightLabel s3.

(* ================================================================== *)
(** ** Selection *)
(* ================================================================== *)

(** [selectNode]: the selection is recorded first; the details come from
    the dataset, or from the backend when the dataset has none. *)
Definition selectNode (nodeId : string) (s : State) : Outcome :=
  let s1 := set_selectedNodeId (Some nodeId) s in
  match nodesDataset s1 with
  | None => Thrown NULL_DATASET s1
  | Some ds =>
      match nodes_get ds nodeId with
      | Some (mkVisNode _ _ _ _ _ _ _ _ _ (Some _) _) => Done s1
      | _ => Done (fetch (ReqNode nodeId) s1)
      end
  end.



(* ================================================================== *)
(** ** Traversal display: [showTraversal] *)
(* ================================================================== *)

Inductive Direction := upstream | downstream.

Definition directionName (d : Direction) : string :=
  match d with upstream => "upstream" | downstream => "downstream" end.

(** The body of [POST /api/graph/traverse]. *)
Record TraversalResult := mkTraversalResult {
  tr_nodes : option (list NodeData);
  tr_edges : option (list EdgeData);
  tr_count : option nat
}.

(** [parseInt(input.value) || 3]: [None] is [NaN]. *)
Definition parseDepth (v : option Z) : Z :=
  match v with
  | None => 3%Z
  | Some 0%Z => 3%Z
  | Some d => d
  end.

(** [showTraversal] up to its [await]: without a selection it warns and
    returns, otherwise the traversal request is issued. *)
Definition showTraversal_start (direction : Direction) (depthInput : option Z)
  (s : State) : State :=
  if negb (truthy (selectedNodeId s)) then
    showToast "Please select a node first" warning s
  else
    fetch (ReqTraverse (orElse (selectedNodeId s) "") (directionName direction)
             (parseDepth depthInput)) s.

(** The callback of the node loop. *)
Definition highlightOrAddTraversal (node : NodeData) (s : State) : Outcome :=
  match lookupNode s (n_id node) with
  | Some _ => highlightNode (n_id node) true s
  | None => addNodeToGraph node true s
  end.

(** The identifier of a traversal edge. *)
Definition dynamicEdgeId (edge : EdgeData) : string :=
  "dynamic-edge-" ++ interp (d_source edge) ++ "-" ++ interp (d_target edge).

(** The callback of the edge loop: an edge is added under its
    identifier unless the dataset has that identifier, in which case the
    item is highlighted; the identifier joins the highlighted edges. *)
Definition addOrHighlightEdge (edge : EdgeData) (s : State) : Outcome :=
  let edgeId := dynamicEdgeId edge in
  (match edgesDataset s with
   | None => Done s
   | Some ds =>
       match edges_get ds edgeId with
       | None =>
           match edges_add ds
                   (mkVisEdge edgeId (d_source edge) (d_target edge) (Some "to")
                      (Some HIGHLIGHT_EDGE) (Some 3%Z) (d_type edge)) with
           | Some ds' => Done (set_edgesDataset (Some ds') s)
           | None => Thrown DUPLICATE_ITEM s
           end
       | Some _ =>
           Done (set_edgesDataset
                   (Some (edges_update ds (mkEdgeUpdate edgeId HIGHLIGHT_EDGE 3%Z))) s)
       end
   end) >>= fun s1 =>
  Done (set_highlightedEdges (set_add edgeId (highlightedEdges s1)) s1).

Definition foundMessage (result : TraversalResult) (direction : Direction)
  : string :=
  "Found " ++ match tr_count result with
              | Some c => string_of_nat c
              | None => "undefined"
              end ++ " " ++ directionName direction ++ " nodes".

(** What [showTraversal] does with a response holding nodes, for the
    node [selected] at that moment. *)
Definition displayTraversal (direction : Direction) (selected : string)
  (result : TraversalResult) (s : State) : Outcome :=
  clearHighlights s >>= fun s1 =>
  highlightNode selected true s1 >>= fun s2 =>
  forEach (orElse (tr_nodes result) []) highlightOrAddTraversal s2 >>= fun s3 =>
  forEach (orElse (tr_edges result) []) addOrHighlightEdge s3 >>= fun s4 =>
  Done (showToast (foundMessage result direction) success s4).

(** [showTraversal] after its [await]; [None] is the [null] that
    [fetchTraversal] returns on failure.  The selection is read again at
    this point.  The result is [None] when the selection was cleared
    while the request was in flight: the source then hands [null] to the
    highlight set and the dataset as an identifier, which the
    identifiers of this model do not cover.  The properties of
    traversal responses are stated for a response that finds a node
    selected, or for none. *)
Definition showTraversal_resume (direction : Direction)
  (response : option TraversalResult) (s : State) : option Outcome :=
  match response with
  | None => Some (Done s)
  | Some result =>
      match tr_nodes result with
      | None => Some (Done s)
      | Some _ =>
          match selectedNodeId s with
          | Some selected => Some (displayTraversal direction selected result s)
          | None => None
          end
      end
  end.

(* ================================================================== *)
(** ** Query execution: [executeQuery] *)
(* ================================================================== *)

(** The outcome of [response.json()]. *)
Inductive Body (A : Type) :=
| BadJson (message : string)
| Json (a : A).
Arguments BadJson {A} message.
Arguments Json {A} a.

(** What the [fetch] of a query resolves to: a rejection, a response
    whose [ok] is false with its [{detail}] body, or a successful one. *)
Inductive QueryResponse :=
| QNetworkFailure (message : string)
| QNotOk (body : Body (option string))
| QOk (body : Body QueryResult).

(** [executeQuery] up to its [await]. *)
Definition executeQuery_start (queryInput : string) (depthInput : option Z)
  (s : State) : State :=
  let query := trim queryInput in
  if query =? "" then showToast "Please enter a query" warning s
  else fetch (ReqQuery query (parseDepth depthInput)) (set_answerText Processing s).

(** [displayQueryResult] writes the answer panel only. *)
Definition displayQueryResult (result : QueryResult) (s : State) : State :=
  set_answerText
    (Rendered (orElse (strOr (answer result) (Some "No answer generated")) "")) s.

(** The [catch] block of [executeQuery]. *)
Definition queryFailed (message : string) (s : State) : State :=
  showToast ("Query failed: " ++ message) error
    (set_answerText (ErrorText message) s).

(** [executeQuery] after its [await]. *)
Definition executeQuery_resume (response : QueryResponse) (s : State) : State :=
  match response with
  | QNetworkFailure m => queryFailed m s
  | QNotOk (BadJson m) => queryFailed m s
  | QNotOk (Json detail) =>
      queryFailed (orElse (strOr detail (Some "Query failed")) "") s
  | QOk (BadJson m) => queryFailed m s
  | QOk (Json result) =>
      match highlightQueryPath result (displayQueryResult result s) with
      | Done s' => showToast "Query completed!" success s'
      | Thrown m s' => queryFailed m s'
      end
  end.

(* ================================================================== *)
(** ** Tier filter: [filterGraph] *)
(* ================================================================== *)

(** The update [filterGraph] pushes for one node. *)
Definition hiddenUpdate (enabledTiers : list Z) (node : VisNode) : NodeUpdate :=
  let tier := orElse (v_tier node) (-1)%Z in
  let visible := existsb (Z.eqb tier) enabledTiers in
  mkNodeUpdate (v_id node) None None None (Some (negb visible)).

(** [filterGraph], for the set of tiers whose boxes are ticked. *)
Definition filterGraph (enabledTiers : list Z) (s : State) : State :=
  match nodesDataset s with
  | None => s
  | Some ds =>
      set_nodesDataset
        (Some (fold_left (fun acc node => nodes_update acc (hiddenUpdate enabledTiers node))
                 ds ds)) s
  end.

(* ================================================================== *)
(** ** Search: [searchNodes] behind [debounce] *)
(* ================================================================== *)

Definition SEARCH_WAIT : nat := 300.

Inductive SearchResponse :=
| SFailed
| SOk (results : option (list NodeData)).

Definition displaySearchResults (results : list NodeData) (s : State) : State :=
  set_searchResults results s.

(** [searchNodes] up to its [await]. *)
Definition searchNodes_start (s : State) : State :=
  let query := toLowerCase (trim (searchInput s)) in
  if (String.length query <? 2)%nat then set_searchResults [] s
  else fetch (ReqSearch query 10%Z) s.

Definition localMatch (query : string) (node : VisNode) : bool :=
  match v_label node with
  | Some l => includes (toLowerCase l) query
  | None => false
  end || includes (toLowerCase (v_id node)) query.

(** [n.data || n]. *)
Definition dataOrSelf (n : VisNode) : NodeData :=
  match v_data n with
  | Some d => d
  | None => mkNodeData (v_id n) (v_label n) (v_type n) (v_tier n)
  end.

(** [searchNodes] after its [await], for the [query] it holds: the
    response is displayed, or the local matches when the call failed. *)
Definition searchNodes_resume (query : string) (response : SearchResponse)
  (s : State) : State :=
  match response with
  | SOk results => displaySearchResults (orElse results []) s
  | SFailed =>
      let localResults := match nodesDataset s with
                          | Some ds => DataSet.getFilter ds (localMatch query)
                          | None => []
                          end in
      displaySearchResults (map dataOrSelf (firstn 10 localResults)) s
  end.

(** [debounce(searchNodes, 300)]: a call of the returned function at
    time [now] clears the pending timer and sets a new one. *)
Definition executedFunction (now : nat) (s : State) : State :=
  set_searchTimer (Some (now + SEARCH_WAIT)) s.

(** A timer whose deadline has come runs [later]: [searchNodes] is
    called with the event, whose target holds the current text. *)
Definition fireTimers (now : nat) (s : State) : State :=
  match searchTimer s with
  | Some deadline =>
      if (deadline <=? now)%nat
      then searchNodes_start (set_searchTimer None s)
      else s
  | None => s
  end.

(** What reaches the search controller: an [input] event of the search
    box, carrying its new text, and the completion of the [k]-th request
    of the log. *)
Inductive Event :=
| KeyInput (text : string)
| SearchDone (k : nat) (response : SearchResponse).

(** One turn of the event loop at time [now]: timers that are due run
    before the event is handled. *)
Definition step (s : State) (te : nat * Event) : State :=
  let s1 := fireTimers (fst te) s in
  match snd te with
  | KeyInput text => executedFunction (fst te) (set_searchInput text s1)
  | SearchDone k response =>
      match nth_error (requests s1) k with
      | Some (ReqSearch query _) => searchNodes_resume query response s1
      | _ => s1
      end
  end.

(** The events in turn, then the timers due by time [final]. *)
Definition run (events : list (nat * Event)) (final : nat) (s : State) : State :=
  fireTimers final (fold_left step events s).

(* ================================================================== *)
(** ** Initial load: [loadGraphData] *)
(* ================================================================== *)



(* ================================================================== *)
(** ** Navigation from a search result: [searchAndFocusNode] *)
(* ================================================================== *)





(* ================================================================== *)
(** ** Vocabulary of the properties *)
(* ================================================================== *)

(** The size of a node that is not a concept, as a function of the tier
    read from it. *)
Definition fieldSize (tier : Z) : Q := (12 + Qmax 0 (4 - inject_Z tier) * 1.5)%Q.

(** A tier on which the double arithmetic of [getNodeSize] is exact: an
    integer of magnitude at most 2^50, so that [4 - tier], its product
    with 1.5 and the sum with 12 are all doubles. *)
Definition exactTier (tier : Z) : Prop := (- 2 ^ 50 <= tier <= 2 ^ 50)%Z.

(** A renderer node whose label is ASCII text; one whose identifier is
    too; a backend node whose identifier and label are. *)
Definition asciiLabel (n : VisNode) : bool := asciiOpt (v_label n).

Definition asciiItem (n : VisNode) : bool :=
  asciiText (v_id n) && asciiOpt (v_label n).

Definition asciiNode (n : NodeData) : bool :=
  asciiText (n_id n) && asciiOpt (n_label n).

(** The graph data and the highlight state: what a failed query or a
    refused traversal must leave as it was. *)
Definition sameGraph (s s' : State) : Prop :=
  nodesDataset s' = nodesDataset s /\
  edgesDataset s' = edgesDataset s /\
  allNodes s' = allNodes s /\
  allEdges s' = allEdges s /\
  selectedNodeId s' = selectedNodeId s /\
  highlightedNodes s' = highlightedNodes s /\
  highlightedEdges s' = highlightedEdges s.

(** A burst of keystrokes: every one arrives before the timer set by
    the one before it is due. *)
Fixpoint burst (t : nat) (keys : list (nat * string)) : Prop :=
  match keys with
  | [] => True
  | (t', _) :: r => (t <= t' < t + SEARCH_WAIT)%nat /\ burst t' r
  end.

Definition keyEvents (keys : list (nat * string)) : list (nat * Event) :=
  map (fun k => (fst k, KeyInput (snd k))) keys.

(** No timer is pending at time [t], or one that is not due yet. *)
Definition timerQuiet (t : nat) (s : State) : Prop :=
  match searchTimer s with
  | Some deadline => (t < deadline)%nat
  | None => True
  end.

(** The state after a keystroke at [t] that leaves [text] in the box. *)
Definition typed (t : nat) (text : string) (s : State) : State :=
  executedFunction t (set_searchInput text s).

(** The tier [filterGraph] reads from a renderer node, and whether its
    box is ticked. *)
Definition filterTier (n : VisNode) : Z := orElse (v_tier n) (-1)%Z.

Definition tierEnabled (enabledTiers : list Z) (n : VisNode) : bool :=
  existsb (Z.eqb (filterTier n)) enabledTiers.

(** Two renderer nodes that differ at most in their [hidden] flag. *)
Definition sameButHidden (n n' : VisNode) : Prop :=
  v_id n' = v_id n /\ v_label n' = v_label n /\ v_color n' = v_color n /\
  v_shape n' = v_shape n /\ v_size n' = v_size n /\ v_font n' = v_font n /\
  v_tier n' = v_tier n /\ v_type n' = v_type n /\
  v_originalColor n' = v_originalColor n /\ v_data n' = v_data n.

(** Every identifier of a dataset is held once. *)
Definition uniqueIds (ds : NodeSet) : Prop := NoDup (map v_id ds).

(** What an update of colour, size or font never changes in a node. *)
Definition skeleton (n : VisNode)
  : string * option string * option string * option NodeData :=
  (v_id n, v_label n, v_originalColor n, v_data n).

(** A node at rest: drawn in the colour recorded when it was built and
    at the size computed from its data. *)
Definition atBaseline (n : VisNode) : Prop :=
  v_color n = v_originalColor n /\
  v_size n = Some (getNodeSize (orElse (v_data n) emptyObject)).

(** Every node that is not highlighted is at rest. *)
Definition Baseline (s : State) : Prop :=
  forall id it,
    lookupNode s id = Some it -> ~ In id (highlightedNodes s) -> atBaseline it.

(** The store after some operation: identifiers stay single, and
    every node it held is still there with its label, recorded colour
    and canonical data. *)
Definition grows (ds ds' : NodeSet) : Prop :=
  (uniqueIds ds -> uniqueIds ds') /\
  forall id it,
    nodes_get ds id = Some it ->
    exists it', nodes_get ds' id = Some it' /\ skeleton it' = skeleton it.

(** A node that a query result names: its target node, one of its
    upstream nodes or one of its downstream nodes. *)
Definition queryNode (result : QueryResult) (n : NodeData) : Prop :=
  exists debug,
    context_debug result = Some debug /\
    (target_node debug = Some n \/
     (exists l, upstream_nodes debug = Some l /\ In n l) \/
     (exists l, downstream_nodes debug = Some l /\ In n l)).

(** What an update of colour or width never changes in an edge. *)
Definition edgeSkeleton (e : VisEdge) : string * option string * option string :=
  (e_id e, e_from e, e_to e).

(** An edge both of whose ends are among [ids]. *)
Definition between (ids : IdSet) (e : VisEdge) : bool :=
  optHas (e_from e) ids && optHas (e_to e) ids.

(** The edge dataset after the edges [ids] were returned to rest. *)
Definition resetEdges (ids : list string) (o : option EdgeSet) : option EdgeSet :=
  option_map (fun eds => fold_left (fun acc id => edges_update acc (restingEdge id))
                           ids eds) o.

(** The identifiers of the loaded nodes whose label is [label], compared
    without case. *)
Definition matchIds (ds : NodeSet) (label : string) : list string :=
  map v_id (filter (labelMatches label) ds).

(** Insertion of a list of identifiers into a set, in order. *)
Definition addAll (l : list string) (acc : IdSet) : IdSet :=
  fold_left (fun a x => set_add x a) l acc.





(** The colours a node can be drawn in at rest. *)
Definition PALETTE : list string :=
  ["#9333ea"; "#22c55e"; "#3b82f6"; "#f59e0b"; "#ef4444"; "#ec4899"; "#06b6d4"].

Definition CONCEPT_COLOR : string := "#06b6d4".

(** A page on which the network can be drawn. *)
Definition pageReady (env : Env) : Prop :=
  canvas_found env = true /\ canvas_sized env = true /\ vis_loaded env = true.

(** Slow typing: every keystroke arrives when the timer set by the one
    before it is due or has run. *)
Fixpoint spaced (t : nat) (keys : list (nat * string)) : Prop :=
  match keys with
  | [] => True
  | (t', _) :: r => (t + SEARCH_WAIT <= t')%nat /\ spaced t' r
  end.

(** The request a call of [searchNodes] issues for a text, if any. *)
Definition searchRequest (text : string) : list Request :=
  if (String.length (toLowerCase (trim text)) <? 2)%nat then []
  else [ReqSearch (toLowerCase (trim text)) 10%Z].

(** A text made of white space only. *)
Fixpoint blank (s : string) : bool :=
  match s with
  | EmptyString => true
  | String c r => isSpace c && blank r
  end.

(** Everything in the state that is not a dataset or a highlight set. *)
Definition samePage (s s' : State) : Prop :=
  network s' = network s /\
  allNodes s' = allNodes s /\
  allEdges s' = allEdges s /\
  selectedNodeId s' = selectedNodeId s /\
  toasts s' = toasts s /\
  answerText s' = answerText s /\
  searchInput s' = searchInput s /\
  searchResults s' = searchResults s /\
  requests s' = requests s /\
  searchTimer s' = searchTimer s.


(* ================================================================== *)
(** * Properties *)
(* ================================================================== *)

(** ** Baseline size *)

Section NodeSize.

Lemma getNodeSize_concept (n : NodeData) :
    n_type n = Some "CONCEPT" -> getNodeSize n = 18%Q.
  Proof. intros H. unfold getNodeSize. now rewrite H. Qed.

Lemma getNodeSize_field (n : NodeData) :
    n_type n = Some "FIELD" -> getNodeSize n = fieldSize (orElse (n_tier n) 1%Z).
  Proof. intros H. unfold getNodeSize. now rewrite H. Qed.

Lemma inject_Z_le (t u : Z) : (t <= u)%Z -> (inject_Z t <= inject_Z u)%Q.
  Proof. intros H. now rewrite <- Zle_Qle. Qed.

Lemma inject_Z_lt (t u : Z) : (t < u)%Z -> (inject_Z t < inject_Z u)%Q.
  Proof. intros H. now rewrite <- Zlt_Qlt. Qed.

Lemma fieldSize_low (t : Z) :
    (t <= 4)%Z -> (fieldSize t == 12 + (4 - inject_Z t) * 1.5)%Q.
  Proof.
    intros H. unfold fieldSize.
    assert (Hq : (0 <= 4 - inject_Z t)%Q).
    { apply inject_Z_le in H. change (inject_Z 4) with 4%Q in H. lra. }
    rewrite (Q.max_r _ _ Hq). reflexivity.
  Qed.

Lemma fieldSize_high (t : Z) : (4 <= t)%Z -> (fieldSize t == 12)%Q.
  Proof.
    intros H. unfold fieldSize.
    assert (Hq : (4 - inject_Z t <= 0)%Q).
    { apply inject_Z_le in H. change (inject_Z 4) with 4%Q in H. lra. }
    rewrite (Q.max_l _ _ Hq). lra.
  Qed.

Lemma fieldSize_floor (t : Z) : (12 <= fieldSize t)%Q.
  Proof.
    destruct (Z_le_gt_dec t 4) as [H | H].
    - rewrite (fieldSize_low t H).
      apply inject_Z_le in H. change (inject_Z 4) with 4%Q in H. lra.
    - rewrite (fieldSize_high t); [lra | lia].
  Qed.

Lemma fieldSize_antitone (t u : Z) :
    (t <= u)%Z -> (fieldSize u <= fieldSize t)%Q.
  Proof.
    intros H.
    destruct (Z_le_gt_dec u 4) as [Hu | Hu].
    - rewrite (fieldSize_low u Hu), (fieldSize_low t) by lia.
      apply inject_Z_le in H. lra.
    - rewrite (fieldSize_high u) by lia. apply fieldSize_floor.
  Qed.

Lemma fieldSize_strict (t u : Z) :
    (t < u)%Z -> (t < 4)%Z -> (fieldSize u < fieldSize t)%Q.
  Proof.
    intros H Ht.
    rewrite (fieldSize_low t) by lia.
    destruct (Z_le_gt_dec u 4) as [Hu | Hu].
    - rewrite (fieldSize_low u Hu).
      apply inject_Z_lt in H. lra.
    - rewrite (fieldSize_high u) by lia.
      apply inject_Z_lt in Ht. change (inject_Z 4) with 4%Q in Ht. lra.
  Qed.

End NodeSize.

(** C9, as stated, fails: a field of tier 0 is drawn with size 18, the
    size of a concept, so the concept is not the larger of the two. *)
Lemma concept_not_larger_than_tier0_field :
  let concept := mkNodeData "c" None (Some "CONCEPT") None in
  let field := mkNodeData "f" None (Some "FIELD") (Some 0%Z) in
  ~ (getNodeSize field < getNodeSize concept)%Q /\
  (getNodeSize field == getNodeSize concept)%Q.
Proof.
  cbv zeta. split.
  - vm_compute. discriminate.
  - vm_compute. reflexivity.
Qed.

(** C9 (amended): the baseline size of a concept is 18.  A field of
    tier 0 has the same size; a field whose tier is 1 or more, or
    absent, is strictly smaller than a concept, and a field of negative
    tier strictly larger.  Among fields the size does not grow with the
    tier, falls strictly below tier 4, and never goes under the floor
    of 12, which is reached exactly from tier 4 on.  The tiers are
    those on which the arithmetic of the code is exact. *)
Theorem getNodeSize_by_category_and_tier (c f g : NodeData) :
  n_type c = Some "CONCEPT" ->
  n_type f = Some "FIELD" ->
  n_type g = Some "FIELD" ->
  let tf := orElse (n_tier f) 1%Z in
  let tg := orElse (n_tier g) 1%Z in
  exactTier tf ->
  exactTier tg ->
  getNodeSize c = 18%Q /\
  (tf = 0%Z -> (getNodeSize f == getNodeSize c)%Q) /\
  ((0 <= tf)%Z -> (getNodeSize f <= getNodeSize c)%Q) /\
  ((1 <= tf)%Z -> (getNodeSize f < getNodeSize c)%Q) /\
  (n_tier f = None -> (getNodeSize f < getNodeSize c)%Q) /\
  ((tf < 0)%Z -> (getNodeSize c < getNodeSize f)%Q) /\
  ((tf <= tg)%Z -> (getNodeSize g <= getNodeSize f)%Q) /\
  ((tf < tg)%Z -> (tf < 4)%Z -> (getNodeSize g < getNodeSize f)%Q) /\
  (12 <= getNodeSize f)%Q /\
  ((4 <= tf)%Z -> (getNodeSize f == 12)%Q) /\
  ((tf < 4)%Z -> (12 < getNodeSize f)%Q).
Proof.
  intros Hc Hf Hg tf tg _ _.
  rewrite (getNodeSize_concept c Hc), (getNodeSize_field f Hf),
    (getNodeSize_field g Hg).
  fold tf. fold tg.
  split; [reflexivity |].
  split; [intros ->; vm_compute; reflexivity |].
  split.
  { intros H. apply Qle_trans with (fieldSize 0).
    - now apply fieldSize_antitone.
    - vm_compute. discriminate. }
  split.
  { intros H. apply Qle_lt_trans with (fieldSize 1).
    - now apply fieldSize_antitone.
    - vm_compute. reflexivity. }
  split.
  { intros H. unfold tf. rewrite H. vm_compute. reflexivity. }
  split.
  { intros H. apply Qlt_le_trans with (fieldSize (-1)).
    - vm_compute. reflexivity.
    - apply fieldSize_antitone. lia. }
  split; [apply fieldSize_antitone |].
  split; [apply fieldSize_strict |].
  split; [apply fieldSize_floor |].
  split; [apply fieldSize_high |].
  intros H. rewrite (fieldSize_low tf) by lia.
  apply inject_Z_lt in H. change (inject_Z 4) with 4%Q in H. lra.
Qed.

Lemma getNodeSize_by_category_and_tier_witness :
  let c := mkNodeData "c" None (Some "CONCEPT") None in
  let f := mkNodeData "f" None (Some "FIELD") (Some 2%Z) in
  let g := mkNodeData "g" None (Some "FIELD") (Some 5%Z) in
  getNodeSize c = 18%Q /\
  (getNodeSize f < getNodeSize c)%Q /\ (getNodeSize g < getNodeSize f)%Q.
Proof.
  cbv zeta.
  pose proof (getNodeSize_by_category_and_tier
                (mkNodeData "c" None (Some "CONCEPT") None)
                (mkNodeData "f" None (Some "FIELD") (Some 2%Z))
                (mkNodeData "g" None (Some "FIELD") (Some 5%Z))
                eq_refl eq_refl eq_refl) as H.
  cbv zeta in H. simpl orElse in H.
  destruct H as (H0 & _ & _ & H1 & _ & _ & _ & H2 & _).
  - split; vm_compute; discriminate.
  - split; vm_compute; discriminate.
  - split; [exact H0 |]. split; [apply H1 | apply H2]; lia.
Defined.

(** ** Failed queries and refused traversals *)

Lemma queryFailed_spec (m : string) (s : State) :
  sameGraph s (queryFailed m s) /\
  toasts (queryFailed m s) = (toasts s ++ [mkToast ("Query failed: " ++ m) error])%list /\
  answerText (queryFailed m s) = ErrorText m.
Proof. repeat split. Qed.

(** C5: a query whose call is rejected by the network, or answered with
    a status that is not a success, ends in an error notification and
    an error text in the answer area, and leaves the datasets, the
    loaded collections, the selection and both highlight sets as they
    were; so does the part of the query that runs before the call. *)
Theorem executeQuery_failure_leaves_graph (s : State) :
  (forall queryInput depthInput,
      sameGraph s (executeQuery_start queryInput depthInput s)) /\
  (forall m,
      sameGraph s (executeQuery_resume (QNetworkFailure m) s) /\
      toasts (executeQuery_resume (QNetworkFailure m) s)
      = (toasts s ++ [mkToast ("Query failed: " ++ m) error])%list) /\
  (forall body,
      sameGraph s (executeQuery_resume (QNotOk body) s) /\
      exists m,
        toasts (executeQuery_resume (QNotOk body) s)
        = (toasts s ++ [mkToast ("Query failed: " ++ m) error])%list /\
        answerText (executeQuery_resume (QNotOk body) s) = ErrorText m /\
        (forall detail, body = Json (Some detail) -> detail <> "" -> m = detail) /\
        (body = Json None -> m = "Query failed")).
Proof.
  split; [| split].
  - intros q d. unfold executeQuery_start.
    destruct (trim q =? ""); repeat split.
  - intros m. simpl. split; [apply queryFailed_spec | reflexivity].
  - intros [m | detail]; simpl.
    + split; [apply queryFailed_spec |].
      exists m. repeat split; intros; discriminate.
    + split; [apply queryFailed_spec |].
      eexists. split; [reflexivity |]. split; [reflexivity |]. split.
      * intros d Hd Hne. injection Hd as ->. unfold strOr. simpl.
        destruct (d =? "") eqn:E; [apply String.eqb_eq in E; contradiction |].
        reflexivity.
      * intros Hd. injection Hd as ->. reflexivity.
Qed.

Lemma executeQuery_failure_leaves_graph_witness :
  let s := set_highlightedNodes ["A"] (executeQuery_start "why?" None initialState) in
  let s' := executeQuery_resume (QNotOk (Json (Some "Graph not loaded"))) s in
  highlightedNodes s' = ["A"] /\
  nodesDataset s' = nodesDataset s /\
  toasts s' = [mkToast "Query failed: Graph not loaded" error].
Proof.
  cbv zeta.
  destruct (executeQuery_failure_leaves_graph
              (set_highlightedNodes ["A"]
                 (executeQuery_start "why?" None initialState)))
    as (_ & _ & H).
  destruct (H (Json (Some "Graph not loaded")))
    as ((Hn & _ & _ & _ & _ & Hh & _) & m & Ht & _ & Hm & _).
  split; [exact Hh |]. split; [exact Hn |].
  rewrite Ht, (Hm "Graph not loaded" eq_refl); [reflexivity | discriminate].
Defined.

(** C10: without a selection, asking for a traversal issues no request
    and leaves the datasets and both highlight sets as they were; the
    only effect is the warning. *)
Theorem showTraversal_without_selection (direction : Direction)
  (depthInput : option Z) (s : State) :
  selectedNodeId s = None ->
  requests (showTraversal_start direction depthInput s) = requests s /\
  sameGraph s (showTraversal_start direction depthInput s) /\
  toasts (showTraversal_start direction depthInput s)
  = (toasts s ++ [mkToast "Please select a node first" warning])%list.
Proof.
  intros H. unfold showTraversal_start. rewrite H. simpl.
  repeat split.
Qed.

Lemma showTraversal_without_selection_witness :
  selectedNodeId initialState = None /\
  requests (showTraversal_start upstream None initialState) = [] /\
  toasts (showTraversal_start upstream None initialState)
  = [mkToast "Please select a node first" warning].
Proof.
  split; [reflexivity |].
  destruct (showTraversal_without_selection upstream None initialState eq_refl)
    as (Hr & _ & Ht).
  split; [exact Hr | exact Ht].
Defined.

(** ** Search: minimum length, debounce, and order of completions *)

Section Strings.

Lemma toLowerCase_length (s : string) :
    String.length (toLowerCase s) = String.length s.
  Proof. induction s as [| c r IH]; simpl; congruence. Qed.

Lemma trimStart_length (s : string) :
    (String.length (trimStart s) <= String.length s)%nat.
  Proof.
    induction s as [| c r IH]; simpl; [lia |].
    destruct (isSpace c); simpl; lia.
  Qed.

Lemma trimEnd_length (s : string) :
    (String.length (trimEnd s) <= String.length s)%nat.
  Proof.
    induction s as [| c r IH]; simpl; [lia |].
    destruct (trimEnd r) as [| c' r'] eqn:E.
    - destruct (isSpace c); simpl; lia.
    - simpl in *. lia.
  Qed.

Lemma trim_length (s : string) :
    (String.length (trim s) <= String.length s)%nat.
  Proof.
    unfold trim.
    pose proof (trimEnd_length (trimStart s)).
    pose proof (trimStart_length s). lia.
  Qed.

End Strings.

Section Search.

Lemma searchNodes_start_short (s : State) :
    (String.length (trim (searchInput s)) < 2)%nat ->
    searchNodes_start s = set_searchResults [] s.
  Proof.
    intros H. unfold searchNodes_start.
    rewrite toLowerCase_length.
    now apply Nat.ltb_lt in H as ->.
  Qed.

Lemma searchNodes_start_long (s : State) :
    (2 <= String.length (trim (searchInput s)))%nat ->
    searchNodes_start s
    = fetch (ReqSearch (toLowerCase (trim (searchInput s))) 10) s.
  Proof.
    intros H. unfold searchNodes_start.
    rewrite toLowerCase_length.
    now apply Nat.ltb_ge in H as ->.
  Qed.

  (** A call of [searchNodes] issues at most the one request. *)
Lemma searchNodes_start_requests (s : State) :
    requests (searchNodes_start s)
    = (requests s
       ++ if (String.length (trim (searchInput s)) <? 2)%nat then []
          else [ReqSearch (toLowerCase (trim (searchInput s))) 10%Z])%list.
  Proof.
    destruct (String.length (trim (searchInput s)) <? 2)%nat eqn:E.
    - apply Nat.ltb_lt in E. rewrite searchNodes_start_short by exact E.
      simpl. now rewrite app_nil_r.
    - apply Nat.ltb_ge in E. now rewrite searchNodes_start_long by exact E.
  Qed.

Lemma fireTimers_quiet (t : nat) (s : State) :
    timerQuiet t s -> fireTimers t s = s.
  Proof.
    unfold timerQuiet, fireTimers. destruct (searchTimer s) as [d |]; [| easy].
    intros H. now apply Nat.leb_gt in H as ->.
  Qed.

Lemma fireTimers_requests (t : nat) (s : State) :
    exists more, requests (fireTimers t s) = (requests s ++ more)%list.
  Proof.
    unfold fireTimers. destruct (searchTimer s) as [d |].
    - destruct (d <=? t)%nat.
      + rewrite searchNodes_start_requests. simpl. eauto.
      + exists []. now rewrite app_nil_r.
    - exists []. now rewrite app_nil_r.
  Qed.

Lemma step_key_quiet (t : nat) (text : string) (s : State) :
    timerQuiet t s -> step s (t, KeyInput text) = typed t text s.
  Proof. intros H. unfold step. simpl. now rewrite fireTimers_quiet. Qed.

Lemma last_cons_default {A : Type} (a d : A) (l : list A) :
    last (a :: l) d = last l a.
  Proof.
    revert a d. induction l as [| b l IH]; intros a d; [reflexivity |].
    change (last (a :: b :: l) d) with (last (b :: l) d).
    rewrite (IH b d). symmetry. apply IH.
  Qed.

  (** Within a burst every keystroke cancels the timer of the one
      before: only the last one leaves a timer behind. *)
Lemma fold_burst (keys : list (nat * string)) :
    forall t text s,
      burst t keys ->
      fold_left step (keyEvents keys) (typed t text s)
      = typed (fst (last keys (t, text))) (snd (last keys (t, text))) s.
  Proof.
    induction keys as [| [t' x] r IH]; intros t text s Hb; [reflexivity |].
    destruct Hb as [Ht Hb]. simpl fold_left.
    rewrite step_key_quiet.
    - change (typed t' x (typed t text s)) with (typed t' x s).
      rewrite (IH t' x s Hb). now rewrite last_cons_default.
    - unfold timerQuiet. simpl. lia.
  Qed.

Lemma run_burst (t : nat) (text : string) (keys : list (nat * string))
    (final : nat) (s : State) :
    burst t keys ->
    timerQuiet t s ->
    (fst (last keys (t, text)) + SEARCH_WAIT <= final)%nat ->
    run (keyEvents ((t, text) :: keys)) final s
    = searchNodes_start
        (set_searchTimer None
           (typed (fst (last keys (t, text))) (snd (last keys (t, text))) s)).
  Proof.
    intros Hb Hq Hf. unfold run. simpl fold_left.
    rewrite step_key_quiet by exact Hq.
    rewrite fold_burst by exact Hb.
    unfold fireTimers.
    change (searchTimer (typed (fst (last keys (t, text)))
                           (snd (last keys (t, text))) s))
      with (Some (fst (last keys (t, text)) + SEARCH_WAIT)%nat).
    cbv beta iota.
    now apply Nat.leb_le in Hf as ->.
  Qed.

End Search.

(** C7, as stated, fails: ten keystrokes within the window that leave
    ["a"] followed by nine spaces in the box, an input of ten
    characters, produce no call at all, because the length that is
    tested is that of the trimmed text. *)
Lemma padded_burst_issues_no_call :
  let keys := [(0, "a"); (10, "a "); (20, "a  "); (30, "a   ");
               (40, "a    "); (50, "a     "); (60, "a      ");
               (70, "a       "); (80, "a        "); (90, "a         ")]%nat in
  List.length keys = 10%nat /\
  String.length (snd (last keys (0%nat, ""))) = 10%nat /\
  requests (run (keyEvents keys) 1000 initialState) = [].
Proof. cbv zeta. repeat split. Qed.

(** C7 (amended), for ASCII text: when the text of the search box,
    trimmed, has fewer than 2 characters (so whenever the text itself
    has), a call of [searchNodes] clears the results and issues no
    request.  Keystrokes that each arrive less than 300 ms after the
    one before make one call of [searchNodes], once 300 ms have passed
    after the last: it issues exactly one request, for the trimmed text
    in lower case, when that has 2 characters or more, and none
    otherwise. *)
Theorem search_min_length_and_debounce (s : State) :
  (asciiText (searchInput s) = true ->
   ((String.length (trim (searchInput s)) < 2)%nat ->
    searchResults (searchNodes_start s) = [] /\
    requests (searchNodes_start s) = requests s) /\
   ((String.length (searchInput s) < 2)%nat ->
    searchResults (searchNodes_start s) = [] /\
    requests (searchNodes_start s) = requests s)) /\
  (forall t text keys final,
      burst t keys ->
      timerQuiet t s ->
      (fst (last keys (t, text)) + SEARCH_WAIT <= final)%nat ->
      asciiText (snd (last keys (t, text))) = true ->
      let query := toLowerCase (trim (snd (last keys (t, text)))) in
      let s' := run (keyEvents ((t, text) :: keys)) final s in
      ((2 <= String.length query)%nat ->
       requests s' = (requests s ++ [ReqSearch query 10%Z])%list) /\
      ((String.length query < 2)%nat ->
       requests s' = requests s /\ searchResults s' = []) /\
      searchTimer s' = None).
Proof.
  assert (Hshort : (String.length (trim (searchInput s)) < 2)%nat ->
                   searchResults (searchNodes_start s) = [] /\
                   requests (searchNodes_start s) = requests s).
  { intros H. rewrite searchNodes_start_short by exact H. now split. }
  split; [intros _; split; [exact Hshort |] |].
  - intros H. apply Hshort. pose proof (trim_length (searchInput s)). lia.
  - intros t text keys final Hb Hq Hf _ query s'.
    unfold s'. rewrite (run_burst t text keys final s Hb Hq Hf).
    set (tl := fst (last keys (t, text))).
    set (xl := snd (last keys (t, text))).
    assert (Hin : searchInput (set_searchTimer None (typed tl xl s)) = xl)
      by reflexivity.
    unfold query. fold xl. rewrite toLowerCase_length.
    repeat split.
    + intros H. rewrite searchNodes_start_long by (rewrite Hin; exact H).
      now rewrite Hin.
    + rewrite searchNodes_start_short by (rewrite Hin; exact H). reflexivity.
    + rewrite searchNodes_start_short by (rewrite Hin; exact H). reflexivity.
    + unfold searchNodes_start.
      destruct (String.length _ <? 2)%nat; reflexivity.
Qed.

Lemma search_min_length_and_debounce_witness :
  let keys := [(30, "lv"); (60, "lvr"); (90, "LVR "); (120, "lvr r");
               (150, "lvr ra"); (180, "lvr rat"); (210, "lvr rati");
               (240, "lvr ratio"); (270, " LVR Ratio ")]%nat in
  requests (run (keyEvents ((0%nat, "l") :: keys)) 570 initialState)
  = [ReqSearch "lvr ratio" 10%Z] /\
  requests (searchNodes_start (set_searchInput " a " initialState)) = [].
Proof.
  cbv zeta.
  pose proof (search_min_length_and_debounce initialState) as (_ & H).
  specialize (H 0%nat "l"
                [(30, "lv"); (60, "lvr"); (90, "LVR "); (120, "lvr r");
                 (150, "lvr ra"); (180, "lvr rat"); (210, "lvr rati");
                 (240, "lvr ratio"); (270, " LVR Ratio ")]%nat 570%nat).
  cbv zeta in H.
  destruct H as (H & _).
  - simpl. unfold SEARCH_WAIT. lia.
  - exact I.
  - simpl. unfold SEARCH_WAIT. lia.
  - reflexivity.
  - split; [apply H; vm_compute; lia |].
    pose proof (search_min_length_and_debounce
                  (set_searchInput " a " initialState)) as (H1 & _).
    destruct (H1 eq_refl) as [H2 _].
    destruct H2 as [_ H2]; [vm_compute; lia | exact H2].
Defined.

(** C1, as stated, fails: the search for ["lv"] is issued before the
    one for ["lvr"] and answered after it, and the list on display ends
    up holding the answer for ["lv"] while the box reads ["lvr"]. *)
Lemma stale_search_response_overwrites :
  let lv := mkNodeData "lv_old" None None None in
  let lvr := mkNodeData "lvr" None None None in
  let s := run [(0, KeyInput "lv"); (400, KeyInput "lvr");
                (800, SearchDone 1 (SOk (Some [lvr])));
                (900, SearchDone 0 (SOk (Some [lv])))]%nat 1000 initialState in
  requests s = [ReqSearch "lv" 10%Z; ReqSearch "lvr" 10%Z] /\
  searchInput s = "lvr" /\
  searchResults s = [lv] /\
  searchResults s <> [lvr].
Proof. cbv zeta. repeat split. discriminate. Qed.

Lemma step_requests (s : State) (te : nat * Event) :
  exists more, requests (step s te) = (requests s ++ more)%list.
Proof.
  destruct te as [now ev]. unfold step. cbn [fst snd].
  destruct (fireTimers_requests now s) as [more Hm].
  destruct ev as [text | k response].
  - exists more. exact Hm.
  - destruct (nth_error (requests (fireTimers now s)) k) as [[| | q l |] |];
      try (exists more; exact Hm).
    exists more. destruct response; exact Hm.
Qed.

Lemma nth_error_step (s : State) (te : nat * Event) (k : nat) (r : Request) :
  nth_error (requests s) k = Some r -> nth_error (requests (step s te)) k = Some r.
Proof.
  intros H. destruct (step_requests s te) as [more ->].
  rewrite nth_error_app1; [exact H |]. apply nth_error_Some. congruence.
Qed.

Lemma step_SearchDone (s : State) (now k : nat) (query : string) (limit : Z)
  (results : option (list NodeData)) :
  nth_error (requests s) k = Some (ReqSearch query limit) ->
  searchResults (step s (now, SearchDone k (SOk results))) = orElse results [].
Proof.
  intros H. unfold step. cbn [fst snd].
  destruct (fireTimers_requests now s) as [more Hm].
  assert (Hk : nth_error (requests (fireTimers now s)) k
               = Some (ReqSearch query limit)).
  { rewrite Hm. rewrite nth_error_app1; [exact H |].
    apply nth_error_Some. congruence. }
  rewrite Hk. reflexivity.
Qed.

(** C1 (amended): the list on display is that of the response that
    arrived last.  The completion of any search request that was
    issued replaces the list by its own results; so when, of two
    requests [k1] and [k2], whichever was issued first, the response to
    [k1] arrives after the response to [k2], the list ends up holding
    the results of [k1].  No sequence number is kept or compared. *)
Theorem search_last_arrival_wins (s : State) (k1 k2 t1 t2 : nat)
  (q1 q2 : string) (l1 l2 : Z) (r1 r2 : option (list NodeData)) :
  nth_error (requests s) k1 = Some (ReqSearch q1 l1) ->
  nth_error (requests s) k2 = Some (ReqSearch q2 l2) ->
  let s2 := step s (t2, SearchDone k2 (SOk r2)) in
  let s1 := step s2 (t1, SearchDone k1 (SOk r1)) in
  searchResults s2 = orElse r2 [] /\ searchResults s1 = orElse r1 [].
Proof.
  intros H1 H2 s2 s1. split.
  - apply (step_SearchDone s t2 k2 q2 l2 r2 H2).
  - apply (step_SearchDone s2 t1 k1 q1 l1 r1).
    now apply nth_error_step.
Qed.

Lemma search_last_arrival_wins_witness :
  let old := mkNodeData "lv_old" None None None in
  let new := mkNodeData "lvr" None None None in
  let s := fetch (ReqSearch "lvr" 10) (fetch (ReqSearch "lv" 10) initialState) in
  searchResults
    (step (step s (800%nat, SearchDone 1 (SOk (Some [new]))))
       (900%nat, SearchDone 0 (SOk (Some [old]))))
  = [old].
Proof.
  cbv zeta.
  apply (search_last_arrival_wins
           (fetch (ReqSearch "lvr" 10) (fetch (ReqSearch "lv" 10) initialState))
           0 1 900 800 "lv" "lvr" 10%Z 10%Z
           (Some [mkNodeData "lv_old" None None None])
           (Some [mkNodeData "lvr" None None None])
           eq_refl eq_refl).
Defined.

(** ** The dataset *)

Module DataSetFacts.
Section Facts.
Context {item upd : Type}.
Variable key : item -> string.
Variable ukey : upd -> string.
Variable merge : item -> upd -> item.
Variable create : upd -> item.
Hypothesis merge_key : forall it u, key (merge it u) = key it.
Hypothesis create_key : forall u, key (create u) = ukey u.

Local Abbreviation get := (DataSet.get key).
Local Abbreviation ids := (DataSet.ids key).
Local Abbreviation add := (DataSet.add key).
Local Abbreviation update := (DataSet.update key ukey merge create).

Lemma get_Some_In (ds : list item) (id : string) (it : item) :
    get ds id = Some it -> In it ds /\ key it = id.
  Proof.
    intros H. apply find_some in H as [Hin Hk].
    split; [exact Hin | now apply String.eqb_eq].
  Qed.

Lemma get_None_iff (ds : list item) (id : string) :
    get ds id = None <-> ~ In id (ids ds).
  Proof.
    unfold DataSet.get, DataSet.ids. induction ds as [| a ds IH]; simpl.
    - tauto.
    - destruct (key a =? id) eqn:E.
      + apply String.eqb_eq in E. split; [discriminate | tauto].
      + apply String.eqb_neq in E. tauto.
  Qed.

Lemma get_In_ids (ds : list item) (id : string) :
    In id (ids ds) -> exists it, get ds id = Some it.
  Proof.
    intros H. destruct (get ds id) as [it |] eqn:E; [eauto |].
    now apply get_None_iff in E.
  Qed.

Lemma get_ids (ds : list item) (id : string) (it : item) :
    get ds id = Some it -> In id (ids ds).
  Proof.
    intros H. apply get_Some_In in H as [Hin <-].
    unfold DataSet.ids. now apply in_map.
  Qed.

Lemma get_app (ds ds' : list item) (id : string) :
    get (ds ++ ds')%list id
    = match get ds id with Some it => Some it | None => get ds' id end.
  Proof.
    unfold DataSet.get. induction ds as [| a ds IH]; simpl; [reflexivity |].
    destruct (key a =? id); [reflexivity | exact IH].
  Qed.

Lemma ids_app (ds ds' : list item) : ids (ds ++ ds')%list = (ids ds ++ ids ds')%list.
  Proof. apply map_app. Qed.

Lemma add_unknown (ds : list item) (it : item) :
    get ds (key it) = None -> add ds it = Some (ds ++ [it])%list.
  Proof. intros H. unfold DataSet.add. now rewrite H. Qed.

  (** An update of a known identifier keeps every projection that the
      merge keeps: no item is inserted, none moved. *)
Lemma map_update_known {B : Type} (p : item -> B) (ds : list item) (u : upd)
    (it : item) :
    (forall x, p (merge x u) = p x) ->
    get ds (ukey u) = Some it ->
    map p (update ds u) = map p ds.
  Proof.
    intros Hp H. unfold DataSet.update. rewrite H.
    rewrite map_map. apply map_ext. intros x.
    destruct (key x =? ukey u); [apply Hp | reflexivity].
  Qed.

Lemma ids_update_known (ds : list item) (u : upd) (it : item) :
    get ds (ukey u) = Some it -> ids (update ds u) = ids ds.
  Proof. apply map_update_known. intros x. apply merge_key. Qed.

Lemma update_unknown (ds : list item) (u : upd) :
    get ds (ukey u) = None -> update ds u = (ds ++ [create u])%list.
  Proof. intros H. unfold DataSet.update. now rewrite H. Qed.

Lemma get_map_merge (ds : list item) (u : upd) (id : string) :
    get (map (fun it => if key it =? ukey u then merge it u else it) ds) id
    = if id =? ukey u then option_map (fun it => merge it u) (get ds id)
      else get ds id.
  Proof.
    unfold DataSet.get. induction ds as [| a ds IH]; simpl.
    - now destruct (id =? ukey u).
    - destruct (key a =? ukey u) eqn:Ea.
      + rewrite merge_key. destruct (key a =? id) eqn:Eb.
        * apply String.eqb_eq in Ea, Eb. rewrite <- Eb, Ea.
          now rewrite String.eqb_refl.
        * exact IH.
      + destruct (key a =? id) eqn:Eb.
        * apply String.eqb_eq in Eb. rewrite <- Eb, Ea. reflexivity.
        * exact IH.
  Qed.

Lemma get_update_same (ds : list item) (u : upd) :
    get (update ds u) (ukey u)
    = Some (match get ds (ukey u) with
            | Some it => merge it u
            | None => create u
            end).
  Proof.
    unfold DataSet.update. destruct (get ds (ukey u)) as [it |] eqn:E.
    - rewrite get_map_merge, String.eqb_refl, E. reflexivity.
    - rewrite get_app, E. unfold DataSet.get. simpl.
      now rewrite create_key, String.eqb_refl.
  Qed.

Lemma get_update_other (ds : list item) (u : upd) (id : string) :
    id <> ukey u -> get (update ds u) id = get ds id.
  Proof.
    intros Hne. unfold DataSet.update.
    destruct (get ds (ukey u)) as [it |] eqn:E.
    - rewrite get_map_merge. now apply String.eqb_neq in Hne as ->.
    - rewrite get_app. destruct (get ds id); [reflexivity |].
      unfold DataSet.get. simpl. rewrite create_key.
      assert (H : (ukey u =? id) = false)
        by (apply String.eqb_neq; congruence).
      now rewrite H.
  Qed.

Lemma NoDup_snoc (l : list string) (x : string) :
    NoDup l -> ~ In x l -> NoDup (l ++ [x])%list.
  Proof.
    intros Hl Hx. induction Hl as [| a l Ha Hl IH]; simpl.
    - constructor; [easy | constructor].
    - constructor.
      + rewrite in_app_iff. simpl. intros [H | [H | []]]; [easy |].
        subst. apply Hx. now left.
      + apply IH. intros H. apply Hx. now right.
  Qed.

Lemma NoDup_update (ds : list item) (u : upd) :
    NoDup (ids ds) -> NoDup (ids (update ds u)).
  Proof.
    intros H. destruct (get ds (ukey u)) as [it |] eqn:E.
    - now rewrite (ids_update_known ds u it E).
    - rewrite (update_unknown ds u E), ids_app. simpl. rewrite create_key.
      apply NoDup_snoc; [exact H | now apply get_None_iff].
  Qed.

Lemma NoDup_add (ds ds' : list item) (it : item) :
    NoDup (ids ds) -> add ds it = Some ds' -> NoDup (ids ds').
  Proof.
    intros H Ha. unfold DataSet.add in Ha.
    destruct (get ds (key it)) eqn:E; [discriminate |].
    injection Ha as <-. rewrite ids_app. simpl.
    apply NoDup_snoc; [exact H | now apply get_None_iff].
  Qed.

Lemma NoDup_make_from (items : list item) :
    forall acc ds,
      (forall d, acc = Some d -> NoDup (ids d)) ->
      fold_left (fun acc it => match acc with
                               | Some ds => add ds it
                               | None => None
                               end) items acc = Some ds ->
      NoDup (ids ds).
  Proof.
    induction items as [| a r IH]; intros acc ds Hacc H; simpl in H.
    - now apply Hacc.
    - apply (IH _ ds) in H; [exact H |].
      intros d Hd. destruct acc as [d0 |]; [| discriminate].
      apply (NoDup_add d0 d a); [now apply Hacc | exact Hd].
  Qed.

  (** A dataset that was built holds every identifier once. *)
Lemma NoDup_make (items ds : list item) :
    DataSet.make key items = Some ds -> NoDup (ids ds).
  Proof.
    apply NoDup_make_from. intros d Hd. injection Hd as <-. constructor.
  Qed.

  (** With every identifier held once, an update of a known identifier
      rewrites the one item that has it. *)
Lemma update_at (pre suf : list item) (it : item) (u : upd) :
    NoDup (ids (pre ++ it :: suf)%list) ->
    ukey u = key it ->
    update (pre ++ it :: suf)%list u = (pre ++ merge it u :: suf)%list.
  Proof.
    intros Hnd Hk.
    assert (Hin : In (ukey u) (ids (pre ++ it :: suf)%list)).
    { rewrite ids_app, in_app_iff. right. left. now symmetry. }
    apply get_In_ids in Hin as [x Hx].
    unfold DataSet.update. rewrite Hx.
    rewrite ids_app in Hnd. simpl in Hnd.
    apply NoDup_remove in Hnd as [_ Hnot].
    rewrite in_app_iff in Hnot.
    rewrite map_app. simpl. rewrite Hk, String.eqb_refl.
    f_equal; [| f_equal].
    - rewrite <- (map_id pre) at 2. apply map_ext_in. intros a Ha.
      destruct (key a =? key it) eqn:E; [| reflexivity].
      apply String.eqb_eq in E. exfalso. apply Hnot. left.
      rewrite <- E. unfold DataSet.ids. now apply in_map.
    - rewrite <- (map_id suf) at 2. apply map_ext_in. intros a Ha.
      destruct (key a =? key it) eqn:E; [| reflexivity].
      apply String.eqb_eq in E. exfalso. apply Hnot. right.
      rewrite <- E. unfold DataSet.ids. now apply in_map.
  Qed.

End Facts.
End DataSetFacts.

(** ** Tier filter *)

Section Filter.

Variable enabledTiers : list Z.

Let hide (n : VisNode) : VisNode := mergeNode n (hiddenUpdate enabledTiers n).

Lemma mergeNode_id (it : VisNode) (u : NodeUpdate) : v_id (mergeNode it u) = v_id it.
Proof. reflexivity. Qed.

Lemma createNode_id (u : NodeUpdate) : v_id (createNode u) = u_id u.
Proof. reflexivity. Qed.

Lemma filter_fold (suf : NodeSet) :
  forall pre,
    uniqueIds (pre ++ suf)%list ->
    fold_left (fun acc node => nodes_update acc (hiddenUpdate enabledTiers node))
      suf (map hide pre ++ suf)%list
    = map hide (pre ++ suf)%list.
Proof.
  induction suf as [| n r IH]; intros pre Hnd; simpl.
  - now rewrite !app_nil_r.
  - unfold nodes_update at 2.
    rewrite (DataSetFacts.update_at v_id u_id mergeNode createNode
               (map hide pre) r n (hiddenUpdate enabledTiers n)).
    + replace (map hide pre ++ mergeNode n (hiddenUpdate enabledTiers n) :: r)%list
        with (map hide (pre ++ [n]) ++ r)%list
        by (rewrite map_app, <- app_assoc; reflexivity).
      replace (pre ++ n :: r)%list with ((pre ++ [n]) ++ r)%list
        by (rewrite <- app_assoc; reflexivity).
      apply IH. unfold uniqueIds in *. now rewrite <- app_assoc.
    + unfold uniqueIds in Hnd. unfold DataSet.ids.
      rewrite map_app in *. simpl in *. rewrite map_map.
      exact Hnd.
    + reflexivity.
Qed.

Lemma get_map_hide (ds : NodeSet) (id : string) :
  nodes_get (map hide ds) id = option_map hide (nodes_get ds id).
Proof.
  unfold nodes_get, DataSet.get.
  induction ds as [| a ds IH]; simpl; [reflexivity |].
  destruct (v_id a =? id); [reflexivity | exact IH].
Qed.

Lemma tierEnabled_In (n : VisNode) :
  tierEnabled enabledTiers n = true <-> In (filterTier n) enabledTiers.
Proof.
  unfold tierEnabled. rewrite existsb_exists. split.
  - intros (x & Hx & E). apply Z.eqb_eq in E. now subst.
  - intros H. exists (filterTier n). split; [exact H | apply Z.eqb_refl].
Qed.

(** C6: a tier filter leaves both highlight sets, the edges and the
    selection alone; in the node dataset it keeps every item in place
    with its colour, size, font and all other fields, and sets the
    [hidden] flag of each to whether its tier (-1 when it has none) is
    missing from the ticked tiers.  A highlighted node whose tier is
    not ticked is thus both highlighted and hidden. *)
Theorem filterGraph_only_sets_hidden (s : State) :
  highlightedNodes (filterGraph enabledTiers s) = highlightedNodes s /\
  highlightedEdges (filterGraph enabledTiers s) = highlightedEdges s /\
  edgesDataset (filterGraph enabledTiers s) = edgesDataset s /\
  selectedNodeId (filterGraph enabledTiers s) = selectedNodeId s /\
  (nodesDataset s = None -> filterGraph enabledTiers s = s) /\
  (forall ds,
      nodesDataset s = Some ds ->
      uniqueIds ds ->
      exists ds',
        nodesDataset (filterGraph enabledTiers s) = Some ds' /\
        map v_id ds' = map v_id ds /\
        forall id n,
          nodes_get ds id = Some n ->
          exists n',
            nodes_get ds' id = Some n' /\
            sameButHidden n n' /\
            v_hidden n' = Some (negb (tierEnabled enabledTiers n)) /\
            (v_hidden n' = Some true <-> ~ In (filterTier n) enabledTiers)).
Proof.
  unfold filterGraph.
  destruct (nodesDataset s) as [ds |] eqn:E; simpl;
    repeat (split; [reflexivity |]).
  - split; [discriminate |].
    intros ds0 H Hnd. injection H as <-.
    exists (map hide ds).
    pose proof (filter_fold ds [] Hnd) as Hf. simpl in Hf.
    split; [now rewrite Hf |]. split.
    { rewrite map_map. reflexivity. }
    intros id n Hn. exists (hide n).
    rewrite get_map_hide, Hn. split; [reflexivity |].
    split; [repeat split |]. split; [reflexivity |].
    change (v_hidden (hide n)) with (Some (negb (tierEnabled enabledTiers n))).
    rewrite <- tierEnabled_In.
    destruct (tierEnabled enabledTiers n); simpl; intuition congruence.
  - intros ds H. discriminate.
Qed.

End Filter.

Lemma filterGraph_only_sets_hidden_witness :
  let a := mkNodeData "A" None (Some "FIELD") (Some 1%Z) in
  let b := mkNodeData "B" None (Some "FIELD") (Some 3%Z) in
  let s := set_highlightedNodes ["A"; "B"]
             (set_nodesDataset (Some [newNode a true; newNode b true]) initialState) in
  exists ds',
    nodesDataset (filterGraph [1%Z] s) = Some ds' /\
    highlightedNodes (filterGraph [1%Z] s) = ["A"; "B"] /\
    option_map v_hidden (nodes_get ds' "A") = Some (Some false) /\
    option_map v_hidden (nodes_get ds' "B") = Some (Some true) /\
    option_map v_color (nodes_get ds' "B") = Some (Some HIGHLIGHT_COLOR).
Proof.
  cbv zeta.
  set (s := set_highlightedNodes ["A"; "B"]
              (set_nodesDataset
                 (Some [newNode (mkNodeData "A" None (Some "FIELD") (Some 1%Z)) true;
                        newNode (mkNodeData "B" None (Some "FIELD") (Some 3%Z)) true])
                 initialState)).
  destruct (filterGraph_only_sets_hidden [1%Z] s) as (Hn & _ & _ & _ & _ & H).
  destruct (H _ eq_refl) as (ds' & Hds & _ & Hget).
  { unfold uniqueIds. simpl. repeat constructor; simpl; intuition discriminate. }
  exists ds'. split; [exact Hds |]. split; [exact Hn |].
  destruct (Hget "A" _ eq_refl) as (na & Ha & _ & Hha & _).
  destruct (Hget "B" _ eq_refl) as (nb & Hb & (_ & _ & Hc & _) & Hhb & _).
  rewrite Ha, Hb. simpl. rewrite Hha, Hhb, Hc. repeat split.
Defined.

(** ** Identifier sets *)

Section IdSets.

Lemma set_has_In (x : string) (s : IdSet) : set_has x s = true <-> In x s.
Proof.
  unfold set_has. rewrite existsb_exists. split.
  - intros (y & Hy & E). apply String.eqb_eq in E. now subst.
  - intros H. exists x. split; [exact H | apply String.eqb_refl].
Qed.

Lemma In_set_add (x y : string) (s : IdSet) :
  In y (set_add x s) <-> y = x \/ In y s.
Proof.
  unfold set_add. destruct (set_has x s) eqn:E.
  - apply set_has_In in E. split; [tauto |]. intros [-> | H]; assumption.
  - rewrite in_app_iff. simpl. intuition congruence.
Qed.

Lemma In_set_delete (x y : string) (s : IdSet) :
  In y (set_delete x s) <-> y <> x /\ In y s.
Proof.
  unfold set_delete. rewrite filter_In. split.
  - intros [H E]. split; [| exact H]. intros ->.
    now rewrite String.eqb_refl in E.
  - intros [Hne H]. split; [exact H |].
    apply negb_true_iff, String.eqb_neq. congruence.
Qed.

Lemma In_fold_set_add (l : list string) :
  forall acc y,
    In y (fold_left (fun a x => set_add x a) l acc) <-> In y l \/ In y acc.
Proof.
  induction l as [| x l IH]; intros acc y; simpl.
  - tauto.
  - rewrite IH, In_set_add. intuition congruence.
Qed.

Lemma In_idSetOf (l : list string) (y : string) : In y (idSetOf l) <-> In y l.
Proof. unfold idSetOf. rewrite In_fold_set_add. simpl. tauto. Qed.

End IdSets.

(** ** Traversal edges *)

Section TraversalEdges.

Lemma mergeEdge_id (it : VisEdge) (u : EdgeUpdate) : e_id (mergeEdge it u) = e_id it.
Proof. reflexivity. Qed.

Lemma createEdge_id (u : EdgeUpdate) : e_id (createEdge u) = eu_id u.
Proof. reflexivity. Qed.

(** The identifier of a bulk-load edge is derived from its index, that
    of a traversal edge from its end points; the two never meet. *)
Lemma bulk_id_never_dynamic (e edge : EdgeData) (idx : nat) :
  e_id (initialEdge e idx) <> dynamicEdgeId edge.
Proof. unfold initialEdge, dynamicEdgeId. simpl. discriminate. Qed.

Lemma addOrHighlightEdge_known (edge : EdgeData) (s : State) (ds : EdgeSet)
  (e0 : VisEdge) :
  edgesDataset s = Some ds ->
  edges_get ds (dynamicEdgeId edge) = Some e0 ->
  addOrHighlightEdge edge s
  = Done (set_highlightedEdges
            (set_add (dynamicEdgeId edge) (highlightedEdges s))
            (set_edgesDataset
               (Some (edges_update ds
                        (mkEdgeUpdate (dynamicEdgeId edge) HIGHLIGHT_EDGE 3))) s)).
Proof. intros Hs Hg. unfold addOrHighlightEdge. now rewrite Hs, Hg. Qed.

Lemma addOrHighlightEdge_unknown (edge : EdgeData) (s : State) (ds : EdgeSet) :
  edgesDataset s = Some ds ->
  edges_get ds (dynamicEdgeId edge) = None ->
  addOrHighlightEdge edge s
  = Done (set_highlightedEdges
            (set_add (dynamicEdgeId edge) (highlightedEdges s))
            (set_edgesDataset
               (Some (ds ++ [mkVisEdge (dynamicEdgeId edge) (d_source edge)
                               (d_target edge) (Some "to") (Some HIGHLIGHT_EDGE)
                               (Some 3%Z) (d_type edge)])%list) s)).
Proof.
  intros Hs Hg. unfold addOrHighlightEdge. rewrite Hs, Hg.
  unfold edges_add. rewrite DataSetFacts.add_unknown by exact Hg.
  reflexivity.
Qed.

End TraversalEdges.

(** C3, as stated, fails: the export holds the edge from A to B, which
    the bulk load stores as [edge-0]; a traversal from A that returns
    the same edge stores it again as [dynamic-edge-A-B].  The dataset
    then holds two edges from A to B, and the bulk-load one keeps its
    resting width. *)
Lemma bulk_edge_duplicated_by_traversal :
  let a := mkNodeData "A" None (Some "FIELD") (Some 1%Z) in
  let b := mkNodeData "B" None (Some "FIELD") (Some 3%Z) in
  let ab := mkEdgeData (Some "A") (Some "B") None None (Some "DEPENDS_ON") in
  let s0 := processGraphData (mkEnv true true true)
              (mkGraphExport (Some [a; b]) (Some [ab])) initialState in
  exists s1 s2,
    selectNode "A" s0 = Done s1 /\
    showTraversal_resume downstream
      (Some (mkTraversalResult (Some [b]) (Some [ab]) (Some 1%nat))) s1
    = Some (Done s2) /\
    option_map (map (fun e => (e_id e, e_from e, e_to e, e_width e)))
      (edgesDataset s0)
    = Some [("edge-0", Some "A", Some "B", Some 1%Z)] /\
    option_map (map (fun e => (e_id e, e_from e, e_to e, e_width e)))
      (edgesDataset s2)
    = Some [("edge-0", Some "A", Some "B", Some 1%Z);
            ("dynamic-edge-A-B", Some "A", Some "B", Some 3%Z)] /\
    highlightedEdges s2 = ["dynamic-edge-A-B"].
Proof.
  cbv zeta. eexists. eexists.
  split; [vm_compute; reflexivity |].
  split; [vm_compute; reflexivity |].
  repeat split.
Qed.

(** C3 (amended): a traversal edge is stored under the identifier
    [dynamic-edge-<source>-<target>] and that identifier joins the
    highlighted edges.  When the dataset already holds the identifier,
    which only an earlier traversal display can have put there, the
    item is highlighted in place and nothing is inserted; otherwise one
    item is appended, and displaying the same edge again inserts
    nothing more.  Identifiers of bulk-load edges have the form
    [edge-<index>] and never equal it. *)
Theorem traversal_edge_keyed_by_endpoints (edge : EdgeData) (s : State)
  (ds : EdgeSet) :
  edgesDataset s = Some ds ->
  exists s' ds',
    addOrHighlightEdge edge s = Done s' /\
    edgesDataset s' = Some ds' /\
    In (dynamicEdgeId edge) (highlightedEdges s') /\
    (forall e0,
        edges_get ds (dynamicEdgeId edge) = Some e0 ->
        map e_id ds' = map e_id ds /\
        List.length ds' = List.length ds /\
        edges_get ds' (dynamicEdgeId edge)
        = Some (mkVisEdge (e_id e0) (e_from e0) (e_to e0) (e_arrows e0)
                  (Some HIGHLIGHT_EDGE) (Some 3%Z) (e_type e0))) /\
    (edges_get ds (dynamicEdgeId edge) = None ->
     ds' = (ds ++ [mkVisEdge (dynamicEdgeId edge) (d_source edge) (d_target edge)
                     (Some "to") (Some HIGHLIGHT_EDGE) (Some 3%Z) (d_type edge)])%list) /\
    (exists s'' ds'',
        addOrHighlightEdge edge s' = Done s'' /\
        edgesDataset s'' = Some ds'' /\
        map e_id ds'' = map e_id ds') /\
    (forall e idx, e_id (initialEdge e idx) <> dynamicEdgeId edge).
Proof.
  intros Hs.
  assert (Hknown : forall (st : State) (d : EdgeSet) (e0 : VisEdge),
             edgesDataset st = Some d ->
             edges_get d (dynamicEdgeId edge) = Some e0 ->
             exists st' d',
               addOrHighlightEdge edge st = Done st' /\
               edgesDataset st' = Some d' /\
               In (dynamicEdgeId edge) (highlightedEdges st') /\
               map e_id d' = map e_id d /\
               edges_get d' (dynamicEdgeId edge)
               = Some (mergeEdge e0 (mkEdgeUpdate (dynamicEdgeId edge) HIGHLIGHT_EDGE 3))).
  { intros st d e0 Hst Hg.
    eexists. eexists. split; [apply (addOrHighlightEdge_known edge st d e0 Hst Hg) |].
    split; [reflexivity |]. split; [apply In_set_add; now left |]. split.
    - apply (DataSetFacts.ids_update_known e_id eu_id mergeEdge createEdge
               mergeEdge_id d _ e0). exact Hg.
    - pose proof (DataSetFacts.get_update_same e_id eu_id mergeEdge createEdge
                    mergeEdge_id createEdge_id d
                    (mkEdgeUpdate (dynamicEdgeId edge) HIGHLIGHT_EDGE 3)) as Hu.
      cbn [eu_id] in Hu. unfold edges_update, edges_get.
      unfold edges_get in Hg. rewrite Hu, Hg. reflexivity. }
  destruct (edges_get ds (dynamicEdgeId edge)) as [e0 |] eqn:Hg.
  - destruct (Hknown s ds e0 Hs Hg) as (s' & ds' & Hrun & Hds' & Hin & Hids & Hget).
    exists s', ds'. split; [exact Hrun |]. split; [exact Hds' |].
    split; [exact Hin |]. split.
    { intros e1 He1. injection He1 as <-. split; [exact Hids |]. split.
      - rewrite <- (length_map e_id ds'), Hids. apply length_map.
      - exact Hget. }
    split; [discriminate |]. split.
    { destruct (Hknown s' ds' _ Hds' Hget) as (s'' & ds'' & H1 & H2 & _ & H3 & _).
      exists s'', ds''. auto. }
    intros e idx. apply bulk_id_never_dynamic.
  - set (fresh := mkVisEdge (dynamicEdgeId edge) (d_source edge) (d_target edge)
                    (Some "to") (Some HIGHLIGHT_EDGE) (Some 3%Z) (d_type edge)).
    set (s1 := set_highlightedEdges
                 (set_add (dynamicEdgeId edge) (highlightedEdges s))
                 (set_edgesDataset (Some (ds ++ [fresh])%list) s)).
    exists s1, (ds ++ [fresh])%list.
    split; [apply (addOrHighlightEdge_unknown edge s ds Hs Hg) |].
    split; [reflexivity |]. split; [apply In_set_add; now left |].
    split; [discriminate |]. split; [reflexivity |]. split.
    { assert (Hg' : edges_get (ds ++ [fresh])%list (dynamicEdgeId edge) = Some fresh).
      { unfold edges_get. rewrite DataSetFacts.get_app.
        unfold edges_get in Hg. rewrite Hg. unfold DataSet.get. simpl.
        now rewrite String.eqb_refl. }
      destruct (Hknown s1 (ds ++ [fresh])%list fresh eq_refl Hg')
        as (s'' & ds'' & H1 & H2 & _ & H3 & _).
      exists s'', ds''. auto. }
    intros e idx. apply bulk_id_never_dynamic.
Qed.

Lemma traversal_edge_keyed_by_endpoints_witness :
  let ab := mkEdgeData (Some "A") (Some "B") None None None in
  let s := set_edgesDataset (Some (mapi initialEdge [ab])) initialState in
  exists s' ds',
    addOrHighlightEdge ab s = Done s' /\
    edgesDataset s' = Some ds' /\
    In "dynamic-edge-A-B" (highlightedEdges s') /\
    List.length ds' = 2%nat.
Proof.
  cbv zeta.
  destruct (traversal_edge_keyed_by_endpoints
              (mkEdgeData (Some "A") (Some "B") None None None)
              (set_edgesDataset
                 (Some (mapi initialEdge [mkEdgeData (Some "A") (Some "B") None None None]))
                 initialState)
              _ eq_refl)
    as (s' & ds' & Hrun & Hds & Hin & _ & Hnew & _).
  exists s', ds'. split; [exact Hrun |]. split; [exact Hds |].
  split; [exact Hin |]. rewrite Hnew; reflexivity.
Defined.

(** ** Loops and primitives of the highlight engine *)

Section Engine.

(** The rule for a loop whose callback may throw: an invariant over the
    items already visited. *)
Lemma forEach_invariant {A : Type} (f : A -> State -> Outcome)
  (I : list A -> State -> Prop) (xs : list A) :
  (forall pre x suf s,
      xs = (pre ++ x :: suf)%list -> I pre s ->
      exists s', f x s = Done s' /\ I (pre ++ [x])%list s') ->
  forall s, I [] s -> exists s', forEach xs f s = Done s' /\ I xs s'.
Proof.
  intros Hstep.
  assert (H : forall suf pre s,
             xs = (pre ++ suf)%list -> I pre s ->
             exists s', forEach suf f s = Done s' /\ I xs s').
  { induction suf as [| x suf IH]; intros pre s Hxs HI.
    - rewrite app_nil_r in Hxs. subst pre. exists s. now split.
    - destruct (Hstep pre x suf s Hxs HI) as (s1 & Hf & HI1).
      simpl. rewrite Hf. simpl. apply (IH (pre ++ [x])%list).
      + now rewrite <- app_assoc.
      + exact HI1. }
  intros s HI. now apply (H xs [] s).
Qed.

Lemma highlightNode_on (id : string) (s : State) (ds : NodeSet) :
  nodesDataset s = Some ds ->
  highlightNode id true s
  = Done (set_nodesDataset (Some (nodes_update ds (highlightUpdate id)))
            (set_highlightedNodes (set_add id (highlightedNodes s)) s)).
Proof. intros H. unfold highlightNode. simpl. now rewrite H. Qed.

Lemma highlightNode_off_known (id : string) (s : State) (ds : NodeSet)
  (node : VisNode) :
  nodesDataset s = Some ds ->
  nodes_get ds id = Some node ->
  highlightNode id false s
  = Done (set_nodesDataset (Some (nodes_update ds (restoreUpdate id node)))
            (set_highlightedNodes (set_delete id (highlightedNodes s)) s)).
Proof. intros H Hg. unfold highlightNode. simpl. now rewrite H, Hg. Qed.

Lemma highlightNode_off_unknown (id : string) (s : State) (ds : NodeSet) :
  nodesDataset s = Some ds ->
  nodes_get ds id = None ->
  highlightNode id false s
  = Done (set_highlightedNodes (set_delete id (highlightedNodes s)) s).
Proof. intros H Hg. unfold highlightNode. simpl. now rewrite H, Hg. Qed.


Lemma addNodeToGraph_unknown (nodeData : NodeData) (s : State) (ds : NodeSet) :
  nodesDataset s = Some ds ->
  nodes_get ds (n_id nodeData) = None ->
  addNodeToGraph nodeData true s
  = Done (set_highlightedNodes (set_add (n_id nodeData) (highlightedNodes s))
            (set_nodesDataset (Some (ds ++ [newNode nodeData true])%list) s)).
Proof.
  intros H Hg. unfold addNodeToGraph. rewrite H, Hg.
  unfold nodes_add.
  rewrite (DataSetFacts.add_unknown v_id ds (newNode nodeData true)) by exact Hg.
  reflexivity.
Qed.

Lemma addNodeToGraph_unloaded (nodeData : NodeData) (highlight : bool)
  (s : State) :
  nodesDataset s = None -> addNodeToGraph nodeData highlight s = Done s.
Proof. intros H. unfold addNodeToGraph. now rewrite H. Qed.

(** Lookups after the updates of the engine. *)
Lemma nodes_get_update_same (ds : NodeSet) (u : NodeUpdate) :
  nodes_get (nodes_update ds u) (u_id u)
  = Some (match nodes_get ds (u_id u) with
          | Some it => mergeNode it u
          | None => createNode u
          end).
Proof.
  apply (DataSetFacts.get_update_same v_id u_id mergeNode createNode
           mergeNode_id createNode_id).
Qed.

Lemma nodes_get_update_other (ds : NodeSet) (u : NodeUpdate) (id : string) :
  id <> u_id u -> nodes_get (nodes_update ds u) id = nodes_get ds id.
Proof.
  apply (DataSetFacts.get_update_other v_id u_id mergeNode createNode
           mergeNode_id createNode_id).
Qed.

Lemma nodes_update_skeleton (ds : NodeSet) (u : NodeUpdate) (it : VisNode) :
  nodes_get ds (u_id u) = Some it ->
  map skeleton (nodes_update ds u) = map skeleton ds.
Proof.
  apply (DataSetFacts.map_update_known v_id u_id mergeNode createNode skeleton).
  reflexivity.
Qed.

Lemma nodes_get_skeleton (ds ds' : NodeSet) (id : string) :
  map skeleton ds' = map skeleton ds ->
  option_map skeleton (nodes_get ds' id) = option_map skeleton (nodes_get ds id).
Proof.
  revert ds'. induction ds as [| a ds IH]; intros [| a' ds'] H;
    cbn [map] in H; try discriminate; [reflexivity |].
  injection H as Hi Hl Ho Hd H. unfold nodes_get, DataSet.get in *. cbn [find].
  rewrite Hi. destruct (v_id a =? id).
  - cbn [option_map]. unfold skeleton. congruence.
  - now apply IH.
Qed.

End Engine.

(** ** The store only grows *)

Section Growth.

Lemma grows_refl (ds : NodeSet) : grows ds ds.
Proof. split; [easy |]. intros id it H. eauto. Qed.

Lemma grows_trans (a b c : NodeSet) : grows a b -> grows b c -> grows a c.
Proof.
  intros [Hu1 Hg1] [Hu2 Hg2]. split; [auto |].
  intros id it H. destruct (Hg1 id it H) as (it1 & H1 & E1).
  destruct (Hg2 id it1 H1) as (it2 & H2 & E2).
  exists it2. split; [exact H2 | congruence].
Qed.

Lemma grows_update (ds : NodeSet) (u : NodeUpdate) :
  grows ds (nodes_update ds u).
Proof.
  split.
  - apply (DataSetFacts.NoDup_update v_id u_id mergeNode createNode
             mergeNode_id createNode_id).
  - intros id it H. destruct (string_dec id (u_id u)) as [-> | Hne].
    + rewrite nodes_get_update_same, H. eauto.
    + rewrite nodes_get_update_other by exact Hne. eauto.
Qed.

Lemma grows_append (ds : NodeSet) (n : VisNode) :
  nodes_get ds (v_id n) = None -> grows ds (ds ++ [n])%list.
Proof.
  intros Hn. split.
  - intros Hu. unfold uniqueIds. rewrite map_app. simpl.
    apply DataSetFacts.NoDup_snoc; [exact Hu |].
    now apply (DataSetFacts.get_None_iff v_id).
  - intros id it H. exists it. split; [| reflexivity].
    unfold nodes_get in *. now rewrite DataSetFacts.get_app, H.
Qed.

Lemma grows_skeleton (ds ds' : NodeSet) :
  map skeleton ds' = map skeleton ds -> grows ds ds'.
Proof.
  intros H. split.
  - unfold uniqueIds. intros Hu.
    assert (E : map v_id ds' = map v_id ds).
    { assert (P : forall l : NodeSet,
                 map v_id l = map (fun k => fst (fst (fst k))) (map skeleton l))
        by (intros l; rewrite map_map; reflexivity).
      now rewrite (P ds'), (P ds), H. }
    now rewrite E.
  - intros id it Hg. pose proof (nodes_get_skeleton ds ds' id H) as E.
    rewrite Hg in E. destruct (nodes_get ds' id) as [it' |]; [| discriminate].
    exists it'. split; [reflexivity |]. simpl in E. congruence.
Qed.

(** What highlighting a node does, in one statement: the call returns,
    the store grows, the node is held and joins the highlighted nodes,
    and the edges stay as they were.  A node that was held keeps the
    store's skeleton. *)
Lemma highlightNode_on_spec (id : string) (s : State) (ds : NodeSet) :
  nodesDataset s = Some ds ->
  exists s' ds',
    highlightNode id true s = Done s' /\
    nodesDataset s' = Some ds' /\
    grows ds ds' /\
    In id (map v_id ds') /\
    (In id (map v_id ds) -> map skeleton ds' = map skeleton ds) /\
    highlightedNodes s' = set_add id (highlightedNodes s) /\
    edgesDataset s' = edgesDataset s /\
    highlightedEdges s' = highlightedEdges s.
Proof.
  intros H. eexists. exists (nodes_update ds (highlightUpdate id)).
  split; [apply (highlightNode_on id s ds H) |].
  split; [reflexivity |]. split; [apply grows_update |]. split.
  - apply (DataSetFacts.get_ids v_id _ _
             (match nodes_get ds id with
              | Some it => mergeNode it (highlightUpdate id)
              | None => createNode (highlightUpdate id)
              end)).
    apply (nodes_get_update_same ds (highlightUpdate id)).
  - split; [| repeat split].
    intros Hin. apply (DataSetFacts.get_In_ids v_id) in Hin as [it Hit].
    now apply (nodes_update_skeleton ds (highlightUpdate id) it).
Qed.

Lemma highlightNode_off_spec (id : string) (s : State) (ds : NodeSet) :
  nodesDataset s = Some ds ->
  exists s' ds',
    highlightNode id false s = Done s' /\
    nodesDataset s' = Some ds' /\
    map skeleton ds' = map skeleton ds /\
    highlightedNodes s' = set_delete id (highlightedNodes s) /\
    edgesDataset s' = edgesDataset s /\
    highlightedEdges s' = highlightedEdges s.
Proof.
  intros H. destruct (nodes_get ds id) as [node |] eqn:Hg.
  - eexists. exists (nodes_update ds (restoreUpdate id node)).
    split; [apply (highlightNode_off_known id s ds node H Hg) |].
    split; [reflexivity |]. split; [| repeat split].
    now apply (nodes_update_skeleton ds (restoreUpdate id node) node).
  - eexists. exists ds.
    split; [apply (highlightNode_off_unknown id s ds H Hg) |].
    repeat split. exact H.
Qed.

(** The callback of the node loops. *)
Lemma highlightOrAddTraversal_spec (node : NodeData) (s : State) (ds : NodeSet) :
  nodesDataset s = Some ds ->
  exists s' ds',
    highlightOrAddTraversal node s = Done s' /\
    nodesDataset s' = Some ds' /\
    grows ds ds' /\
    In (n_id node) (map v_id ds') /\
    (In (n_id node) (map v_id ds) -> map skeleton ds' = map skeleton ds) /\
    highlightedNodes s' = set_add (n_id node) (highlightedNodes s) /\
    edgesDataset s' = edgesDataset s /\
    highlightedEdges s' = highlightedEdges s.
Proof.
  intros H. unfold highlightOrAddTraversal, lookupNode. rewrite H.
  destruct (nodes_get ds (n_id node)) as [it |] eqn:Hg.
  - apply highlightNode_on_spec. exact H.
  - eexists. exists (ds ++ [newNode node true])%list.
    split; [apply (addNodeToGraph_unknown node s ds H Hg) |].
    split; [reflexivity |]. split; [now apply grows_append |]. split.
    + rewrite map_app, in_app_iff. right. now left.
    + split; [| repeat split].
      intros Hin. apply (DataSetFacts.get_None_iff v_id) in Hg. contradiction.
Qed.

End Growth.

(** ** The loops of the reconciler *)

Section Loops.

Lemma grows_ids (ds ds' : NodeSet) (id : string) :
  grows ds ds' -> In id (map v_id ds) -> In id (map v_id ds').
Proof.
  intros [_ Hg] Hin. apply (DataSetFacts.get_In_ids v_id) in Hin as [it Hit].
  destruct (Hg id it Hit) as (it' & H' & _).
  now apply (DataSetFacts.get_ids v_id) in H'.
Qed.

Lemma skeleton_ids (ds ds' : NodeSet) :
  map skeleton ds' = map skeleton ds -> map v_id ds' = map v_id ds.
Proof.
  intros H.
  assert (P : forall l : NodeSet,
             map v_id l = map (fun k => fst (fst (fst k))) (map skeleton l))
    by (intros l; rewrite map_map; reflexivity).
  now rewrite (P ds'), (P ds), H.
Qed.

Lemma addAll_app (l l' : list string) (acc : IdSet) :
  addAll (l ++ l')%list acc = addAll l' (addAll l acc).
Proof. apply fold_left_app. Qed.

Lemma In_addAll (l : list string) (acc : IdSet) (y : string) :
  In y (addAll l acc) <-> In y l \/ In y acc.
Proof. apply In_fold_set_add. Qed.

(** A node loop: the callback highlights or adds the nodes that [sel]
    selects and passes over the others. *)
Lemma node_loop (sel : NodeData -> bool) (cb : NodeData -> State -> Outcome)
  (nodes : list NodeData) (s : State) (ds : NodeSet) :
  (forall n st, cb n st = if sel n then highlightOrAddTraversal n st else Done st) ->
  nodesDataset s = Some ds ->
  exists s' ds',
    forEach nodes cb s = Done s' /\
    nodesDataset s' = Some ds' /\
    grows ds ds' /\
    (forall n, In n nodes -> sel n = true -> In (n_id n) (map v_id ds')) /\
    ((forall n, In n nodes -> sel n = true -> In (n_id n) (map v_id ds)) ->
     map skeleton ds' = map skeleton ds) /\
    highlightedNodes s'
    = addAll (map n_id (filter sel nodes)) (highlightedNodes s) /\
    edgesDataset s' = edgesDataset s /\
    highlightedEdges s' = highlightedEdges s.
Proof.
  intros Hcb Hs.
  pose (I := fun (pre : list NodeData) (st : State) =>
    exists ds',
      nodesDataset st = Some ds' /\
      grows ds ds' /\
      (forall n, In n pre -> sel n = true -> In (n_id n) (map v_id ds')) /\
      ((forall n, In n pre -> sel n = true -> In (n_id n) (map v_id ds)) ->
       map skeleton ds' = map skeleton ds) /\
      highlightedNodes st = addAll (map n_id (filter sel pre)) (highlightedNodes s) /\
      edgesDataset st = edgesDataset s /\
      highlightedEdges st = highlightedEdges s).
  destruct (forEach_invariant cb I nodes) with (s := s) as (s' & Hrun & HI).
  - intros pre x suf st _ (d & Hd & Hg & Hin & Hsk & Hhn & He & Hhe).
    rewrite Hcb. destruct (sel x) eqn:Ex.
    + destruct (highlightOrAddTraversal_spec x st d Hd)
        as (st' & d' & Hrun & Hd' & Hg' & Hx & Hsk' & Hhn' & He' & Hhe').
      exists st'. split; [exact Hrun |]. exists d'.
      split; [exact Hd' |]. split; [eauto using grows_trans |]. split.
      { intros n Hn Hsel. apply in_app_iff in Hn as [Hn | [<- | []]].
        - apply (grows_ids d d' _ Hg'). now apply Hin.
        - exact Hx. }
      split.
      { intros Hall.
        assert (Hpre : map skeleton d = map skeleton ds).
        { apply Hsk. intros n Hn. apply Hall. apply in_app_iff. now left. }
        rewrite Hsk'; [exact Hpre |].
        rewrite (skeleton_ids ds d Hpre). apply Hall; [| exact Ex].
        apply in_app_iff. right. now left. }
      split.
      { rewrite Hhn', Hhn, filter_app, map_app, addAll_app. simpl.
        now rewrite Ex. }
      split; congruence.
    + exists st. split; [reflexivity |]. exists d.
      split; [exact Hd |]. split; [exact Hg |]. split.
      { intros n Hn Hsel. apply in_app_iff in Hn as [Hn | [<- | []]].
        - now apply Hin.
        - congruence. }
      split.
      { intros Hall. apply Hsk. intros n Hn. apply Hall.
        apply in_app_iff. now left. }
      split.
      { rewrite Hhn, filter_app, map_app, addAll_app. simpl. now rewrite Ex. }
      split; assumption.
  - exists ds. split; [exact Hs |]. split; [apply grows_refl |].
    split; [intros n [] |]. split; [reflexivity |]. repeat split.
  - destruct HI as (ds' & H). exists s', ds'. tauto.
Qed.

Lemma highlightOrAdd_callback (n : NodeData) (st : State) :
  highlightOrAdd n st
  = if negb (n_id n =? "") then highlightOrAddTraversal n st else Done st.
Proof. unfold highlightOrAdd. now destruct (n_id n =? ""). Qed.

(** The edge loop of [clearHighlights] touches the edge dataset only. *)
Lemma resetEdge_fold (l : list string) :
  forall s,
    let s' := fold_left (fun acc edgeId => resetEdge edgeId acc) l s in
    edgesDataset s' = resetEdges l (edgesDataset s) /\
    nodesDataset s' = nodesDataset s /\
    highlightedNodes s' = highlightedNodes s /\
    highlightedEdges s' = highlightedEdges s.
Proof.
  induction l as [| x l IH]; intros s; simpl.
  - destruct (edgesDataset s); repeat split.
  - destruct (IH (resetEdge x s)) as (He & Hn & Hhn & Hhe).
    rewrite He, Hn, Hhn, Hhe. unfold resetEdge.
    destruct (edgesDataset s) as [eds |] eqn:E; simpl.
    + repeat split.
    + rewrite E. repeat split.
Qed.

Lemma edges_update_skeleton (eds : EdgeSet) (u : EdgeUpdate) :
  In (eu_id u) (map e_id eds) ->
  map edgeSkeleton (edges_update eds u) = map edgeSkeleton eds.
Proof.
  intros Hin. apply (DataSetFacts.get_In_ids e_id) in Hin as [it Hit].
  apply (DataSetFacts.map_update_known e_id eu_id mergeEdge createEdge
           edgeSkeleton eds u it); [reflexivity | exact Hit].
Qed.

Lemma edgeSkeleton_ids (eds eds' : EdgeSet) :
  map edgeSkeleton eds' = map edgeSkeleton eds -> map e_id eds' = map e_id eds.
Proof.
  intros H.
  assert (P : forall l : EdgeSet,
             map e_id l = map (fun k => fst (fst k)) (map edgeSkeleton l))
    by (intros l; rewrite map_map; reflexivity).
  now rewrite (P eds'), (P eds), H.
Qed.

(** Returning to rest edges that the dataset holds keeps its skeleton. *)
Lemma resetEdges_skeleton (l : list string) :
  forall eds,
    (forall id, In id l -> In id (map e_id eds)) ->
    exists eds',
      resetEdges l (Some eds) = Some eds' /\
      map edgeSkeleton eds' = map edgeSkeleton eds.
Proof.
  unfold resetEdges. simpl.
  induction l as [| x l IH]; intros eds Hin; simpl.
  - eauto.
  - assert (Hx : map edgeSkeleton (edges_update eds (restingEdge x))
                 = map edgeSkeleton eds).
    { apply edges_update_skeleton. apply Hin. now left. }
    destruct (IH (edges_update eds (restingEdge x))) as (eds' & E & Hsk).
    + intros id Hid. rewrite (edgeSkeleton_ids _ _ Hx). apply Hin. now right.
    + exists eds'. split; [exact E | congruence].
Qed.

(** [clearHighlights] on a loaded graph returns; it empties both sets,
    keeps the skeleton of the nodes and returns the highlighted edges
    to rest. *)
Lemma clearHighlights_spec (s : State) (ds : NodeSet) :
  nodesDataset s = Some ds ->
  exists s' ds',
    clearHighlights s = Done s' /\
    nodesDataset s' = Some ds' /\
    map skeleton ds' = map skeleton ds /\
    highlightedNodes s' = [] /\
    highlightedEdges s' = [] /\
    edgesDataset s' = resetEdges (highlightedEdges s) (edgesDataset s).
Proof.
  intros Hs. unfold clearHighlights.
  pose (I := fun (_ : list string) (st : State) =>
    exists d, nodesDataset st = Some d /\
              map skeleton d = map skeleton ds /\
              edgesDataset st = edgesDataset s /\
              highlightedEdges st = highlightedEdges s).
  destruct (forEach_invariant (fun nodeId => highlightNode nodeId false) I
              (highlightedNodes s)) with (s := s) as (s1 & Hrun & d & Hd & Hsk & He & Hhe).
  - intros pre x suf st _ (d & Hd & Hsk & He & Hhe).
    destruct (highlightNode_off_spec x st d Hd)
      as (st' & d' & Hrun & Hd' & Hsk' & _ & He' & Hhe').
    exists st'. split; [exact Hrun |]. exists d'. repeat split; congruence.
  - exists ds. repeat split. exact Hs.
  - rewrite Hrun. simpl andThen.
    pose proof (resetEdge_fold (highlightedEdges s1)
                  (set_highlightedNodes [] s1)) as H.
    cbv zeta in H. destruct H as (H1 & H2 & H3 & H4).
    eexists. exists d. split; [reflexivity |].
    cbn [nodesDataset highlightedNodes highlightedEdges edgesDataset
         set_highlightedEdges].
    rewrite H1, H2, H3.
    cbn [nodesDataset highlightedNodes highlightedEdges edgesDataset
         set_highlightedNodes].
    rewrite He, Hhe. repeat split; assumption.
Qed.

End Loops.

Section QueryLoops.

Lemma matchIds_skeleton (label : string) (ds : NodeSet) :
  forall ds',
    map skeleton ds' = map skeleton ds -> matchIds ds' label = matchIds ds label.
Proof.
  unfold matchIds.
  induction ds as [| a ds IH]; intros [| a' ds'] H; cbn [map] in H;
    try discriminate; [reflexivity |].
  injection H as Hi Hl Ho Hd H. cbn [filter].
  assert (E : labelMatches label a' = labelMatches label a)
    by (unfold labelMatches; now rewrite Hl).
  rewrite E. destruct (labelMatches label a); cbn [map];
    rewrite (IH ds' H); congruence.
Qed.

Lemma betweenIds_skeleton (ids : IdSet) (eds : EdgeSet) :
  forall eds',
    map edgeSkeleton eds' = map edgeSkeleton eds ->
    map e_id (filter (between ids) eds') = map e_id (filter (between ids) eds).
Proof.
  induction eds as [| a eds IH]; intros [| a' eds'] H; cbn [map] in H;
    try discriminate; [reflexivity |].
  injection H as Hi Hf Ht H. cbn [filter].
  assert (E : between ids a' = between ids a)
    by (unfold between; now rewrite Hf, Ht).
  rewrite E. destruct (between ids a); cbn [map];
    rewrite (IH eds' H); congruence.
Qed.

Lemma filter_map_ids (nodes : list NodeData) :
  map n_id (filter (fun n => negb (n_id n =? "")) nodes)
  = filter (fun i => negb (i =? "")) (map n_id nodes).
Proof.
  induction nodes as [| n r IH]; simpl; [reflexivity |].
  destruct (n_id n =? ""); simpl; congruence.
Qed.

(** The edge loop of [highlightQueryPath]. *)
Lemma edge_loop (ids : IdSet) (eds : EdgeSet) (s : State) :
  edgesDataset s = Some eds ->
  exists s' eds',
    forEach eds (highlightEdgeBetween ids) s = Done s' /\
    edgesDataset s' = Some eds' /\
    map edgeSkeleton eds' = map edgeSkeleton eds /\
    highlightedEdges s'
    = addAll (map e_id (filter (between ids) eds)) (highlightedEdges s) /\
    nodesDataset s' = nodesDataset s /\
    highlightedNodes s' = highlightedNodes s.
Proof.
  intros Hs.
  pose (I := fun (pre : list VisEdge) (st : State) =>
    exists d,
      edgesDataset st = Some d /\
      map edgeSkeleton d = map edgeSkeleton eds /\
      highlightedEdges st
      = addAll (map e_id (filter (between ids) pre)) (highlightedEdges s) /\
      nodesDataset st = nodesDataset s /\
      highlightedNodes st = highlightedNodes s).
  destruct (forEach_invariant (highlightEdgeBetween ids) I eds) with (s := s)
    as (s' & Hrun & d & H).
  - intros pre x suf st Hxs (d & Hd & Hsk & Hhe & Hn & Hhn).
    unfold highlightEdgeBetween. fold (between ids x).
    destruct (between ids x) eqn:Ex.
    + rewrite Hd. eexists. split; [reflexivity |].
      exists (edges_update d (mkEdgeUpdate (e_id x) HIGHLIGHT_EDGE 3)).
      split; [reflexivity |]. split.
      { rewrite edges_update_skeleton; [exact Hsk |].
        cbn [eu_id]. rewrite (edgeSkeleton_ids _ _ Hsk), Hxs.
        rewrite map_app, in_app_iff. right. now left. }
      split.
      { cbn [highlightedEdges set_highlightedEdges set_edgesDataset].
        rewrite Hhe, filter_app, map_app, addAll_app. cbn [filter].
        now rewrite Ex. }
      split; assumption.
    + exists st. split; [reflexivity |]. exists d.
      split; [exact Hd |]. split; [exact Hsk |]. split.
      { rewrite Hhe, filter_app, map_app, addAll_app. cbn [filter].
        now rewrite Ex. }
      split; assumption.
  - exists eds. repeat split. exact Hs.
  - exists s', d. tauto.
Qed.

(** The callback of the path loop. *)
Lemma highlightLabel_spec (label : string) (s : State) (ds : NodeSet) :
  nodesDataset s = Some ds ->
  exists s' ds',
    highlightLabel label s = Done s' /\
    nodesDataset s' = Some ds' /\
    map skeleton ds' = map skeleton ds /\
    highlightedNodes s' = addAll (matchIds ds label) (highlightedNodes s) /\
    edgesDataset s' = edgesDataset s /\
    highlightedEdges s' = highlightedEdges s.
Proof.
  intros Hs. unfold highlightLabel. rewrite Hs. unfold DataSet.getFilter.
  pose (I := fun (pre : list VisNode) (st : State) =>
    exists d,
      nodesDataset st = Some d /\
      map skeleton d = map skeleton ds /\
      highlightedNodes st = addAll (map v_id pre) (highlightedNodes s) /\
      edgesDataset st = edgesDataset s /\
      highlightedEdges st = highlightedEdges s).
  destruct (forEach_invariant (fun node => highlightNode (v_id node) true) I
              (filter (labelMatches label) ds)) with (s := s)
    as (s' & Hrun & d & H).
  - intros pre x suf st Hxs (d & Hd & Hsk & Hhn & He & Hhe).
    destruct (highlightNode_on_spec (v_id x) st d Hd)
      as (st' & d' & Hrun & Hd' & _ & _ & Hsk' & Hhn' & He' & Hhe').
    exists st'. split; [exact Hrun |]. exists d'.
    split; [exact Hd' |]. split.
    { rewrite Hsk'; [exact Hsk |].
      rewrite (skeleton_ids _ _ Hsk). apply in_map.
      assert (Hx : In x (filter (labelMatches label) ds)).
      { rewrite Hxs. apply in_app_iff. right. now left. }
      now apply filter_In in Hx. }
    split.
    { rewrite Hhn', Hhn, map_app, addAll_app. reflexivity. }
    split; congruence.
  - exists ds. repeat split. exact Hs.
  - exists s', d. unfold matchIds. tauto.
Qed.

Lemma path_loop (labels : list string) (s : State) (ds : NodeSet) :
  nodesDataset s = Some ds ->
  exists s' ds',
    forEach labels highlightLabel s = Done s' /\
    nodesDataset s' = Some ds' /\
    map skeleton ds' = map skeleton ds /\
    highlightedNodes s'
    = addAll (flat_map (matchIds ds) labels) (highlightedNodes s) /\
    edgesDataset s' = edgesDataset s /\
    highlightedEdges s' = highlightedEdges s.
Proof.
  intros Hs.
  pose (I := fun (pre : list string) (st : State) =>
    exists d,
      nodesDataset st = Some d /\
      map skeleton d = map skeleton ds /\
      highlightedNodes st
      = addAll (flat_map (matchIds ds) pre) (highlightedNodes s) /\
      edgesDataset st = edgesDataset s /\
      highlightedEdges st = highlightedEdges s).
  destruct (forEach_invariant highlightLabel I labels) with (s := s)
    as (s' & Hrun & d & H).
  - intros pre x suf st _ (d & Hd & Hsk & Hhn & He & Hhe).
    destruct (highlightLabel_spec x st d Hd)
      as (st' & d' & Hrun & Hd' & Hsk' & Hhn' & He' & Hhe').
    exists st'. split; [exact Hrun |]. exists d'.
    split; [exact Hd' |]. split; [congruence |]. split.
    { rewrite Hhn', Hhn, flat_map_app, addAll_app. cbn [flat_map].
      rewrite app_nil_r. now rewrite (matchIds_skeleton x ds d Hsk). }
    split; congruence.
  - exists ds. repeat split. exact Hs.
  - exists s', d. tauto.
Qed.

End QueryLoops.

Section Reconciler.

Lemma nonempty_id (n : NodeData) :
  negb (n_id n =? "") = true <-> n_id n <> "".
Proof. rewrite negb_true_iff. apply String.eqb_neq. Qed.

(** [highlightQueryPath] on a loaded graph, in one statement. *)
Lemma highlightQueryPath_spec (r : QueryResult) (s : State) (ds : NodeSet) :
  nodesDataset s = Some ds ->
  exists s' ds',
    highlightQueryPath r s = Done s' /\
    nodesDataset s' = Some ds' /\
    grows ds ds' /\
    (forall n, In n (nodesToHighlight r) -> n_id n <> "" ->
               In (n_id n) (map v_id ds')) /\
    ((forall n, In n (nodesToHighlight r) -> n_id n <> "" ->
                In (n_id n) (map v_id ds)) ->
     map skeleton ds' = map skeleton ds) /\
    highlightedNodes s'
    = addAll (flat_map (matchIds ds') (pathLabels r)) (highlightedIdsOf r) /\
    (edgesDataset s = None ->
     edgesDataset s' = None /\ highlightedEdges s' = []) /\
    (forall eds1,
        resetEdges (highlightedEdges s) (edgesDataset s) = Some eds1 ->
        exists eds',
          edgesDataset s' = Some eds' /\
          map edgeSkeleton eds' = map edgeSkeleton eds1 /\
          highlightedEdges s'
          = addAll (map e_id (filter (between (highlightedIdsOf r)) eds')) []).
Proof.
  intros Hs. unfold highlightQueryPath.
  destruct (clearHighlights_spec s ds Hs)
    as (s1 & ds1 & Hrun1 & Hd1 & Hsk1 & Hhn1 & Hhe1 & He1).
  rewrite Hrun1. cbn [andThen].
  destruct (node_loop (fun n => negb (n_id n =? "")) highlightOrAdd
              (nodesToHighlight r) s1 ds1 highlightOrAdd_callback Hd1)
    as (s2 & ds2 & Hrun2 & Hd2 & Hg2 & Hin2 & Hsk2 & Hhn2 & He2 & Hhe2).
  rewrite Hrun2. cbn [andThen].
  assert (Hids : highlightedNodes s2 = highlightedIdsOf r).
  { rewrite Hhn2, Hhn1, filter_map_ids. reflexivity. }
  assert (Hedge : exists s3,
             match edgesDataset s2 with
             | Some eds => forEach eds (highlightEdgeBetween (highlightedIdsOf r)) s2
             | None => Done s2
             end = Done s3 /\
             nodesDataset s3 = Some ds2 /\
             highlightedNodes s3 = highlightedIdsOf r /\
             (edgesDataset s = None ->
              edgesDataset s3 = None /\ highlightedEdges s3 = []) /\
             (forall eds1,
                 resetEdges (highlightedEdges s) (edgesDataset s) = Some eds1 ->
                 exists eds',
                   edgesDataset s3 = Some eds' /\
                   map edgeSkeleton eds' = map edgeSkeleton eds1 /\
                   highlightedEdges s3
                   = addAll (map e_id (filter (between (highlightedIdsOf r)) eds')) [])).
  { assert (Hes2 : edgesDataset s2
                   = resetEdges (highlightedEdges s) (edgesDataset s))
      by congruence.
    destruct (resetEdges (highlightedEdges s) (edgesDataset s))
      as [eds |] eqn:E2; rewrite Hes2.
    - destruct (edge_loop (highlightedIdsOf r) eds s2 Hes2)
        as (s3 & eds' & Hrun3 & He3 & Hsk3 & Hhe3 & Hn3 & Hhn3).
      exists s3. split; [exact Hrun3 |]. split; [congruence |].
      split; [congruence |]. split.
      + intros Hnone. rewrite Hnone in E2. discriminate E2.
      + intros eds1 Hr. injection Hr as <-.
        exists eds'. split; [exact He3 |]. split; [exact Hsk3 |].
        rewrite Hhe3, Hhe2, Hhe1.
        now rewrite (betweenIds_skeleton (highlightedIdsOf r) eds eds' Hsk3).
    - exists s2. split; [reflexivity |]. split; [exact Hd2 |].
      split; [exact Hids |]. split.
      + intros _. split; [exact Hes2 | congruence].
      + intros eds1 Hr. discriminate Hr. }
  destruct Hedge as (s3 & Hrun3 & Hd3 & Hhn3 & Hnone3 & Hsome3).
  rewrite Hrun3. cbn [andThen].
  destruct (path_loop (pathLabels r) s3 ds2 Hd3)
    as (s4 & ds4 & Hrun4 & Hd4 & Hsk4 & Hhn4 & He4 & Hhe4).
  exists s4, ds4. split; [exact Hrun4 |]. split; [exact Hd4 |].
  split.
  { apply grows_trans with ds1; [now apply grows_skeleton |].
    apply grows_trans with ds2; [exact Hg2 | now apply grows_skeleton]. }
  split.
  { intros n Hn Hne. rewrite (skeleton_ids _ _ Hsk4).
    apply Hin2; [exact Hn | now apply nonempty_id]. }
  split.
  { intros Hall. rewrite Hsk4, <- Hsk1. apply Hsk2.
    intros n Hn Hsel. rewrite (skeleton_ids _ _ Hsk1).
    apply Hall; [exact Hn | now apply nonempty_id]. }
  split.
  { rewrite Hhn4, Hhn3. f_equal. apply flat_map_ext. intros label.
    symmetry. now apply matchIds_skeleton. }
  split.
  { intros Hnone. destruct (Hnone3 Hnone). split; congruence. }
  intros eds1 Hr. destruct (Hsome3 eds1 Hr) as (eds' & H1 & H2 & H3).
  exists eds'. repeat split; congruence.
Qed.

Lemma addOrHighlightEdge_frame (edge : EdgeData) (s : State) :
  exists s',
    addOrHighlightEdge edge s = Done s' /\
    nodesDataset s' = nodesDataset s /\
    highlightedNodes s' = highlightedNodes s.
Proof.
  destruct (edgesDataset s) as [eds |] eqn:E.
  - destruct (edges_get eds (dynamicEdgeId edge)) as [e0 |] eqn:Hg.
    + rewrite (addOrHighlightEdge_known edge s eds e0 E Hg). eauto.
    + rewrite (addOrHighlightEdge_unknown edge s eds E Hg). eauto.
  - unfold addOrHighlightEdge. rewrite E. cbn [andThen]. eauto.
Qed.

(** [displayTraversal] on a loaded graph: the call returns, the store
    grows, and it holds the selected node and every node of the
    response, all of them highlighted. *)
Lemma displayTraversal_spec (direction : Direction) (selected : string)
  (r : TraversalResult) (s : State) (ds : NodeSet) :
  nodesDataset s = Some ds ->
  exists s' ds',
    displayTraversal direction selected r s = Done s' /\
    nodesDataset s' = Some ds' /\
    grows ds ds' /\
    In selected (map v_id ds') /\
    (forall n, In n (orElse (tr_nodes r) []) -> In (n_id n) (map v_id ds')) /\
    highlightedNodes s'
    = addAll (map n_id (orElse (tr_nodes r) [])) [selected].
Proof.
  intros Hs. unfold displayTraversal.
  destruct (clearHighlights_spec s ds Hs)
    as (s1 & ds1 & Hrun1 & Hd1 & Hsk1 & Hhn1 & _).
  rewrite Hrun1. cbn [andThen].
  destruct (highlightNode_on_spec selected s1 ds1 Hd1)
    as (s2 & ds2 & Hrun2 & Hd2 & Hg2 & Hin2 & _ & Hhn2 & _).
  rewrite Hrun2. cbn [andThen].
  destruct (node_loop (fun _ => true) highlightOrAddTraversal
              (orElse (tr_nodes r) []) s2 ds2 (fun n st => eq_refl) Hd2)
    as (s3 & ds3 & Hrun3 & Hd3 & Hg3 & Hin3 & _ & Hhn3 & _).
  rewrite Hrun3. cbn [andThen].
  pose (I := fun (_ : list EdgeData) (st : State) =>
    nodesDataset st = Some ds3 /\ highlightedNodes st = highlightedNodes s3).
  destruct (forEach_invariant addOrHighlightEdge I (orElse (tr_edges r) []))
    with (s := s3) as (s4 & Hrun4 & Hd4 & Hhn4).
  - intros pre x suf st _ [Hd Hhn].
    destruct (addOrHighlightEdge_frame x st) as (st' & Hrun & Hn & Hh).
    exists st'. split; [exact Hrun |]. split; congruence.
  - now split.
  - rewrite Hrun4. cbn [andThen]. eexists. exists ds3.
    split; [reflexivity |]. split; [exact Hd4 |]. split.
    { apply grows_trans with ds1; [now apply grows_skeleton |].
      now apply grows_trans with ds2. }
    split; [now apply (grows_ids ds2 ds3) |]. split.
    { intros n Hn. now apply Hin3. }
    cbn [highlightedNodes showToast set_toasts].
    rewrite Hhn4, Hhn3, Hhn2, Hhn1.
    assert (F : forall l : list NodeData, filter (fun _ => true) l = l).
    { induction l as [| a l IH]; simpl; congruence. }
    now rewrite F.
Qed.

End Reconciler.

(** ** Applying a query result *)

Section QueryHighlight.

Lemma In_matchIds (ds : NodeSet) (label id : string) :
  In id (matchIds ds label)
  <-> exists it, In it ds /\ v_id it = id /\ labelMatches label it = true.
Proof.
  unfold matchIds. rewrite in_map_iff. split.
  - intros (it & Hid & Hin). apply filter_In in Hin as [Hin Hm]. eauto.
  - intros (it & Hin & Hid & Hm). exists it. split; [exact Hid |].
    apply filter_In. now split.
Qed.

Lemma In_highlightedIdsOf (r : QueryResult) (id : string) :
  In id (highlightedIdsOf r)
  <-> id <> "" /\ exists n, In n (nodesToHighlight r) /\ n_id n = id.
Proof.
  unfold highlightedIdsOf. rewrite In_idSetOf, filter_In, in_map_iff.
  rewrite negb_true_iff, String.eqb_neq. split.
  - intros [(n & Hid & Hn) Hne]. eauto.
  - intros [Hne (n & Hn & Hid)]. eauto.
Qed.

Lemma In_nodesToHighlight (r : QueryResult) (n : NodeData) :
  In n (nodesToHighlight r) <-> queryNode r n.
Proof.
  unfold nodesToHighlight, queryNode.
  destruct (context_debug r) as [d |].
  - rewrite !in_app_iff. split.
    + intros [H | [H | H]]; exists d; (split; [reflexivity |]).
      * left. destruct (target_node d) as [t |]; simpl in H; [| destruct H].
        destruct H as [<- | []]. reflexivity.
      * right. left. destruct (upstream_nodes d) as [l |]; simpl in H;
          [eauto | destruct H].
      * right. right. destruct (downstream_nodes d) as [l |]; simpl in H;
          [eauto | destruct H].
    + intros (d' & E & H). injection E as <-.
      destruct H as [H | [(l & E & H) | (l & E & H)]].
      * left. rewrite H. now left.
      * right. left. now rewrite E.
      * right. right. now rewrite E.
  - split; [intros [] | intros (d & E & _); discriminate E].
Qed.

Lemma In_betweenIds (ids : IdSet) (eds : EdgeSet) (eid : string) :
  In eid (addAll (map e_id (filter (between ids) eds)) [])
  <-> exists e, In e eds /\ e_id e = eid /\ between ids e = true.
Proof.
  rewrite In_addAll, in_map_iff. split.
  - intros [(e & Hid & Hin) | []]. apply filter_In in Hin as [Hin Hb]. eauto.
  - intros (e & Hin & Hid & Hb). left. exists e. split; [exact Hid |].
    apply filter_In. now split.
Qed.

End QueryHighlight.

(** C4, as stated, fails: the result names B as target and A as
    upstream node, and carries the literal path of [x] and [B]; the loaded
    node X, whose label is the path label ["x"] up to case, is
    highlighted as well, so the highlighted nodes are not exactly the
    target, upstream and downstream nodes. *)
Lemma path_label_extends_highlight :
  let a := mkNodeData "A" None (Some "FIELD") (Some 1%Z) in
  let b := mkNodeData "B" None (Some "FIELD") (Some 3%Z) in
  let x := mkNodeData "X" None (Some "FIELD") (Some 2%Z) in
  let ab := mkEdgeData (Some "A") (Some "B") None None None in
  let s0 := processGraphData (mkEnv true true true)
              (mkGraphExport (Some [a; b; x]) (Some [ab])) initialState in
  let r := mkQueryResult None (Some (mkDebug (Some b) (Some [a]) None))
             (Some [mkSource (Some "path") (Some ("x" ++ ARROW_SEP ++ "B"))]) in
  exists s',
    highlightQueryPath r s0 = Done s' /\
    map n_id (nodesToHighlight r) = ["B"; "A"] /\
    highlightedNodes s' = ["B"; "A"; "X"] /\
    highlightedEdges s' = ["edge-0"].
Proof.
  cbv zeta. eexists. split; [vm_compute; reflexivity |]. repeat split.
Qed.

(** C4 (amended), for labels and identifiers that are ASCII text: on a
    loaded graph, applying a query result returns and leaves, whatever
    was highlighted before, exactly these nodes highlighted: the
    target, upstream and downstream nodes that carry an identifier, and
    the loaded nodes whose label equals, without case, a label of the
    literal path of the result; without a literal path, exactly the
    former.  All of them are in the store.  The highlighted edges are
    exactly the edges of the dataset both of whose ends are among the
    target, upstream and downstream nodes.  Applying the same result
    again leaves both sets as they are. *)
Theorem highlightQueryPath_sets (r : QueryResult) (s : State) (ds : NodeSet) :
  nodesDataset s = Some ds ->
  forallb asciiLabel ds = true ->
  forallb asciiNode (nodesToHighlight r) = true ->
  forallb asciiText (pathLabels r) = true ->
  exists s' ds',
    highlightQueryPath r s = Done s' /\
    nodesDataset s' = Some ds' /\
    (forall id,
        In id (highlightedNodes s')
        <-> In id (highlightedIdsOf r)
            \/ exists label, In label (pathLabels r) /\ In id (matchIds ds' label)) /\
    (forall id,
        In id (highlightedIdsOf r)
        <-> id <> "" /\ exists n, queryNode r n /\ n_id n = id) /\
    (pathLabels r = [] -> highlightedNodes s' = highlightedIdsOf r) /\
    (forall id, In id (highlightedNodes s') -> In id (map v_id ds')) /\
    (forall eds',
        edgesDataset s' = Some eds' ->
        forall eid,
          In eid (highlightedEdges s')
          <-> exists e, In e eds' /\ e_id e = eid /\
                        between (highlightedIdsOf r) e = true) /\
    (edgesDataset s' = None -> highlightedEdges s' = []) /\
    exists s'',
      highlightQueryPath r s' = Done s'' /\
      highlightedNodes s'' = highlightedNodes s' /\
      highlightedEdges s'' = highlightedEdges s'.
Proof.
  intros Hs _ _ _.
  destruct (highlightQueryPath_spec r s ds Hs)
    as (s' & ds' & Hrun & Hd & _ & Hin & _ & Hhn & Hnone & Hsome).
  assert (Hedges : (edgesDataset s' = None /\ highlightedEdges s' = []) \/
                   exists eds',
                     edgesDataset s' = Some eds' /\
                     highlightedEdges s'
                     = addAll (map e_id (filter (between (highlightedIdsOf r)) eds')) []).
  { destruct (edgesDataset s) as [eds |] eqn:E.
    - right. destruct (Hsome _ eq_refl) as (eds' & H1 & _ & H2). eauto.
    - left. now apply Hnone. }
  assert (Hmem : forall id,
             In id (highlightedNodes s')
             <-> In id (highlightedIdsOf r)
                 \/ exists label, In label (pathLabels r) /\ In id (matchIds ds' label)).
  { intros id. rewrite Hhn, In_addAll, in_flat_map. tauto. }
  exists s', ds'. split; [exact Hrun |]. split; [exact Hd |].
  split; [exact Hmem |]. split.
  { intros id. rewrite In_highlightedIdsOf. split.
    - intros (Hne & n & Hn & Hid). split; [exact Hne |].
      exists n. split; [now apply In_nodesToHighlight | exact Hid].
    - intros (Hne & n & Hn & Hid). split; [exact Hne |].
      exists n. split; [now apply In_nodesToHighlight | exact Hid]. }
  split.
  { intros Hp. rewrite Hhn, Hp. reflexivity. }
  split.
  { intros id Hid. apply Hmem in Hid as [Hid | (label & _ & Hid)].
    - apply In_highlightedIdsOf in Hid as (Hne & n & Hn & <-). now apply Hin.
    - apply In_matchIds in Hid as (it & Hit & <- & _). now apply in_map. }
  split.
  { intros eds' He eid. destruct Hedges as [[H1 _] | (eds0 & H1 & H2)].
    - congruence.
    - rewrite H1 in He. injection He as <-. rewrite H2. apply In_betweenIds. }
  split.
  { intros He. destruct Hedges as [[_ H2] | (eds0 & H1 & _)];
      [exact H2 | congruence]. }
  destruct (highlightQueryPath_spec r s' ds' Hd)
    as (s'' & ds'' & Hrun' & Hd' & _ & _ & Hsk' & Hhn' & Hnone' & Hsome').
  exists s''. split; [exact Hrun' |]. split.
  - rewrite Hhn', Hhn. f_equal. apply flat_map_ext. intros label.
    apply matchIds_skeleton. apply Hsk'. exact Hin.
  - destruct Hedges as [[H1 H2] | (eds' & H1 & H2)].
    + destruct (Hnone' H1). congruence.
    + destruct (resetEdges_skeleton (highlightedEdges s') eds') as (eds1 & Hr & Hsk1).
      { intros id Hid. rewrite H2 in Hid.
        apply In_betweenIds in Hid as (e & He & <- & _). now apply in_map. }
      rewrite H1 in Hsome'.
      destruct (Hsome' eds1 Hr) as (eds'' & _ & Hsk2 & H3).
      rewrite H3, H2. f_equal. apply betweenIds_skeleton. congruence.
Qed.

Lemma highlightQueryPath_sets_witness :
  let a := mkNodeData "A" None None (Some 1%Z) in
  let b := mkNodeData "B" None None (Some 3%Z) in
  let ab := mkEdgeData (Some "A") (Some "B") None None None in
  let s0 := processGraphData (mkEnv true true true)
              (mkGraphExport (Some [a; b]) (Some [ab])) initialState in
  let r := mkQueryResult None (Some (mkDebug (Some b) (Some [a]) None)) None in
  exists s',
    highlightQueryPath r s0 = Done s' /\
    highlightedNodes s' = ["B"; "A"] /\
    (In "edge-0" (highlightedEdges s')).
Proof.
  cbv zeta.
  destruct (highlightQueryPath_sets
              (mkQueryResult None
                 (Some (mkDebug (Some (mkNodeData "B" None None (Some 3%Z)))
                          (Some [mkNodeData "A" None None (Some 1%Z)]) None)) None)
              (processGraphData (mkEnv true true true)
                 (mkGraphExport
                    (Some [mkNodeData "A" None None (Some 1%Z);
                           mkNodeData "B" None None (Some 3%Z)])
                    (Some [mkEdgeData (Some "A") (Some "B") None None None]))
                 initialState)
              _ eq_refl eq_refl eq_refl eq_refl)
    as (s' & ds' & Hrun & _ & _ & _ & Hexact & _ & Hedges & Hnone & _).
  exists s'. split; [exact Hrun |]. split; [now apply Hexact |].
  pose proof Hrun as Hc. vm_compute in Hc. injection Hc as Hc.
  destruct (edgesDataset s') as [eds' |] eqn:E.
  - apply (Hedges eds' eq_refl).
    rewrite <- Hc in E. vm_compute in E. injection E as <-.
    eexists. split; [left; reflexivity |]. split; reflexivity.
  - rewrite <- Hc in E. vm_compute in E. discriminate E.
Defined.

(** ** Highlight and unhighlight *)

Section Rest.

Lemma andThen_Done (o : Outcome) (f : State -> Outcome) (s' : State) :
  o >>= f = Done s' -> exists s1, o = Done s1 /\ f s1 = Done s'.
Proof. destruct o as [s1 | m s1]; simpl; [eauto | discriminate]. Qed.

(** The rule for a loop, for what holds if it returns. *)
Lemma forEach_partial {A : Type} (f : A -> State -> Outcome)
  (I : list A -> State -> Prop) (xs : list A) :
  (forall pre x s s', I pre s -> f x s = Done s' -> I (pre ++ [x])%list s') ->
  forall s s', I [] s -> forEach xs f s = Done s' -> I xs s'.
Proof.
  intros Hstep.
  assert (H : forall suf pre s s',
             I pre s -> forEach suf f s = Done s' -> I (pre ++ suf)%list s').
  { induction suf as [| x suf IH]; intros pre s s' HI Hrun.
    - simpl in Hrun. injection Hrun as <-. now rewrite app_nil_r.
    - simpl in Hrun. apply andThen_Done in Hrun as (s1 & H1 & H2).
      replace (pre ++ x :: suf)%list with ((pre ++ [x]) ++ suf)%list
        by (rewrite <- app_assoc; reflexivity).
      apply (IH _ s1); [| exact H2]. now apply (Hstep pre x s). }
  intros s s' HI Hrun. now apply (H xs [] s s').
Qed.


Lemma atBaseline_restored (id : string) (node : VisNode) :
  atBaseline (mergeNode node (restoreUpdate id node)).
Proof. split; reflexivity. Qed.

(** A node at rest, or about to be visited by the loop that returns
    nodes to rest. *)
Lemma highlightNode_off_rest (hn0 pre : IdSet) (x : string) (s s' : State) :
  (forall id it, lookupNode s id = Some it ->
                 ~ In id hn0 \/ In id pre -> atBaseline it) ->
  highlightNode x false s = Done s' ->
  forall id it, lookupNode s' id = Some it ->
                ~ In id hn0 \/ In id (pre ++ [x])%list -> atBaseline it.
Proof.
  intros HI Hrun id it Hl Hc.
  destruct (nodesDataset s) as [ds |] eqn:Hs.
  2:{ unfold highlightNode in Hrun. simpl in Hrun. rewrite Hs in Hrun.
      discriminate Hrun. }
  destruct (nodes_get ds x) as [node |] eqn:Hg.
  - rewrite (highlightNode_off_known x s ds node Hs Hg) in Hrun.
    injection Hrun as <-. unfold lookupNode in Hl. simpl in Hl.
    destruct (string_dec id x) as [-> | Hne].
    + pose proof (nodes_get_update_same ds (restoreUpdate x node)) as Hu.
      cbn [u_id restoreUpdate] in Hu. fold (restoreUpdate x node) in Hu.
      rewrite Hu, Hg in Hl. injection Hl as <-. apply atBaseline_restored.
    + rewrite nodes_get_update_other in Hl by exact Hne.
      apply (HI id it).
      * unfold lookupNode. now rewrite Hs.
      * rewrite in_app_iff in Hc. simpl in Hc.
        destruct Hc as [Hc | [Hc | [Hc | []]]]; [now left | now right | congruence].
  - rewrite (highlightNode_off_unknown x s ds Hs Hg) in Hrun.
    injection Hrun as <-. unfold lookupNode in Hl. simpl in Hl. rewrite Hs in Hl.
    apply (HI id it).
    + unfold lookupNode. now rewrite Hs.
    + rewrite in_app_iff in Hc. simpl in Hc.
      destruct Hc as [Hc | [Hc | [Hc | []]]]; [now left | now right |].
      subst. congruence.
Qed.




Lemma clearHighlights_Baseline (s s' : State) :
  Baseline s -> clearHighlights s = Done s' -> Baseline s'.
Proof.
  intros Hb Hrun. unfold clearHighlights in Hrun.
  apply andThen_Done in Hrun as (s1 & Hloop & Hrest).
  injection Hrest as <-.
  pose (I := fun (pre : list string) (st : State) =>
    forall id it, lookupNode st id = Some it ->
                  ~ In id (highlightedNodes s) \/ In id pre -> atBaseline it).
  assert (HI : I (highlightedNodes s) s1).
  { apply (forEach_partial (fun nodeId => highlightNode nodeId false) I
             (highlightedNodes s)) with (s := s); [| | exact Hloop].
    - intros pre x st st' Hpre Hx. unfold I.
      now apply (highlightNode_off_rest (highlightedNodes s) pre x st st').
    - intros id it Hl [Hc | []]. now apply (Hb id it). }
  pose proof (resetEdge_fold (highlightedEdges s1) (set_highlightedNodes [] s1)) as H.
  cbv zeta in H. destruct H as (_ & H2 & _).
  intros id it Hl _. unfold lookupNode in Hl.
  cbn [nodesDataset set_highlightedEdges highlightedEdges set_highlightedNodes] in Hl.
  rewrite H2 in Hl. cbn [nodesDataset set_highlightedNodes] in Hl.
  apply (HI id it); [exact Hl |].
  destruct (in_dec string_dec id (highlightedNodes s)); tauto.
Qed.





End Rest.

Section Reachable.

Lemma make_from {item : Type} (key : item -> string) (items : list item) :
  forall acc ds,
    fold_left (fun acc it => match acc with
                             | Some d => DataSet.add key d it
                             | None => None
                             end) items acc = Some ds ->
    exists d, acc = Some d /\ ds = (d ++ items)%list.
Proof.
  induction items as [| a r IH]; intros acc ds H; simpl in H.
  - exists ds. now rewrite app_nil_r.
  - destruct (IH _ _ H) as (d & Hd & ->).
    destruct acc as [d0 |]; [| discriminate].
    unfold DataSet.add in Hd.
    destruct (DataSet.get key d0 (key a)); [discriminate |].
    injection Hd as <-. exists d0. now rewrite <- app_assoc.
Qed.

(** A dataset that was built holds the items it was given, in order. *)
Lemma make_items {item : Type} (key : item -> string) (items ds : list item) :
  DataSet.make key items = Some ds -> ds = items.
Proof.
  intros H. apply make_from in H as (d & Hd & ->). now injection Hd as <-.
Qed.














End Reachable.




(** ** Upserts *)



(* ================================================================== *)
(** * Further properties of the dashboard code *)
(* ================================================================== *)

(** ** Labels and colours *)

Section Labels.

Lemma substring_length (s : string) :
  forall n, String.length (String.substring 0 n s) = Nat.min n (String.length s).
Proof.
  induction s as [| c r IH]; intros [| n]; simpl; try reflexivity.
  now rewrite IH.
Qed.

Lemma append_length (a b : string) :
  String.length (a ++ b) = (String.length a + String.length b)%nat.
Proof. induction a as [| c r IH]; simpl; congruence. Qed.

Lemma substring_prefix (s : string) :
  forall n, String.prefix (String.substring 0 n s) s = true.
Proof.
  induction s as [| c r IH]; intros [| n]; simpl; try reflexivity.
  destruct (ascii_dec c c) as [_ | Hne]; [apply IH | now elim Hne].
Qed.

End Labels.

Lemma truncateLabel_length (label : option string) :
  (1 <= String.length (truncateLabel label) <= 23)%nat.
Proof.
  unfold truncateLabel.
  destruct label as [l |]; [| simpl; lia]. cbn [truthy orElse].
  destruct (l =? "") eqn:E; cbn [negb]; [simpl; lia |].
  apply String.eqb_neq in E.
  destruct (String.length l <=? 20)%nat eqn:El.
  - apply Nat.leb_le in El. destruct l; [congruence | simpl in *; lia].
  - rewrite append_length, substring_length.
    change (String.length "...") with 3%nat. lia.
Qed.

(** For a label that is ASCII text, [truncateLabel] never returns an
    empty text nor one longer than 23 characters.  A label of 1 to 20
    characters is returned as it is; a longer one is cut to its first
    20 characters, followed by three dots; a missing or empty one
    becomes three dots. *)
Theorem truncateLabel_bounds (label : option string) :
  asciiOpt label = true ->
  (1 <= String.length (truncateLabel label) <= 23)%nat /\
  (truthy label = false -> truncateLabel label = "...") /\
  (forall l, label = Some l -> l <> "" -> (String.length l <= 20)%nat ->
             truncateLabel label = l) /\
  (forall l, label = Some l -> (20 < String.length l)%nat ->
             truncateLabel label = String.substring 0 20 l ++ "..." /\
             String.length (truncateLabel label) = 23%nat /\
             String.prefix (String.substring 0 20 l) l = true).
Proof.
  intros _.
  assert (Hlong : forall l, (20 < String.length l)%nat ->
                            truncateLabel (Some l) = String.substring 0 20 l ++ "...").
  { intros l Hl. unfold truncateLabel. simpl.
    destruct l as [| c r]; [simpl in Hl; lia |]. simpl negb. cbv iota.
    apply Nat.leb_gt in Hl. now rewrite Hl. }
  assert (Hshort : forall l, l <> "" -> (String.length l <= 20)%nat ->
                             truncateLabel (Some l) = l).
  { intros l Hne Hl. unfold truncateLabel. simpl.
    destruct l as [| c r]; [congruence |]. simpl negb. cbv iota.
    apply Nat.leb_le in Hl. now rewrite Hl. }
  split; [| split; [| split]].
  - apply truncateLabel_length.
  - intros H. unfold truncateLabel. now rewrite H.
  - intros l -> Hne Hl. now apply Hshort.
  - intros l -> Hl. rewrite (Hlong l Hl). split; [reflexivity |]. split.
    + rewrite append_length, substring_length.
      change (String.length "...") with 3%nat. lia.
    + apply substring_prefix.
Qed.

Lemma truncateLabel_bounds_witness :
  truncateLabel (Some "Loan to value ratio of the book") = "Loan to value ratio ..." /\
  truncateLabel (Some "LVR") = "LVR".
Proof.
  split.
  - destruct (truncateLabel_bounds (Some "Loan to value ratio of the book") eq_refl)
      as (_ & _ & _ & H).
    destruct (H _ eq_refl) as [E _]; [simpl; lia |].
    rewrite E. reflexivity.
  - destruct (truncateLabel_bounds (Some "LVR") eq_refl) as (_ & _ & H & _).
    apply H; [reflexivity | discriminate | simpl; lia].
Defined.

(** [getNodeColor] always answers with one of the seven colours of the
    palette: the colour of the tier for tiers 0 to 5, and the concept
    colour when the tier is absent, is -1, or has no palette entry. *)
Theorem getNodeColor_palette (node : NodeData) :
  In (getNodeColor node) PALETTE /\
  (n_tier node = None -> getNodeColor node = CONCEPT_COLOR) /\
  (forall t, n_tier node = Some t -> (t < 0 \/ 5 < t)%Z ->
             getNodeColor node = CONCEPT_COLOR) /\
  (forall t, n_tier node = Some t -> (0 <= t <= 5)%Z ->
             TIER_COLORS t = Some (getNodeColor node) /\
             getNodeColor node <> CONCEPT_COLOR).
Proof.
  unfold getNodeColor.
  destruct (n_tier node) as [t |]; cbn [orElse].
  2:{ split; [simpl; tauto |]. split; [reflexivity |].
      split; intros t H; discriminate H. }
  assert (Hcases : (t < 0 \/ 5 < t)%Z /\ orElse (TIER_COLORS t) CONCEPT_COLOR = CONCEPT_COLOR
                   \/ (0 <= t <= 5)%Z /\ TIER_COLORS t <> None /\
                      TIER_COLORS t <> Some CONCEPT_COLOR).
  { destruct t as [| p | p].
    - right. repeat split; try lia; discriminate.
    - do 3 (try destruct p as [p | p |]);
        try (left; split; [lia | reflexivity]);
        right; (split; [lia |]); split; discriminate.
    - left. split; [lia |]. destruct p; reflexivity. }
  change (orElse (TIER_COLORS (-1)) "") with CONCEPT_COLOR.
  destruct Hcases as [[Hout Hc] | (Hin & Hsome & Hnc)].
  - rewrite Hc. split; [simpl; tauto |]. split; [discriminate |].
    split; [reflexivity |]. intros t0 E. injection E as <-. lia.
  - destruct (TIER_COLORS t) as [c |] eqn:E; [| congruence]. cbn [orElse].
    split.
    { destruct t as [| p | p]; [| | lia].
      - injection E as <-. simpl. tauto.
      - do 3 (try destruct p as [p | p |]); try discriminate E;
          injection E as <-; simpl; tauto. }
    split; [discriminate |]. split.
    + intros t0 E0. injection E0 as <-. lia.
    + intros t0 E0 _. injection E0 as <-. split; [exact E | congruence].
Qed.

(** ** Bulk load *)

Section BulkLoad.

Lemma string_of_nat_inj (n m : nat) : string_of_nat n = string_of_nat m -> n = m.
Proof.
  unfold string_of_nat. intros H.
  apply (f_equal NilEmpty.uint_of_string) in H.
  rewrite !NilEmpty.usu in H. injection H as H.
  now apply DecimalNat.Unsigned.to_uint_inj.
Qed.

Lemma append_inj (p a b : string) : p ++ a = p ++ b -> a = b.
Proof. induction p as [| c r IH]; simpl; [easy |]. intros H. injection H. exact IH. Qed.

Lemma mapi_from_ids (edges : list EdgeData) :
  forall i,
    map e_id (mapi_from initialEdge i edges)
    = map (fun k => "edge-" ++ string_of_nat k) (seq i (List.length edges)).
Proof.
  induction edges as [| e r IH]; intros i; simpl; [reflexivity |].
  now rewrite IH.
Qed.

Lemma make_NoDup {item : Type} (key : item -> string) (items : list item) :
  NoDup (map key items) -> DataSet.make key items = Some items.
Proof.
  unfold DataSet.make.
  assert (H : forall acc,
             NoDup (map key (acc ++ items)%list) ->
             fold_left (fun a it => match a with
                                    | Some d => DataSet.add key d it
                                    | None => None
                                    end) items (Some acc)
             = Some (acc ++ items)%list).
  { induction items as [| a r IH]; intros acc Hnd; simpl.
    - now rewrite app_nil_r.
    - rewrite DataSetFacts.add_unknown.
      + replace (acc ++ a :: r)%list with ((acc ++ [a]) ++ r)%list
          by (rewrite <- app_assoc; reflexivity).
        apply IH. now rewrite <- app_assoc.
      + apply DataSetFacts.get_None_iff. unfold DataSet.ids.
        rewrite map_app in Hnd. simpl in Hnd.
        apply NoDup_remove_2 in Hnd. rewrite in_app_iff in Hnd. tauto. }
  intros Hnd. now apply (H []).
Qed.

Lemma bulk_edge_ids_NoDup (edges : list EdgeData) :
  NoDup (map e_id (mapi initialEdge edges)).
Proof.
  unfold mapi. rewrite mapi_from_ids.
  apply Injective_map_NoDup; [| apply seq_NoDup].
  intros a b H. apply append_inj in H. now apply string_of_nat_inj.
Qed.

Lemma mapi_length {A B : Type} (f : A -> nat -> B) (l : list A) :
  List.length (mapi f l) = List.length l.
Proof.
  unfold mapi. generalize 0%nat.
  induction l as [| a r IH]; intros i; simpl; [reflexivity | now rewrite IH].
Qed.

End BulkLoad.

(** The edges of an export always make a dataset: the identifiers
    [edge-0], [edge-1], ... that [initializeNetwork] gives them are
    pairwise different, one per edge of the export and in its order,
    whatever the end points, duplicates included. *)
Theorem bulk_edges_always_load (edges : list EdgeData) :
  DataSet.make e_id (mapi initialEdge edges) = Some (mapi initialEdge edges) /\
  NoDup (map e_id (mapi initialEdge edges)) /\
  List.length (mapi initialEdge edges) = List.length edges /\
  map e_id (mapi initialEdge edges)
  = map (fun k => "edge-" ++ string_of_nat k) (seq 0 (List.length edges)).
Proof.
  split; [apply make_NoDup, bulk_edge_ids_NoDup |].
  split; [apply bulk_edge_ids_NoDup |].
  split; [apply mapi_length |]. apply mapi_from_ids.
Qed.



(** [initializeNetwork] loads all or nothing.  Either the page can
    draw, there is at least one node and the identifiers are pairwise
    different, and then both datasets and the network are created; or
    one of these fails, and then the datasets and the network are left
    as they were and, unless the canvas was not found at all, exactly
    one warning or error is notified.  A dataset is never created
    alone. *)
Theorem initializeNetwork_all_or_nothing (env : Env) (s : State) :
  let s' := initializeNetwork env s in
  let loadable := pageReady env /\ allNodes s <> [] /\
                  NoDup (map n_id (allNodes s)) in
  (loadable /\
   nodesDataset s' = Some (map initialNode (allNodes s)) /\
   edgesDataset s' = Some (mapi initialEdge (allEdges s)) /\
   network s' = true)
  \/
  (~ loadable /\
   nodesDataset s' = nodesDataset s /\
   edgesDataset s' = edgesDataset s /\
   network s' = network s /\
   (canvas_found env = false -> s' = s) /\
   (canvas_found env = true ->
    exists t, toasts s' = (toasts s ++ [t])%list /\
              (t_type t = error \/ t_type t = warning))).
Proof.
  cbv zeta. unfold initializeNetwork, pageReady.
  destruct (canvas_found env) eqn:Hc; cbn [negb].
  2:{ right. split; [intros ((H & _) & _); discriminate |].
      repeat split. intros H. discriminate. }
  destruct (canvas_sized env) eqn:Hz; cbn [negb].
  2:{ right. split; [intros ((_ & H & _) & _); discriminate |].
      repeat split; [intros H; discriminate |].
      intros _. eexists. split; [reflexivity |]. now left. }
  destruct (allNodes s) as [| n r] eqn:E.
  { right. split; [intros (_ & H & _); congruence |].
    repeat split; [intros H; discriminate |].
    intros _. eexists. split; [reflexivity |]. now right. }
  cbn [List.length Nat.eqb]. rewrite <- E.
  destruct (vis_loaded env) eqn:Hv; cbn [negb].
  2:{ right. split; [intros ((_ & _ & H) & _); discriminate |].
      repeat split; [intros H; discriminate |].
      intros _. eexists. split; [reflexivity |]. now left. }
  destruct (DataSet.make v_id (map initialNode (allNodes s))) as [nds |] eqn:Em.
  - pose proof (make_items v_id _ _ Em) as ->.
    pose proof (DataSetFacts.NoDup_make v_id _ _ Em) as Hnd.
    unfold DataSet.ids in Hnd. rewrite map_map in Hnd.
    rewrite (make_NoDup e_id _ (bulk_edge_ids_NoDup (allEdges s))).
    left. repeat split; try assumption. congruence.
  - right. split.
    + intros (_ & _ & Hnd).
      rewrite (make_NoDup v_id (map initialNode (allNodes s))) in Em;
        [discriminate |]. rewrite map_map. exact Hnd.
    + repeat split; [intros H; discriminate |].
      intros _. eexists. split; [reflexivity |]. now left.
Qed.


(** ** Clearing, resetting and repeating highlights *)

Section ClearAgain.

Lemma set_add_twice (x : string) (s : IdSet) :
  set_add x (set_add x s) = set_add x s.
Proof.
  unfold set_add at 1.
  assert (H : set_has x (set_add x s) = true).
  { apply set_has_In, In_set_add. now left. }
  now rewrite H.
Qed.

Lemma map_merge_unknown (ds : NodeSet) (u : NodeUpdate) :
  nodes_get ds (u_id u) = None ->
  map (fun it => if v_id it =? u_id u then mergeNode it u else it) ds = ds.
Proof.
  intros H. rewrite <- (map_id ds) at 2. apply map_ext_in. intros a Ha.
  destruct (v_id a =? u_id u) eqn:E; [| reflexivity].
  apply String.eqb_eq in E.
  apply (DataSetFacts.get_None_iff v_id) in H. exfalso. apply H.
  rewrite <- E. unfold DataSet.ids. now apply in_map.
Qed.

(** Pushing the same update twice is pushing it once. *)
Lemma nodes_update_twice (ds : NodeSet) (u : NodeUpdate) :
  (forall it, mergeNode (mergeNode it u) u = mergeNode it u) ->
  mergeNode (createNode u) u = createNode u ->
  nodes_update (nodes_update ds u) u = nodes_update ds u.
Proof.
  intros Hm Hc.
  pose proof (nodes_get_update_same ds u) as Hsame.
  unfold nodes_update at 1. unfold DataSet.update.
  fold (nodes_update ds u). fold (nodes_get (nodes_update ds u) (u_id u)).
  rewrite Hsame.
  destruct (nodes_get ds (u_id u)) as [it |] eqn:Hg.
  - unfold nodes_update, DataSet.update. fold (nodes_get ds (u_id u)).
    rewrite Hg, map_map. apply map_ext. intros a.
    destruct (v_id a =? u_id u) eqn:E.
    + rewrite mergeNode_id, E. apply Hm.
    + now rewrite E.
  - unfold nodes_update, DataSet.update. fold (nodes_get ds (u_id u)).
    rewrite Hg, map_app. cbn [map]. rewrite createNode_id, String.eqb_refl, Hc.
    now rewrite (map_merge_unknown ds u Hg).
Qed.

Lemma resetEdge_stays (eds : EdgeSet) (x eid : string) (e : VisEdge) :
  edges_get eds eid = Some e ->
  e_color e = Some (eu_color (restingEdge eid)) ->
  e_width e = Some 1%Z ->
  exists e',
    edges_get (edges_update eds (restingEdge x)) eid = Some e' /\
    e_color e' = Some (eu_color (restingEdge eid)) /\
    e_width e' = Some 1%Z.
Proof.
  intros Hg Hc Hw. destruct (string_dec eid x) as [-> | Hne].
  - pose proof (DataSetFacts.get_update_same e_id eu_id mergeEdge createEdge
                  mergeEdge_id createEdge_id eds (restingEdge x)) as Hu.
    cbn [eu_id restingEdge] in Hu. fold (restingEdge x) in Hu.
    unfold edges_get, edges_update. unfold edges_get in Hg. rewrite Hu, Hg.
    eexists. split; [reflexivity |]. split; reflexivity.
  - unfold edges_get, edges_update.
    rewrite (DataSetFacts.get_update_other e_id eu_id mergeEdge createEdge
               mergeEdge_id createEdge_id) by exact Hne.
    eauto.
Qed.

(** After the edge loop of [clearHighlights] every edge it visited is
    in the dataset with its resting look. *)
Lemma resetEdges_rest (l : list string) :
  forall eds eid,
    In eid l \/
    (exists e, edges_get eds eid = Some e /\
               e_color e = Some (eu_color (restingEdge eid)) /\
               e_width e = Some 1%Z) ->
    exists e',
      edges_get (fold_left (fun acc id => edges_update acc (restingEdge id)) l eds)
        eid = Some e' /\
      e_color e' = Some (eu_color (restingEdge eid)) /\
      e_width e' = Some 1%Z.
Proof.
  induction l as [| x l IH]; intros eds eid H; simpl.
  - destruct H as [[] | H]. exact H.
  - apply IH. destruct H as [[-> | Hin] | (e & Hg & Hc & Hw)].
    + right.
      pose proof (DataSetFacts.get_update_same e_id eu_id mergeEdge createEdge
                    mergeEdge_id createEdge_id eds (restingEdge eid)) as Hu.
      cbn [eu_id restingEdge] in Hu. fold (restingEdge eid) in Hu.
      unfold edges_get, edges_update. rewrite Hu.
      eexists. split; [reflexivity |].
      destruct (DataSet.get e_id eds eid); split; reflexivity.
    + now left.
    + right. now apply (resetEdge_stays eds x eid e).
Qed.

End ClearAgain.

(** On a loaded graph whose nodes are at rest unless highlighted,
    [clearHighlights] returns with both highlight sets empty, every
    node of the dataset at rest and in place, and every edge that was
    highlighted in its resting colour and width.  When the highlighted
    edges are edges of the dataset, no edge is added, removed or
    re-pointed.  Clearing again then changes nothing. *)
Theorem clearHighlights_returns_to_rest (s : State) (ds : NodeSet) :
  nodesDataset s = Some ds ->
  Baseline s ->
  exists s' ds',
    clearHighlights s = Done s' /\
    nodesDataset s' = Some ds' /\
    map skeleton ds' = map skeleton ds /\
    highlightedNodes s' = [] /\
    highlightedEdges s' = [] /\
    (forall id it, nodes_get ds' id = Some it -> atBaseline it) /\
    (forall eid eds',
        In eid (highlightedEdges s) ->
        edgesDataset s' = Some eds' ->
        exists e,
          edges_get eds' eid = Some e /\
          e_color e = Some (mkEdgeColor DEFAULT_EDGE_COLOR None 0.6%Q) /\
          e_width e = Some 1%Z) /\
    (forall eds,
        edgesDataset s = Some eds ->
        (forall eid, In eid (highlightedEdges s) -> In eid (map e_id eds)) ->
        exists eds',
          edgesDataset s' = Some eds' /\
          map edgeSkeleton eds' = map edgeSkeleton eds) /\
    clearHighlights s' = Done s'.
Proof.
  intros Hs Hb.
  destruct (clearHighlights_spec s ds Hs)
    as (s' & ds' & Hrun & Hd & Hsk & Hhn & Hhe & He).
  pose proof (clearHighlights_Baseline s s' Hb Hrun) as Hb'.
  exists s', ds'. split; [exact Hrun |]. split; [exact Hd |].
  split; [exact Hsk |]. split; [exact Hhn |]. split; [exact Hhe |].
  split.
  { intros id it Hg. apply (Hb' id it).
    - unfold lookupNode. now rewrite Hd.
    - rewrite Hhn. intros []. }
  split.
  { intros eid eds' Hin Heds. rewrite He in Heds.
    destruct (edgesDataset s) as [eds |]; [| discriminate].
    unfold resetEdges in Heds. cbn [option_map] in Heds. injection Heds as <-.
    destruct (resetEdges_rest (highlightedEdges s) eds eid (or_introl Hin))
      as (e & H1 & H2 & H3).
    exists e. auto. }
  split.
  { intros eds Heds Hin. rewrite He, Heds.
    now apply resetEdges_skeleton. }
  unfold clearHighlights. rewrite Hhn. cbn [forEach andThen].
  destruct s'. cbn in Hhn, Hhe |- *. subst. reflexivity.
Qed.

Lemma clearHighlights_returns_to_rest_witness :
  let a := mkNodeData "A" None (Some "FIELD") (Some 1%Z) in
  let s := set_highlightedNodes ["A"]
             (set_nodesDataset (Some [newNode a true]) initialState) in
  exists s',
    clearHighlights s = Done s' /\
    highlightedNodes s' = [] /\
    option_map v_color (lookupNode s' "A") = Some (Some "#22c55e").
Proof.
  cbv zeta.
  destruct (clearHighlights_returns_to_rest
              (set_highlightedNodes ["A"]
                 (set_nodesDataset
                    (Some [newNode (mkNodeData "A" None (Some "FIELD") (Some 1%Z)) true])
                    initialState)) _ eq_refl)
    as (s' & ds' & Hrun & Hd & _ & Hhn & _ & Hrest & _).
  - intros id it Hl Hnot. exfalso. apply Hnot.
    unfold lookupNode in Hl. cbn [nodesDataset set_highlightedNodes set_nodesDataset] in Hl.
    apply (DataSetFacts.get_Some_In v_id) in Hl as [[<- | []] <-]. now left.
  - exists s'. split; [exact Hrun |]. split; [exact Hhn |].
    pose proof Hrun as Hc. vm_compute in Hc. injection Hc as Hc.
    rewrite <- Hc. reflexivity.
Defined.



(** Highlighting a node of a loaded graph twice is highlighting it
    once: the second call returns the state the first one left. *)
Theorem highlightNode_idempotent (id : string) (s : State) (ds : NodeSet) :
  nodesDataset s = Some ds ->
  exists s1,
    highlightNode id true s = Done s1 /\
    highlightNode id true s1 = Done s1 /\
    In id (highlightedNodes s1).
Proof.
  intros Hs.
  set (ds1 := nodes_update ds (highlightUpdate id)).
  set (s1 := set_nodesDataset (Some ds1)
               (set_highlightedNodes (set_add id (highlightedNodes s)) s)).
  exists s1. split; [apply (highlightNode_on id s ds Hs) |]. split.
  - rewrite (highlightNode_on id s1 ds1 eq_refl).
    unfold ds1. rewrite nodes_update_twice; [| reflexivity | reflexivity].
    cbn [highlightedNodes s1 set_nodesDataset set_highlightedNodes].
    unfold s1. cbn [highlightedNodes set_nodesDataset set_highlightedNodes].
    rewrite set_add_twice. reflexivity.
  - apply In_set_add. now left.
Qed.

Lemma highlightNode_idempotent_witness :
  let a := mkNodeData "A" None (Some "FIELD") (Some 1%Z) in
  let s := set_nodesDataset (Some [initialNode a]) initialState in
  exists s1, highlightNode "A" true s = Done s1 /\ highlightNode "A" true s1 = Done s1.
Proof.
  cbv zeta.
  destruct (highlightNode_idempotent "A"
              (set_nodesDataset
                 (Some [initialNode (mkNodeData "A" None (Some "FIELD") (Some 1%Z))])
                 initialState) _ eq_refl)
    as (s1 & H1 & H2 & _).
  exists s1. now split.
Defined.

(** A node that a response brings into a loaded graph is stored
    highlighted, with the record of the response as its data; once
    unhighlighted it is exactly the item the bulk load builds for that
    record. *)
Theorem added_node_rests_as_loaded (nodeData : NodeData) (s : State)
  (ds : NodeSet) :
  nodesDataset s = Some ds ->
  nodes_get ds (n_id nodeData) = None ->
  exists s1 s2,
    addNodeToGraph nodeData true s = Done s1 /\
    lookupNode s1 (n_id nodeData) = Some (newNode nodeData true) /\
    v_data (newNode nodeData true) = Some nodeData /\
    In (n_id nodeData) (highlightedNodes s1) /\
    nodesDataset s1 = Some (ds ++ [newNode nodeData true])%list /\
    highlightNode (n_id nodeData) false s1 = Done s2 /\
    lookupNode s2 (n_id nodeData) = Some (initialNode nodeData) /\
    ~ In (n_id nodeData) (highlightedNodes s2).
Proof.
  intros Hs Hg.
  set (ds1 := (ds ++ [newNode nodeData true])%list).
  assert (Hg1 : nodes_get ds1 (n_id nodeData) = Some (newNode nodeData true)).
  { unfold ds1, nodes_get. rewrite DataSetFacts.get_app.
    unfold nodes_get in Hg. rewrite Hg. unfold DataSet.get. cbn [find].
    change (v_id (newNode nodeData true)) with (n_id nodeData).
    now rewrite String.eqb_refl. }
  eexists. eexists.
  split; [apply (addNodeToGraph_unknown nodeData s ds Hs Hg) |].
  split; [exact Hg1 |]. split; [reflexivity |].
  split; [apply In_set_add; now left |]. split; [reflexivity |].
  split.
  { apply (highlightNode_off_known (n_id nodeData) _ ds1 (newNode nodeData true));
      [reflexivity | exact Hg1]. }
  split.
  - unfold lookupNode. cbn [nodesDataset set_nodesDataset].
    pose proof (nodes_get_update_same ds1
                  (restoreUpdate (n_id nodeData) (newNode nodeData true))) as Hu.
    cbn [u_id restoreUpdate] in Hu.
    fold (restoreUpdate (n_id nodeData) (newNode nodeData true)) in Hu.
    rewrite Hu, Hg1. reflexivity.
  - cbn [highlightedNodes set_nodesDataset set_highlightedNodes].
    rewrite In_set_delete. tauto.
Qed.

Lemma added_node_rests_as_loaded_witness :
  let c := mkNodeData "C" None (Some "FIELD") (Some 2%Z) in
  exists s1 s2,
    addNodeToGraph c true (set_nodesDataset (Some []) initialState) = Done s1 /\
    highlightNode "C" false s1 = Done s2 /\
    lookupNode s2 "C" = Some (initialNode c).
Proof.
  cbv zeta.
  destruct (added_node_rests_as_loaded
              (mkNodeData "C" None (Some "FIELD") (Some 2%Z))
              (set_nodesDataset (Some []) initialState) [] eq_refl eq_refl)
    as (s1 & s2 & H1 & _ & _ & _ & _ & H2 & H3 & _).
  exists s1, s2. auto.
Defined.

(** ** Filtering, composed *)

Section FilterCompose.

Variable enabledTiers : list Z.

Let hide (n : VisNode) : VisNode := mergeNode n (hiddenUpdate enabledTiers n).

Lemma filterGraph_map (s : State) (ds : NodeSet) :
  nodesDataset s = Some ds ->
  uniqueIds ds ->
  filterGraph enabledTiers s = set_nodesDataset (Some (map hide ds)) s.
Proof.
  intros Hs Hu. unfold filterGraph. rewrite Hs.
  pose proof (filter_fold enabledTiers ds [] Hu) as Hf. simpl in Hf.
  now rewrite Hf.
Qed.

Lemma hide_update_commute (ds : NodeSet) (u : NodeUpdate) (it : VisNode) :
  u_hidden u = None ->
  nodes_get ds (u_id u) = Some it ->
  map hide (nodes_update ds u) = nodes_update (map hide ds) u.
Proof.
  intros Hh Hg. unfold nodes_update, DataSet.update.
  fold (nodes_get ds (u_id u)). fold (nodes_get (map hide ds) (u_id u)).
  rewrite (get_map_hide enabledTiers), Hg. cbn [option_map].
  rewrite !map_map. apply map_ext. intros a.
  change (v_id (hide a)) with (v_id a).
  destruct (v_id a =? u_id u); [| reflexivity].
  unfold hide, mergeNode, hiddenUpdate. cbn. now rewrite Hh.
Qed.

End FilterCompose.

(** Filtering and highlighting commute.  For a node of a loaded graph
    with single identifiers, highlighting (or unhighlighting) it and
    then filtering by tier leaves the same state as filtering first and
    highlighting after: the same [hidden] flags, the same colours and
    sizes, the same highlight sets. *)
Theorem filter_commutes_with_highlight (enabledTiers : list Z) (on : bool)
  (id : string) (s : State) (ds : NodeSet) (it : VisNode) :
  nodesDataset s = Some ds ->
  uniqueIds ds ->
  nodes_get ds id = Some it ->
  exists s1,
    highlightNode id on s = Done s1 /\
    highlightNode id on (filterGraph enabledTiers s)
    = Done (filterGraph enabledTiers s1).
Proof.
  intros Hs Hu Hg.
  rewrite (filterGraph_map enabledTiers s ds Hs Hu).
  set (hide := fun n => mergeNode n (hiddenUpdate enabledTiers n)).
  assert (Hgh : nodes_get (map hide ds) id = Some (hide it)).
  { unfold hide. now rewrite (get_map_hide enabledTiers), Hg. }
  assert (Hnd : forall u, uniqueIds (nodes_update ds u)).
  { intros u. apply (DataSetFacts.NoDup_update v_id u_id mergeNode createNode
                       mergeNode_id createNode_id). exact Hu. }
  set (sf := set_nodesDataset (Some (map hide ds)) s).
  destruct on.
  - set (s1 := set_nodesDataset (Some (nodes_update ds (highlightUpdate id)))
                 (set_highlightedNodes (set_add id (highlightedNodes s)) s)).
    exists s1. split; [apply (highlightNode_on id s ds Hs) |].
    rewrite (highlightNode_on id sf (map hide ds) eq_refl).
    rewrite (filterGraph_map enabledTiers s1 (nodes_update ds (highlightUpdate id))
               eq_refl (Hnd _)).
    rewrite (hide_update_commute enabledTiers ds (highlightUpdate id) it eq_refl Hg).
    reflexivity.
  - set (s1 := set_nodesDataset (Some (nodes_update ds (restoreUpdate id it)))
                 (set_highlightedNodes (set_delete id (highlightedNodes s)) s)).
    exists s1. split; [apply (highlightNode_off_known id s ds it Hs Hg) |].
    rewrite (highlightNode_off_known id sf (map hide ds) (hide it) eq_refl Hgh).
    rewrite (filterGraph_map enabledTiers s1 (nodes_update ds (restoreUpdate id it))
               eq_refl (Hnd _)).
    rewrite (hide_update_commute enabledTiers ds (restoreUpdate id it) it eq_refl Hg).
    reflexivity.
Qed.

Lemma filter_commutes_with_highlight_witness :
  let a := mkNodeData "A" None (Some "FIELD") (Some 3%Z) in
  let s := set_nodesDataset (Some [initialNode a]) initialState in
  exists s1,
    highlightNode "A" true s = Done s1 /\
    highlightNode "A" true (filterGraph [1%Z] s) = Done (filterGraph [1%Z] s1).
Proof.
  cbv zeta.
  apply (filter_commutes_with_highlight [1%Z] true "A"
           (set_nodesDataset
              (Some [initialNode (mkNodeData "A" None (Some "FIELD") (Some 3%Z))])
              initialState)
           [initialNode (mkNodeData "A" None (Some "FIELD") (Some 3%Z))]
           (initialNode (mkNodeData "A" None (Some "FIELD") (Some 3%Z)))
           eq_refl).
  - unfold uniqueIds. simpl. repeat constructor. simpl. tauto.
  - reflexivity.
Defined.

(** The last tier filter wins: on a loaded graph with single
    identifiers, a filter applied after another leaves the state it
    would have left alone, so that applying a filter twice is applying
    it once and ticking every box again shows every node again. *)
Theorem filterGraph_last_wins (first last : list Z) (s : State) (ds : NodeSet) :
  nodesDataset s = Some ds ->
  uniqueIds ds ->
  filterGraph last (filterGraph first s) = filterGraph last s /\
  filterGraph last (filterGraph last s) = filterGraph last s.
Proof.
  intros Hs Hu.
  assert (H : forall t, filterGraph last (filterGraph t s) = filterGraph last s).
  { intros t. rewrite (filterGraph_map t s ds Hs Hu).
    rewrite (filterGraph_map last
               (set_nodesDataset
                  (Some (map (fun n => mergeNode n (hiddenUpdate t n)) ds)) s)
               _ eq_refl).
    - rewrite (filterGraph_map last s ds Hs Hu), map_map. reflexivity.
    - unfold uniqueIds. rewrite map_map. exact Hu. }
  split; apply H.
Qed.

Lemma filterGraph_last_wins_witness :
  let a := mkNodeData "A" None (Some "FIELD") (Some 3%Z) in
  let s := set_nodesDataset (Some [initialNode a]) initialState in
  filterGraph [3%Z] (filterGraph [1%Z] s) = filterGraph [3%Z] s.
Proof.
  cbv zeta.
  apply (filterGraph_last_wins [1%Z] [3%Z]
           (set_nodesDataset
              (Some [initialNode (mkNodeData "A" None (Some "FIELD") (Some 3%Z))])
              initialState) _ eq_refl).
  unfold uniqueIds. simpl. repeat constructor. simpl. tauto.
Defined.

(** ** Search: local fallback, slow typing, navigation *)

Section SearchMore.

Lemma prefix_append (q s : string) :
  String.prefix q s = true <-> exists post, s = q ++ post.
Proof.
  revert s. induction q as [| c q IH]; intros s.
  - simpl. split; [intros _; exists s; reflexivity | now destruct s].
  - destruct s as [| d s]; simpl.
    + split; [discriminate | intros [post H]; discriminate].
    + destruct (ascii_dec c d) as [-> | Hne].
      * rewrite IH. split; intros [post H]; exists post; congruence.
      * split; [discriminate | intros [post H]; congruence].
Qed.

(** [includes] is containment: the text is some characters, the query,
    and some more characters. *)
Lemma includes_spec (s q : string) :
  includes s q = true <-> exists pre post, s = pre ++ q ++ post.
Proof.
  induction s as [| c s IH].
  - change (includes "" q) with (String.prefix q "" || false).
    rewrite orb_false_r, prefix_append. split.
    + intros [post H]. exists "", post. exact H.
    + intros (pre & post & H). destruct pre; [exists post; exact H |].
      discriminate.
  - change (includes (String c s) q)
      with (String.prefix q (String c s) || includes s q).
    rewrite orb_true_iff, prefix_append, IH. split.
    + intros [[post H] | (pre & post & H)].
      * exists "", post. exact H.
      * exists (String c pre), post. simpl. now rewrite H.
    + intros (pre & post & H). destruct pre as [| d pre].
      * left. exists post. exact H.
      * right. simpl in H. injection H as -> H. eauto.
Qed.

Lemma firstn_subset {A : Type} (n : nat) (l : list A) (x : A) :
  In x (firstn n l) -> In x l.
Proof.
  revert n. induction l as [| a l IH]; intros [| n]; simpl; try tauto.
  intros [H | H]; [now left | right; now apply (IH n)].
Qed.

Lemma searchRequest_start (s : State) :
  requests (searchNodes_start s) = (requests s ++ searchRequest (searchInput s))%list.
Proof.
  rewrite searchNodes_start_requests. unfold searchRequest.
  now rewrite toLowerCase_length.
Qed.

(** Slow typing leaves, before the last timer has run, one request for
    each text but the last. *)
Lemma fold_spaced (keys : list (nat * string)) :
  forall t text s0,
    searchTimer s0 = Some (t + SEARCH_WAIT)%nat ->
    searchInput s0 = text ->
    spaced t keys ->
    let sf := fold_left step (keyEvents keys) s0 in
    searchTimer sf = Some (fst (last keys (t, text)) + SEARCH_WAIT)%nat /\
    searchInput sf = snd (last keys (t, text)) /\
    (requests sf ++ searchRequest (snd (last keys (t, text))))%list
    = (requests s0 ++ flat_map searchRequest (text :: map snd keys))%list.
Proof.
  induction keys as [| [t' x] r IH]; intros t text s0 Ht Hx Hsp; cbn zeta.
  - simpl. rewrite app_nil_r. auto.
  - destruct Hsp as [Hgap Hsp]. cbn [keyEvents map fold_left fst snd].
    set (s1 := step s0 (t', KeyInput x)).
    assert (H1 : searchTimer s1 = Some (t' + SEARCH_WAIT)%nat) by reflexivity.
    assert (H2 : searchInput s1 = x) by reflexivity.
    assert (H3 : requests s1 = (requests s0 ++ searchRequest text)%list).
    { unfold s1, step. cbn [fst snd]. unfold fireTimers. rewrite Ht.
      apply Nat.leb_le in Hgap. rewrite Hgap.
      cbn [requests executedFunction set_searchTimer set_searchInput].
      rewrite searchRequest_start. cbn [requests searchInput set_searchTimer].
      now rewrite Hx. }
    destruct (IH t' x s1 H1 H2 Hsp) as (I1 & I2 & I3).
    rewrite !last_cons_default.
    split; [exact I1 |]. split; [exact I2 |].
    fold (keyEvents r). rewrite I3, H3. cbn [flat_map map].
    now rewrite <- app_assoc.
Qed.

End SearchMore.

(** When the search call fails, the list falls back to the loaded
    graph: it shows at most 10 entries and, the identifiers and labels
    of the loaded nodes being ASCII text, each is the data of a loaded
    node whose label or identifier, in lower case, contains the query;
    with at most 10 such nodes it shows them all.  Without a loaded
    graph the list is empty.  The graph and the highlight are not
    touched. *)
Theorem search_fallback_is_local (query : string) (s : State) :
  let s' := searchNodes_resume query SFailed s in
  (List.length (searchResults s') <= 10)%nat /\
  sameGraph s s' /\
  (nodesDataset s = None -> searchResults s' = []) /\
  (forall ds,
      nodesDataset s = Some ds ->
      forallb asciiItem ds = true ->
      (forall r, In r (searchResults s') ->
                 exists node,
                   In node ds /\ r = dataOrSelf node /\
                   ((exists l pre post,
                        v_label node = Some l /\
                        toLowerCase l = pre ++ query ++ post) \/
                    (exists pre post,
                        toLowerCase (v_id node) = pre ++ query ++ post))) /\
      ((List.length (filter (localMatch query) ds) <= 10)%nat ->
       forall node, In node ds -> localMatch query node = true ->
                    In (dataOrSelf node) (searchResults s'))).
Proof.
  cbv zeta. unfold searchNodes_resume, displaySearchResults.
  cbn [searchResults set_searchResults].
  split; [rewrite length_map, length_firstn; lia |].
  split; [repeat split |]. split.
  - intros H. now rewrite H.
  - intros ds H _. rewrite H. unfold DataSet.getFilter. split.
    + intros r Hr. apply in_map_iff in Hr as (node & <- & Hin).
      apply firstn_subset, filter_In in Hin as [Hin Hm].
      exists node. split; [exact Hin |]. split; [reflexivity |].
      unfold localMatch in Hm. apply orb_true_iff in Hm as [Hm | Hm].
      * left. destruct (v_label node) as [l |]; [| discriminate].
        apply includes_spec in Hm as (pre & post & E). eauto.
      * right. now apply includes_spec.
    + intros Hlen node Hin Hm. apply in_map.
      rewrite firstn_all2 by exact Hlen. apply filter_In. now split.
Qed.

Lemma search_fallback_is_local_witness :
  let a := mkNodeData "A" (Some "Revenue") None (Some 1%Z) in
  let b := mkNodeData "B" (Some "Net income") None (Some 3%Z) in
  let ab := mkEdgeData (Some "A") (Some "B") None None None in
  let s := processGraphData (mkEnv true true true)
             (mkGraphExport (Some [a; b]) (Some [ab])) initialState in
  In b (searchResults (searchNodes_resume "inc" SFailed s)).
Proof.
  cbv zeta.
  pose proof (search_fallback_is_local "inc"
                (processGraphData (mkEnv true true true)
                 (mkGraphExport
                    (Some [mkNodeData "A" (Some "Revenue") None (Some 1%Z);
                           mkNodeData "B" (Some "Net income") None (Some 3%Z)])
                    (Some [mkEdgeData (Some "A") (Some "B") None None None]))
                 initialState)) as H.
  cbv zeta in H. destruct H as (_ & _ & _ & H).
  destruct (H _ eq_refl eq_refl) as [_ Hall].
  apply (Hall ltac:(vm_compute; lia)
           (initialNode (mkNodeData "B" (Some "Net income") None (Some 3%Z))));
    [simpl; auto | reflexivity].
Defined.

(** Slow typing is not debounced: when every keystroke arrives 300 ms
    or more after the one before, [searchNodes] is called once for each
    of them, and the requests issued are, in order, one for every text
    whose trimmed form has 2 characters or more.  The texts are ASCII
    text. *)
Theorem search_slow_typing_calls_each (s : State) (t : nat) (text : string)
  (keys : list (nat * string)) (final : nat) :
  spaced t keys ->
  timerQuiet t s ->
  (fst (last keys (t, text)) + SEARCH_WAIT <= final)%nat ->
  forallb asciiText (text :: map snd keys) = true ->
  requests (run (keyEvents ((t, text) :: keys)) final s)
  = (requests s ++ flat_map searchRequest (text :: map snd keys))%list.
Proof.
  intros Hsp Hq Hf _. unfold run. cbn [keyEvents map fold_left fst snd].
  rewrite step_key_quiet by exact Hq.
  destruct (fold_spaced keys t text (typed t text s) eq_refl eq_refl Hsp)
    as (H1 & H2 & H3).
  fold (keyEvents keys).
  unfold fireTimers. rewrite H1. apply Nat.leb_le in Hf. rewrite Hf.
  rewrite searchRequest_start.
  cbn [requests searchInput set_searchTimer]. rewrite H2. exact H3.
Qed.

Lemma search_slow_typing_calls_each_witness :
  requests (run (keyEvents [(0, "lv"); (300, "lvr"); (900, "l")]%nat) 1200
              initialState)
  = [ReqSearch "lv" 10%Z; ReqSearch "lvr" 10%Z].
Proof.
  rewrite (search_slow_typing_calls_each initialState 0 "lv"
             [(300, "lvr"); (900, "l")]%nat 1200).
  - reflexivity.
  - simpl. unfold SEARCH_WAIT. lia.
  - exact I.
  - simpl. unfold SEARCH_WAIT. lia.
  - reflexivity.
Defined.

(** ** Selection and navigation *)

Section Navigation.

Lemma selectNode_loaded (id : string) (s : State) (ds : NodeSet) :
  nodesDataset s = Some ds ->
  exists s',
    selectNode id s = Done s' /\
    selectedNodeId s' = Some id /\
    nodesDataset s' = nodesDataset s /\
    edgesDataset s' = edgesDataset s /\
    highlightedNodes s' = highlightedNodes s /\
    highlightedEdges s' = highlightedEdges s /\
    toasts s' = toasts s /\
    searchTimer s' = searchTimer s /\
    ((exists node d, nodes_get ds id = Some node /\ v_data node = Some d) ->
     requests s' = requests s) /\
    ((forall node, nodes_get ds id = Some node -> v_data node = None) ->
     requests s' = (requests s ++ [ReqNode id])%list).
Proof.
  intros Hs. unfold selectNode. cbn [nodesDataset set_selectedNodeId]. rewrite Hs.
  destruct (nodes_get ds id) as [[i l c sh z f t ty oc [d |] h] |] eqn:Hg;
    (eexists; split; [reflexivity |]);
    do 7 (split; [first [reflexivity | exact Hs] |]); split.
  - reflexivity.
  - intros H. specialize (H _ eq_refl). discriminate H.
  - intros (node & d & E & Hd). injection E as <-. discriminate Hd.
  - reflexivity.
  - intros (node & d & E & _). discriminate E.
  - reflexivity.
Qed.


End Navigation.

(** [selectNode] records the selection before it looks the node up.  On
    a loaded graph it returns, touches neither dataset nor highlight,
    and asks the backend for details exactly when the dataset has no
    data for the node; without a loaded graph it throws, and the
    selection stays recorded. *)
Theorem selectNode_records_selection (id : string) (s : State) :
  (nodesDataset s = None ->
   selectNode id s = Thrown NULL_DATASET (set_selectedNodeId (Some id) s)) /\
  (forall ds,
      nodesDataset s = Some ds ->
      exists s',
        selectNode id s = Done s' /\
        selectedNodeId s' = Some id /\
        nodesDataset s' = nodesDataset s /\
        edgesDataset s' = edgesDataset s /\
        highlightedNodes s' = highlightedNodes s /\
        highlightedEdges s' = highlightedEdges s /\
        ((exists node d, nodes_get ds id = Some node /\ v_data node = Some d) ->
         requests s' = requests s) /\
        ((forall node, nodes_get ds id = Some node -> v_data node = None) ->
         requests s' = (requests s ++ [ReqNode id])%list)).
Proof.
  split.
  - intros H. unfold selectNode. cbn [nodesDataset set_selectedNodeId].
    now rewrite H.
  - intros ds Hs.
    destruct (selectNode_loaded id s ds Hs)
      as (s' & H1 & H2 & H3 & H4 & H5 & H6 & _ & _ & H7 & H8).
    exists s'. auto 10.
Qed.

Lemma selectNode_records_selection_witness :
  let a := mkNodeData "A" (Some "Revenue") None (Some 1%Z) in
  let b := mkNodeData "B" (Some "Net income") None (Some 3%Z) in
  let ab := mkEdgeData (Some "A") (Some "B") None None None in
  let s := processGraphData (mkEnv true true true)
             (mkGraphExport (Some [a; b]) (Some [ab])) initialState in
  exists s', selectNode "A" s = Done s' /\ selectedNodeId s' = Some "A".
Proof.
  cbv zeta.
  destruct (selectNode_records_selection "A"
              (processGraphData (mkEnv true true true)
                 (mkGraphExport
                    (Some [mkNodeData "A" (Some "Revenue") None (Some 1%Z);
                           mkNodeData "B" (Some "Net income") None (Some 3%Z)])
                    (Some [mkEdgeData (Some "A") (Some "B") None None None]))
                 initialState)) as [_ H].
  destruct (H _ eq_refl) as (s' & Hrun & Hsel & _).
  exists s'. split; [exact Hrun | exact Hsel].
Defined.






(** ** What the highlight engine leaves alone *)

Section Page.

Lemma samePage_refl (s : State) : samePage s s.
Proof. repeat split. Qed.

Lemma samePage_trans (a b c : State) : samePage a b -> samePage b c -> samePage a c.
Proof.
  unfold samePage. intros H1 H2.
  repeat match goal with H : _ /\ _ |- _ => destruct H end.
  repeat split; congruence.
Qed.

Lemma highlightNode_page (id : string) (on : bool) (s s' : State) :
  highlightNode id on s = Done s' -> samePage s s'.
Proof.
  unfold highlightNode. destruct on; cbn [nodesDataset set_highlightedNodes].
  - destruct (nodesDataset s); [| discriminate].
    intros H. injection H as <-. repeat split.
  - destruct (nodesDataset s) as [ds |]; [| discriminate].
    destruct (nodes_get ds id); intros H; injection H as <-; repeat split.
Qed.

Lemma addNodeToGraph_page (nodeData : NodeData) (highlight : bool) (s s' : State) :
  addNodeToGraph nodeData highlight s = Done s' -> samePage s s'.
Proof.
  unfold addNodeToGraph.
  destruct (nodesDataset s) as [ds |]; [| intros H; injection H as <-; repeat split].
  destruct (nodes_get ds (n_id nodeData));
    [intros H; injection H as <-; repeat split |].
  destruct (nodes_add ds (newNode nodeData highlight)); [| discriminate].
  destruct highlight; intros H; injection H as <-; repeat split.
Qed.

Lemma highlightOrAddTraversal_page (node : NodeData) (s s' : State) :
  highlightOrAddTraversal node s = Done s' -> samePage s s'.
Proof.
  unfold highlightOrAddTraversal. destruct (lookupNode s (n_id node)).
  - apply highlightNode_page.
  - apply addNodeToGraph_page.
Qed.

Lemma resetEdge_page (l : list string) :
  forall s, samePage s (fold_left (fun acc edgeId => resetEdge edgeId acc) l s).
Proof.
  induction l as [| x l IH]; intros s; [apply samePage_refl |].
  simpl. apply samePage_trans with (resetEdge x s); [| apply IH].
  unfold resetEdge. destruct (edgesDataset s); repeat split.
Qed.

Lemma forEach_page {A : Type} (f : A -> State -> Outcome) (xs : list A)
  (s s' : State) :
  (forall x st st', f x st = Done st' -> samePage st st') ->
  forEach xs f s = Done s' -> samePage s s'.
Proof.
  intros Hf.
  apply (forEach_partial f (fun _ st => samePage s st) xs);
    [| apply samePage_refl].
  intros pre x st st' Hst Hx. apply samePage_trans with st; [exact Hst |].
  now apply (Hf x).
Qed.

Lemma clearHighlights_page (s s' : State) :
  clearHighlights s = Done s' -> samePage s s'.
Proof.
  unfold clearHighlights. intros H.
  apply andThen_Done in H as (s1 & Hloop & Hrest). injection Hrest as <-.
  apply samePage_trans with s1.
  - apply (forEach_page _ _ _ _ (fun x => highlightNode_page x false) Hloop).
  - apply samePage_trans with (set_highlightedNodes [] s1); [repeat split |].
    apply samePage_trans
      with (fold_left (fun acc edgeId => resetEdge edgeId acc)
              (highlightedEdges (set_highlightedNodes [] s1))
              (set_highlightedNodes [] s1));
      [apply resetEdge_page | repeat split].
Qed.

Lemma highlightEdgeBetween_page (ids : IdSet) (e : VisEdge) (s s' : State) :
  highlightEdgeBetween ids e s = Done s' -> samePage s s'.
Proof.
  unfold highlightEdgeBetween.
  destruct (optHas (e_from e) ids && optHas (e_to e) ids).
  - destruct (edgesDataset s); [| discriminate].
    intros H. injection H as <-. repeat split.
  - intros H. injection H as <-. repeat split.
Qed.

Lemma highlightLabel_page (label : string) (s s' : State) :
  highlightLabel label s = Done s' -> samePage s s'.
Proof.
  unfold highlightLabel. apply forEach_page.
  intros x st st'. apply highlightNode_page.
Qed.

Lemma addOrHighlightEdge_page (edge : EdgeData) (s s' : State) :
  addOrHighlightEdge edge s = Done s' ->
  samePage s s' /\
  highlightedEdges s' = set_add (dynamicEdgeId edge) (highlightedEdges s).
Proof.
  unfold addOrHighlightEdge.
  destruct (edgesDataset s) as [eds |].
  - destruct (edges_get eds (dynamicEdgeId edge)).
    + cbn [andThen]. intros H. injection H as <-. repeat split.
    + destruct (edges_add eds _); [| discriminate].
      cbn [andThen]. intros H. injection H as <-. repeat split.
  - cbn [andThen]. intros H. injection H as <-. repeat split.
Qed.

Lemma highlightQueryPath_page (r : QueryResult) (s s' : State) :
  highlightQueryPath r s = Done s' -> samePage s s'.
Proof.
  unfold highlightQueryPath. intros H.
  apply andThen_Done in H as (s1 & H1 & H).
  apply andThen_Done in H as (s2 & H2 & H).
  apply andThen_Done in H as (s3 & H3 & H4).
  apply samePage_trans with s1; [now apply clearHighlights_page |].
  apply samePage_trans with s2.
  { apply (forEach_page highlightOrAdd _ _ _) with (2 := H2).
    intros x st st'. rewrite highlightOrAdd_callback.
    destruct (negb (n_id x =? "")).
    - apply highlightOrAddTraversal_page.
    - intros E. injection E as <-. apply samePage_refl. }
  apply samePage_trans with s3.
  { destruct (edgesDataset s2) as [eds |].
    - apply (forEach_page _ _ _ _ (highlightEdgeBetween_page (highlightedIdsOf r)) H3).
    - injection H3 as <-. apply samePage_refl. }
  apply (forEach_page _ _ _ _ highlightLabel_page H4).
Qed.

Lemma blank_trimStart (q : string) : blank q = true -> trimStart q = "".
Proof.
  induction q as [| c r IH]; simpl; [reflexivity |].
  destruct (isSpace c); simpl; [exact IH | discriminate].
Qed.

Lemma trimEnd_nonblank (c : ascii) (r : string) :
  isSpace c = false -> trimEnd (String c r) <> "".
Proof.
  intros Hc. simpl. destruct (trimEnd r); [rewrite Hc |]; discriminate.
Qed.

(** A text trims to nothing exactly when it is white space only. *)
Lemma trim_blank (q : string) : trim q = "" <-> blank q = true.
Proof.
  unfold trim. split.
  - induction q as [| c r IH]; simpl; [reflexivity |].
    destruct (isSpace c) eqn:Hc; simpl; [exact IH |].
    intros H. exfalso. revert H. now apply (trimEnd_nonblank c r).
  - intros H. now rewrite blank_trimStart.
Qed.

Lemma highlightQueryPath_unloaded (r : QueryResult) (s : State) :
  nodesDataset s = None ->
  edgesDataset s = None ->
  highlightedNodes s = [] ->
  highlightQueryPath r s
  = Done (set_highlightedEdges [] (set_highlightedNodes [] s)).
Proof.
  intros Hn He Hh. unfold highlightQueryPath, clearHighlights.
  rewrite Hh. cbn [forEach andThen].
  assert (Hfold : forall l st, edgesDataset st = None ->
                               fold_left (fun acc edgeId => resetEdge edgeId acc) l st = st).
  { induction l as [| x l IH]; intros st Hst; [reflexivity |].
    simpl. unfold resetEdge at 2. rewrite Hst. now apply IH. }
  rewrite Hfold by exact He.
  set (s1 := set_highlightedEdges [] (set_highlightedNodes [] s)).
  assert (Hnodes : forall l, forEach l highlightOrAdd s1 = Done s1).
  { induction l as [| n l IH]; [reflexivity |].
    simpl. unfold highlightOrAdd at 1, lookupNode.
    cbn [nodesDataset s1 set_highlightedEdges set_highlightedNodes].
    rewrite Hn. destruct (n_id n =? ""); cbn [andThen]; [exact IH |].
    rewrite (addNodeToGraph_unloaded n true s1 Hn). cbn [andThen]. exact IH. }
  rewrite Hnodes. cbn [andThen].
  cbn [edgesDataset s1 set_highlightedEdges set_highlightedNodes].
  rewrite He. cbn [andThen].
  generalize (pathLabels r). induction l as [| x l IH]; [reflexivity |].
  simpl. unfold highlightLabel at 1.
  cbn [nodesDataset s1 set_highlightedEdges set_highlightedNodes].
  rewrite Hn. cbn [forEach andThen]. exact IH.
Qed.

End Page.

(** Applying a query result to a loaded graph changes the datasets and
    the highlight sets only: the selection, the notifications, the
    answer area, the search box and the request log stay as they
    were, and so do the loaded collections; nodes the result brings in
    join the renderer dataset, never [allNodes]. *)
Theorem highlightQueryPath_touches_graph_only (r : QueryResult) (s : State)
  (ds : NodeSet) :
  nodesDataset s = Some ds ->
  exists s' ds',
    highlightQueryPath r s = Done s' /\
    samePage s s' /\
    nodesDataset s' = Some ds' /\
    (forall n, In n (nodesToHighlight r) -> n_id n <> "" ->
               In (n_id n) (map v_id ds')) /\
    allNodes s' = allNodes s.
Proof.
  intros Hs.
  destruct (highlightQueryPath_spec r s ds Hs) as (s' & ds' & Hrun & Hd & _ & Hin & _).
  pose proof (highlightQueryPath_page r s s' Hrun) as Hp.
  exists s', ds'. split; [exact Hrun |]. split; [exact Hp |].
  split; [exact Hd |]. split; [exact Hin |]. apply Hp.
Qed.

Lemma highlightQueryPath_touches_graph_only_witness :
  let a := mkNodeData "A" None (Some "FIELD") (Some 1%Z) in
  let c := mkNodeData "C" None (Some "FIELD") (Some 2%Z) in
  let s := processGraphData (mkEnv true true true)
             (mkGraphExport (Some [a]) None) initialState in
  let r := mkQueryResult None (Some (mkDebug (Some c) None None)) None in
  exists s' ds',
    highlightQueryPath r s = Done s' /\
    nodesDataset s' = Some ds' /\
    In "C" (map v_id ds') /\
    allNodes s' = [a].
Proof.
  cbv zeta.
  destruct (highlightQueryPath_touches_graph_only
              (mkQueryResult None
                 (Some (mkDebug (Some (mkNodeData "C" None (Some "FIELD") (Some 2%Z)))
                          None None)) None)
              (processGraphData (mkEnv true true true)
                 (mkGraphExport (Some [mkNodeData "A" None (Some "FIELD") (Some 1%Z)])
                    None) initialState)
              _ eq_refl)
    as (s' & ds' & Hrun & _ & Hd & Hin & Ha).
  exists s', ds'. split; [exact Hrun |]. split; [exact Hd |]. split.
  - apply (Hin (mkNodeData "C" None (Some "FIELD") (Some 2%Z)));
      [simpl; now left | discriminate].
  - rewrite Ha. reflexivity.
Defined.

(** [executeQuery] refuses a query, of ASCII text, that is empty or
    white space only with a warning, without a request and without
    touching the answer area; any other query is sent trimmed, once,
    with a depth that is never 0 (3 when the depth box holds no number
    or 0), and the answer area shows that the query is being
    processed. *)
Theorem executeQuery_start_cases (queryInput : string) (depthInput : option Z)
  (s : State) :
  let s' := executeQuery_start queryInput depthInput s in
  (asciiText queryInput = true ->
   (blank queryInput = true ->
    s' = showToast "Please enter a query" warning s /\
    requests s' = requests s /\
    answerText s' = answerText s) /\
   (blank queryInput = false ->
    trim queryInput <> "" /\
    requests s'
    = (requests s ++ [ReqQuery (trim queryInput) (parseDepth depthInput)])%list /\
    answerText s' = Processing /\
    toasts s' = toasts s /\
    sameGraph s s')) /\
  parseDepth depthInput <> 0%Z /\
  (depthInput = None \/ depthInput = Some 0%Z -> parseDepth depthInput = 3%Z) /\
  (forall d, depthInput = Some d -> d <> 0%Z -> parseDepth depthInput = d).
Proof.
  cbv zeta. unfold executeQuery_start.
  split; [intros _; split | split; [| split]].
  - intros Hb. apply trim_blank in Hb. rewrite Hb. cbn. repeat split.
  - intros Hb.
    assert (Hne : trim queryInput <> "").
    { intros E. apply trim_blank in E. congruence. }
    split; [exact Hne |].
    apply String.eqb_neq in Hne. rewrite Hne. repeat split.
  - destruct depthInput as [[| p | p] |]; simpl; discriminate.
  - intros [-> | ->]; reflexivity.
  - intros d -> Hd. destruct d; [congruence | reflexivity | reflexivity].
Qed.

Lemma executeQuery_start_cases_witness :
  requests (executeQuery_start "  what drives LVR? " None initialState)
  = [ReqQuery "what drives LVR?" 3%Z] /\
  toasts (executeQuery_start "   " (Some 2%Z) initialState)
  = [mkToast "Please enter a query" warning].
Proof.
  split.
  - pose proof (executeQuery_start_cases "  what drives LVR? " None initialState)
      as H.
    cbv zeta in H. destruct H as [H _].
    destruct (H eq_refl) as [_ H2].
    destruct (H2 eq_refl) as (_ & E & _). rewrite E. reflexivity.
  - pose proof (executeQuery_start_cases "   " (Some 2%Z) initialState) as H.
    cbv zeta in H. destruct H as [H _].
    destruct (H eq_refl) as [H1 _].
    destruct (H1 eq_refl) as (E & _). rewrite E. reflexivity.
Defined.

(** A successful query is reported as completed whenever the graph
    code returns.  On a loaded graph the answer is shown, the nodes of
    the result that carry an identifier are held by the store and
    highlighted, and nothing else on the page moves.  When no graph
    was loaded the answer is shown all the same and the nodes of the
    result are dropped without a notice: nothing is stored, nothing
    highlighted. *)
Theorem executeQuery_success (r : QueryResult) (s : State) :
  let s' := executeQuery_resume (QOk (Json r)) s in
  let text := orElse (strOr (answer r) (Some "No answer generated")) "" in
  (forall ds,
      nodesDataset s = Some ds ->
      toasts s' = (toasts s ++ [mkToast "Query completed!" success])%list /\
      answerText s' = Rendered text /\
      requests s' = requests s /\
      selectedNodeId s' = selectedNodeId s /\
      exists ds',
        nodesDataset s' = Some ds' /\
        forall n, In n (nodesToHighlight r) -> n_id n <> "" ->
                  In (n_id n) (map v_id ds') /\ In (n_id n) (highlightedNodes s')) /\
  (nodesDataset s = None -> edgesDataset s = None -> highlightedNodes s = [] ->
   toasts s' = (toasts s ++ [mkToast "Query completed!" success])%list /\
   answerText s' = Rendered text /\
   nodesDataset s' = None /\
   highlightedNodes s' = [] /\
   highlightedEdges s' = []).
Proof.
  cbv zeta. unfold executeQuery_resume. split.
  - intros ds Hs.
    destruct (highlightQueryPath_spec r (displayQueryResult r s) ds Hs)
      as (s1 & ds1 & Hrun & Hd & _ & Hin & _ & Hhn & _).
    pose proof (highlightQueryPath_page r _ s1 Hrun)
      as (_ & _ & _ & Hsel & Ht & Ha & _ & _ & Hr & _).
    rewrite Hrun. cbn [toasts answerText requests selectedNodeId nodesDataset
                       highlightedNodes showToast set_toasts].
    rewrite Ht, Ha, Hr, Hsel. split; [reflexivity |]. split; [reflexivity |].
    split; [reflexivity |]. split; [reflexivity |].
    exists ds1. split; [exact Hd |]. intros n Hn Hne.
    split; [now apply Hin |]. rewrite Hhn. apply In_addAll. right.
    apply In_highlightedIdsOf. eauto.
  - intros Hn He Hh.
    rewrite (highlightQueryPath_unloaded r (displayQueryResult r s) Hn He Hh).
    repeat split. exact Hn.
Qed.

Lemma executeQuery_success_witness :
  let a := mkNodeData "A" (Some "Revenue") None (Some 1%Z) in
  let b := mkNodeData "B" (Some "Net income") None (Some 3%Z) in
  let ab := mkEdgeData (Some "A") (Some "B") None None None in
  let s := processGraphData (mkEnv true true true)
             (mkGraphExport (Some [a; b]) (Some [ab])) initialState in
  let r := mkQueryResult (Some "42") (Some (mkDebug (Some b) (Some [a]) None)) None in
  let s' := executeQuery_resume (QOk (Json r)) s in
  toasts s' = (toasts s ++ [mkToast "Query completed!" success])%list /\
  answerText s' = Rendered "42" /\
  In "B" (highlightedNodes s').
Proof.
  cbv zeta.
  pose proof (executeQuery_success
                (mkQueryResult (Some "42")
                   (Some (mkDebug (Some (mkNodeData "B" (Some "Net income") None (Some 3%Z)))
                            (Some [mkNodeData "A" (Some "Revenue") None (Some 1%Z)])
                            None)) None)
                (processGraphData (mkEnv true true true)
                 (mkGraphExport
                    (Some [mkNodeData "A" (Some "Revenue") None (Some 1%Z);
                           mkNodeData "B" (Some "Net income") None (Some 3%Z)])
                    (Some [mkEdgeData (Some "A") (Some "B") None None None]))
                 initialState)) as H.
  cbv zeta in H. destruct H as [H _].
  destruct (H _ eq_refl) as (Ht & Ha & _ & _ & ds' & _ & Hin).
  split; [exact Ht |]. split; [exact Ha |].
  apply (Hin (mkNodeData "B" (Some "Net income") None (Some 3%Z)));
    [simpl; now left | discriminate].
Defined.

(** ** Traversal display *)

Section Traversal.

Lemma Done_inj (a b : State) : Done a = Done b -> a = b.
Proof. intros H. now injection H. Qed.

(** [displayTraversal] on a loaded graph, with its edges and its
    notification. *)
Lemma displayTraversal_sets (direction : Direction) (selected : string)
  (r : TraversalResult) (s : State) (ds : NodeSet) :
  nodesDataset s = Some ds ->
  exists s' ds',
    displayTraversal direction selected r s = Done s' /\
    nodesDataset s' = Some ds' /\
    grows ds ds' /\
    highlightedNodes s' = addAll (map n_id (orElse (tr_nodes r) [])) [selected] /\
    (forall id, In id (highlightedNodes s') -> In id (map v_id ds')) /\
    highlightedEdges s' = addAll (map dynamicEdgeId (orElse (tr_edges r) [])) [] /\
    toasts s' = (toasts s ++ [mkToast (foundMessage r direction) success])%list /\
    selectedNodeId s' = selectedNodeId s /\
    requests s' = requests s.
Proof.
  intros Hs.
  destruct (displayTraversal_spec direction selected r s ds Hs)
    as (s' & ds' & Hrun & Hd & Hg & Hsel & Hin & Hhn).
  exists s', ds'. split; [exact Hrun |]. split; [exact Hd |].
  split; [exact Hg |]. split; [exact Hhn |]. split.
  { intros id Hid. rewrite Hhn in Hid. apply In_addAll in Hid as [Hid | [<- | []]].
    - apply in_map_iff in Hid as (n & <- & Hn). now apply Hin.
    - exact Hsel. }
  unfold displayTraversal in Hrun.
  apply andThen_Done in Hrun as (s1 & H1 & Hrun).
  apply andThen_Done in Hrun as (s2 & H2 & Hrun).
  apply andThen_Done in Hrun as (s3 & H3 & Hrun).
  apply andThen_Done in Hrun as (s4 & H4 & H5).
  apply Done_inj in H5. subst s'.
  destruct (clearHighlights_spec s ds Hs) as (s1' & ds1 & R1 & Hd1 & _ & _ & Hhe1 & _).
  rewrite R1 in H1. apply Done_inj in H1. subst s1'.
  destruct (highlightNode_on_spec selected s1 ds1 Hd1)
    as (s2' & ds2 & R2 & Hd2 & _ & _ & _ & _ & _ & Hhe2).
  rewrite R2 in H2. apply Done_inj in H2. subst s2'.
  destruct (node_loop (fun _ => true) highlightOrAddTraversal
              (orElse (tr_nodes r) []) s2 ds2 (fun n st => eq_refl) Hd2)
    as (s3' & ds3 & R3 & _ & _ & _ & _ & _ & _ & Hhe3).
  rewrite R3 in H3. apply Done_inj in H3. subst s3'.
  assert (P1 : samePage s s1) by now apply clearHighlights_page.
  assert (P2 : samePage s1 s2) by now apply (highlightNode_page selected true).
  assert (P3 : samePage s2 s3).
  { apply (forEach_page highlightOrAddTraversal _ _ _) with (2 := R3).
    intros x st st'. apply highlightOrAddTraversal_page. }
  assert (P4 : samePage s3 s4 /\
               highlightedEdges s4
               = addAll (map dynamicEdgeId (orElse (tr_edges r) [])) (highlightedEdges s3)).
  { apply (forEach_partial addOrHighlightEdge
             (fun pre st => samePage s3 st /\
                            highlightedEdges st
                            = addAll (map dynamicEdgeId pre) (highlightedEdges s3))
             (orElse (tr_edges r) [])) with (s := s3);
      [| split; [apply samePage_refl | reflexivity] | exact H4].
    intros pre x st st' [Hp Hh] Hx.
    apply addOrHighlightEdge_page in Hx as [Hp' Hh'].
    split; [now apply samePage_trans with st |].
    now rewrite Hh', Hh, map_app, addAll_app. }
  destruct P4 as [P4 Hhe4].
  pose proof (samePage_trans _ _ _ P1 (samePage_trans _ _ _ P2
                (samePage_trans _ _ _ P3 P4)))
    as (_ & _ & _ & Qsel & Qt & _ & _ & _ & Qr & _).
  cbn [highlightedEdges toasts selectedNodeId requests showToast set_toasts].
  rewrite Hhe4, Hhe3, Hhe2, Hhe1, Qt, Qsel, Qr. repeat split.
Qed.

Lemma append_assoc_string (a b c : string) : (a ++ b) ++ c = a ++ (b ++ c).
Proof. induction a as [| x a IH]; simpl; congruence. Qed.

End Traversal.

(** A traversal response replaces the highlight, it does not extend
    it.  When the response is missing or holds no nodes, nothing
    happens and nothing is notified.  Otherwise, on a loaded graph
    with a selection, the highlighted nodes become the selected node
    and the nodes of the response, all held by the store, and the
    highlighted edges the edges of the response, whatever was
    highlighted before; the number of nodes found is notified and the
    selection stays. *)
Theorem showTraversal_replaces_highlight (direction : Direction) (s : State) :
  showTraversal_resume direction None s = Some (Done s) /\
  (forall r, tr_nodes r = None ->
             showTraversal_resume direction (Some r) s = Some (Done s)) /\
  (forall r nodes selected ds,
      tr_nodes r = Some nodes ->
      selectedNodeId s = Some selected ->
      nodesDataset s = Some ds ->
      exists s' ds',
        showTraversal_resume direction (Some r) s = Some (Done s') /\
        nodesDataset s' = Some ds' /\
        highlightedNodes s' = addAll (map n_id nodes) [selected] /\
        (forall id, In id (highlightedNodes s') -> In id (map v_id ds')) /\
        highlightedEdges s'
        = addAll (map dynamicEdgeId (orElse (tr_edges r) [])) [] /\
        toasts s' = (toasts s ++ [mkToast (foundMessage r direction) success])%list /\
        selectedNodeId s' = Some selected).
Proof.
  split; [reflexivity |]. split.
  - intros r H. unfold showTraversal_resume. now rewrite H.
  - intros r nodes selected ds Hn Hsel Hs.
    destruct (displayTraversal_sets direction selected r s ds Hs)
      as (s' & ds' & Hrun & Hd & _ & Hhn & Hheld & Hhe & Ht & Hs' & _).
    exists s', ds'. unfold showTraversal_resume. rewrite Hn, Hsel, Hrun.
    split; [reflexivity |]. split; [exact Hd |]. split.
    { rewrite Hhn, Hn. reflexivity. }
    split; [exact Hheld |]. split; [exact Hhe |]. split; [exact Ht |].
    congruence.
Qed.

Lemma showTraversal_replaces_highlight_witness :
  let a := mkNodeData "A" (Some "Revenue") None (Some 1%Z) in
  let b := mkNodeData "B" (Some "Net income") None (Some 3%Z) in
  let ab := mkEdgeData (Some "A") (Some "B") None None None in
  let s := processGraphData (mkEnv true true true)
             (mkGraphExport (Some [a; b]) (Some [ab])) initialState in
  let r := mkTraversalResult (Some [b]) (Some [ab]) (Some 1%nat) in
  exists s',
    showTraversal_resume downstream (Some r) (set_selectedNodeId (Some "A") s)
    = Some (Done s') /\
    highlightedNodes s' = ["A"; "B"] /\
    highlightedEdges s' = ["dynamic-edge-A-B"].
Proof.
  cbv zeta.
  destruct (showTraversal_replaces_highlight downstream
              (set_selectedNodeId (Some "A")
              (processGraphData (mkEnv true true true)
                 (mkGraphExport
                    (Some [mkNodeData "A" (Some "Revenue") None (Some 1%Z);
                           mkNodeData "B" (Some "Net income") None (Some 3%Z)])
                    (Some [mkEdgeData (Some "A") (Some "B") None None None]))
                 initialState))) as (_ & _ & H).
  destruct (H (mkTraversalResult
                 (Some [mkNodeData "B" (Some "Net income") None (Some 3%Z)])
                 (Some [mkEdgeData (Some "A") (Some "B") None None None])
                 (Some 1%nat))
              _ "A" _ eq_refl eq_refl eq_refl)
    as (s' & ds' & Hrun & _ & Hhn & _ & Hhe & _).
  exists s'. split; [exact Hrun |]. split; [exact Hhn | exact Hhe].
Defined.

(** After a query result is applied to a loaded graph, every
    highlighted edge is an edge of the dataset whose two ends are
    highlighted nodes held by the store. *)
Theorem highlighted_edges_join_highlighted_nodes (r : QueryResult) (s : State)
  (ds : NodeSet) :
  nodesDataset s = Some ds ->
  exists s' ds',
    highlightQueryPath r s = Done s' /\
    nodesDataset s' = Some ds' /\
    forall eid,
      In eid (highlightedEdges s') ->
      exists eds' e a b,
        edgesDataset s' = Some eds' /\
        In e eds' /\ e_id e = eid /\
        e_from e = Some a /\ e_to e = Some b /\
        In a (highlightedNodes s') /\ In b (highlightedNodes s') /\
        In a (map v_id ds') /\ In b (map v_id ds').
Proof.
  intros Hs.
  destruct (highlightQueryPath_spec r s ds Hs)
    as (s' & ds' & Hrun & Hd & _ & Hin & _ & Hhn & Hnone & Hsome).
  exists s', ds'. split; [exact Hrun |]. split; [exact Hd |].
  intros eid Heid.
  assert (Hnode : forall a, set_has a (highlightedIdsOf r) = true ->
                            In a (highlightedNodes s') /\ In a (map v_id ds')).
  { intros a Ha. apply set_has_In in Ha. split.
    - rewrite Hhn. apply In_addAll. now right.
    - apply In_highlightedIdsOf in Ha as (Hne & n & Hn & <-). now apply Hin. }
  destruct (edgesDataset s) as [eds |] eqn:E.
  - destruct (Hsome _ eq_refl) as (eds' & He' & _ & Hhe).
    rewrite Hhe in Heid. apply In_betweenIds in Heid as (e & He & Hid & Hb).
    unfold between in Hb. apply andb_true_iff in Hb as [Hf Ht].
    destruct (e_from e) as [a |] eqn:Ef; [| discriminate].
    destruct (e_to e) as [b |] eqn:Et; [| discriminate].
    cbn [optHas] in Hf, Ht.
    destruct (Hnode a Hf), (Hnode b Ht).
    exists eds', e, a, b. auto 10.
  - destruct (Hnone eq_refl) as [_ Hhe]. rewrite Hhe in Heid. destruct Heid.
Qed.

Lemma highlighted_edges_join_highlighted_nodes_witness :
  let a := mkNodeData "A" None None (Some 1%Z) in
  let b := mkNodeData "B" None None (Some 3%Z) in
  let ab := mkEdgeData (Some "A") (Some "B") None None None in
  let s := processGraphData (mkEnv true true true)
             (mkGraphExport (Some [a; b]) (Some [ab])) initialState in
  let r := mkQueryResult None (Some (mkDebug (Some b) (Some [a]) None)) None in
  exists s', highlightQueryPath r s = Done s' /\ highlightedEdges s' = ["edge-0"].
Proof.
  cbv zeta.
  destruct (highlighted_edges_join_highlighted_nodes
              (mkQueryResult None
                 (Some (mkDebug (Some (mkNodeData "B" None None (Some 3%Z)))
                          (Some [mkNodeData "A" None None (Some 1%Z)]) None)) None)
              (processGraphData (mkEnv true true true)
                 (mkGraphExport
                    (Some [mkNodeData "A" None None (Some 1%Z);
                           mkNodeData "B" None None (Some 3%Z)])
                    (Some [mkEdgeData (Some "A") (Some "B") None None None]))
                 initialState)
              _ eq_refl)
    as (s' & ds' & Hrun & _ & _).
  exists s'. split; [exact Hrun |].
  vm_compute in Hrun. apply Done_inj in Hrun. now rewrite <- Hrun.
Defined.

(** The identifier of a traversal edge does not tell its end points
    apart: the edge from [a-b] to [c] and the edge from [a] to [b-c]
    get the same identifier.  When both come in a response, only the
    first is stored; the second highlights the first. *)
Theorem traversal_edge_ids_collide (a b c : string) (s : State) (eds : EdgeSet) :
  let first := mkEdgeData (Some (a ++ "-" ++ b)) (Some c) None None None in
  let second := mkEdgeData (Some a) (Some (b ++ "-" ++ c)) None None None in
  dynamicEdgeId first = dynamicEdgeId second /\
  (edgesDataset s = Some eds ->
   edges_get eds (dynamicEdgeId first) = None ->
   exists s1 s2 eds2 e,
     addOrHighlightEdge first s = Done s1 /\
     addOrHighlightEdge second s1 = Done s2 /\
     edgesDataset s2 = Some eds2 /\
     List.length eds2 = S (List.length eds) /\
     edges_get eds2 (dynamicEdgeId second) = Some e /\
     e_from e = Some (a ++ "-" ++ b) /\
     e_to e = Some c).
Proof.
  cbv zeta.
  assert (Hid : dynamicEdgeId (mkEdgeData (Some (a ++ "-" ++ b)) (Some c) None None None)
                = dynamicEdgeId (mkEdgeData (Some a) (Some (b ++ "-" ++ c)) None None None)).
  { unfold dynamicEdgeId, interp. cbn [d_source d_target orElse].
    f_equal. now rewrite !append_assoc_string. }
  split; [exact Hid |].
  intros Hs Hg.
  set (first := mkEdgeData (Some (a ++ "-" ++ b)) (Some c) None None None) in *.
  set (second := mkEdgeData (Some a) (Some (b ++ "-" ++ c)) None None None) in *.
  set (fresh := mkVisEdge (dynamicEdgeId first) (d_source first) (d_target first)
                  (Some "to") (Some HIGHLIGHT_EDGE) (Some 3%Z) (d_type first)).
  set (s1 := set_highlightedEdges
               (set_add (dynamicEdgeId first) (highlightedEdges s))
               (set_edgesDataset (Some (eds ++ [fresh])%list) s)).
  assert (Hg1 : edges_get (eds ++ [fresh])%list (dynamicEdgeId second) = Some fresh).
  { rewrite <- Hid. unfold edges_get. rewrite DataSetFacts.get_app.
    unfold edges_get in Hg. rewrite Hg. unfold DataSet.get. cbn [find].
    change (e_id fresh) with (dynamicEdgeId first).
    now rewrite String.eqb_refl. }
  exists s1. eexists. eexists. eexists.
  split; [apply (addOrHighlightEdge_unknown first s eds Hs Hg) |].
  split; [apply (addOrHighlightEdge_known second s1 (eds ++ [fresh])%list fresh eq_refl Hg1) |].
  split; [reflexivity |]. split.
  { rewrite <- (length_map e_id).
    pose proof (DataSetFacts.ids_update_known e_id eu_id mergeEdge createEdge
                  mergeEdge_id (eds ++ [fresh])%list
                  (mkEdgeUpdate (dynamicEdgeId second) HIGHLIGHT_EDGE 3) fresh Hg1)
      as Hi.
    unfold edges_update, DataSet.ids in *. rewrite Hi.
    rewrite length_map, length_app. simpl. lia. }
  split.
  { pose proof (DataSetFacts.get_update_same e_id eu_id mergeEdge createEdge
                  mergeEdge_id createEdge_id (eds ++ [fresh])%list
                  (mkEdgeUpdate (dynamicEdgeId second) HIGHLIGHT_EDGE 3)) as Hu.
    cbn [eu_id] in Hu. unfold edges_get, edges_update.
    unfold edges_get in Hg1. rewrite Hu, Hg1. reflexivity. }
  split; reflexivity.
Qed.

Lemma traversal_edge_ids_collide_witness :
  let s := set_edgesDataset (Some []) initialState in
  exists s1 s2 eds2,
    addOrHighlightEdge (mkEdgeData (Some "net-income") (Some "tax") None None None) s
    = Done s1 /\
    addOrHighlightEdge (mkEdgeData (Some "net") (Some "income-tax") None None None) s1
    = Done s2 /\
    edgesDataset s2 = Some eds2 /\
    List.length eds2 = 1%nat.
Proof.
  cbv zeta.
  destruct (traversal_edge_ids_collide "net" "income" "tax"
              (set_edgesDataset (Some []) initialState) []) as [_ H].
  destruct (H eq_refl eq_refl) as (s1 & s2 & eds2 & e & H1 & H2 & H3 & H4 & _).
  exists s1, s2, eds2. auto.
Defined.
